(** * TronMultisigForwarder: the monitoring and forwarding hook

    A shallow embedding of [src/hooks/useForwarder.ts] (with the record
    types of [src/types/tron.ts] and the signer of
    [src/hooks/useTronLink.ts]) and the properties of its balance monitor,
    multisig verifier, forwarding pipeline and activity log.

    Conventions of the embedding.
    - Amounts are ledger units (sun).  The source holds them in JavaScript
      numbers; the ledger returns integers, so they are [Z] here.
    - A template literal is a list of fragments ([Text]): the literal
      pieces, the interpolated numbers, and amounts shown through
      [tronWeb.fromSun].  Pictographs that prefix a few messages in the
      source are left out of the literals.
    - [Date.now()] and [new Date()] read one clock, an explicit [now].
    - The body of an [async] function is a computation that lists the
      effects it performs, in program order, and ends by falling through,
      by [return] or by [throw].  The answers of the ledger and of the
      external signer are inputs of the computation.
    - The toast shown by [addLog] belongs to the user interface and is not
      modelled.
    - The hook's state cells, refs and timers are the fields of one record
      ([Hook]); what a callback holds of the render that built it is
      explicit ([Closure]). *)

From Stdlib Require Import List ZArith String QArith Lia Bool Arith.
From Equations Require Import Equations.
Import ListNotations.

Local Open Scope string_scope.
Local Open Scope list_scope.
Local Open Scope Z_scope.

Set Implicit Arguments.

(** ** Data model ([src/types/tron.ts]) *)

Inductive LogLevel : Type :=
  | INFO | SUCCESS | WARNING | ERROR | DETECTION | SIGNATURE | BROADCAST | BALANCE.

Definition LogLevel_eqb (a b : LogLevel) : bool :=
  match a, b with
  | INFO, INFO | SUCCESS, SUCCESS | WARNING, WARNING | ERROR, ERROR
  | DETECTION, DETECTION | SIGNATURE, SIGNATURE | BROADCAST, BROADCAST
  | BALANCE, BALANCE => true
  | _, _ => false
  end.

(** One piece of a template literal. *)
Inductive Frag : Type :=
  | Lit (s : string)          (* literal text, or an interpolated string *)
  | Num (n : Z)               (* an interpolated integer *)
  | Sun (n : Z)               (* [tronWeb.fromSun(n)] *)
  | Ratio (q : Q).            (* an interpolated quotient *)

Definition Text : Type := list Frag.

Definition Details : Type := list (string * Text).

Record LogEntry : Type := mkLogEntry {
  id : Z;                     (* [Date.now().toString()] *)
  timestamp : Z;              (* [new Date()] *)
  level : LogLevel;
  message : Text;
  details : option Details
}.

Inductive StepStatus : Type := pending | active | completed | error.

Definition StepStatus_eqb (a b : StepStatus) : bool :=
  match a, b with
  | pending, pending | active, active | completed, completed | error, error => true
  | _, _ => false
  end.

Record ForwardingStep : Type := mkStep {
  step_id : string;
  step_label : string;
  step_status : StepStatus;
  step_timestamp : option Z;
  step_details : option Text
}.

Record MultisigStatus : Type := mkMultisigStatus {
  isConfigured : bool;
  threshold : Z;
  keyCount : Z;
  hasReceivingKey : bool;
  hasApprovingKey : bool
}.

Record ForwardingConfig : Type := mkConfig {
  receivingPrivateKey : string;
  receivingAddress : string;
  destinationAddress : string;
  feeReserve : Q;             (* in TRX, as read from the environment *)
  feeReserveSun : Z;          (* [tronWeb.toSun(config.feeReserve)] *)
  pollInterval : Z;
  tronFullHost : string;
  apiKey : string
}.

(** What the ledger returns for an account ([tronWeb.trx.getAccount]). *)
Record Key : Type := mkKey { key_address : string; key_weight : Z }.

Record Permission : Type := mkPermission {
  perm_threshold : Z;
  perm_keys : list Key
}.

Record AccountInfo : Type := mkAccount {
  active_permission : option (list Permission)
}.

(** ** The activity log ([addLog], [clearLogs]) *)

(** The updater handed to [setLogs]:
    [prev => [logEntry, ...prev].slice(0, 100)]. *)
Definition pushLog (logEntry : LogEntry) (prev : list LogEntry) : list LogEntry :=
  firstn 100 (logEntry :: prev).

(** [addLog(level, message, details)] at clock reading [now], as a
    transformer of the [logs] state. *)
Definition addLog (now : Z) (lv : LogLevel) (msg : Text) (det : option Details)
    (prev : list LogEntry) : list LogEntry :=
  pushLog (mkLogEntry now now lv msg det) prev.

(** [clearLogs]: [setLogs([])], then one [addLog]. *)
Definition clearLogs (now : Z) (prev : list LogEntry) : list LogEntry :=
  addLog now INFO [Lit "Log history cleared"] None [].

(** The log after the entries [es] were appended, oldest first, to [start]. *)
Definition appendAll (es : list LogEntry) (start : list LogEntry) : list LogEntry :=
  fold_left (fun l e => pushLog e l) es start.

(** ** Effects

    What the hook's callbacks do to the outside: state setters, the step
    list, timers, and calls to the ledger client and the external signer. *)

Record Transaction : Type := mkTx {
  txID : string;
  signature : option string   (* only its truthiness and [length] are read *)
}.

Record BroadcastResult : Type := mkBroadcast {
  result : bool;
  txid : string;
  result_message : option string
}.

Inductive LedgerCall : Type :=
  | GetBalance (addr : string)
  | GetAccount (addr : string)
  | SendTrx (to : string) (amount : Z) (from : string)
  | MultiSign (tx : Transaction) (privateKey : string) (permissionId : nat)
  | SignTransaction (tx : Transaction)
  | SendRawTransaction (tx : Transaction).

Inductive Effect : Type :=
  | AddLog (lv : LogLevel) (msg : Text) (det : option Details)
  | SetCurrentSteps (steps : list ForwardingStep)
  | UpdateStep (stepId : string) (status : StepStatus) (det : option Text)
  | FailActiveSteps (msg : string)
  | SetReceivingBalance (b : Z)
  | SetLastBalance (b : option Z)
  | SetMultisigStatus (s : MultisigStatus)
  | SetHeartbeat (n : nat)
  | Delay (ms : Z)
  | Call (c : LedgerCall)
  | SetTimeoutForward (receivedAmount : Z) (ms : Z).

(** The settled state of a promise. *)
Inductive Rpc (A : Type) : Type :=
  | Resolved (a : A)
  | Rejected (msg : string).

Arguments Rejected {A} msg.

(** JavaScript truthiness of the values the hook tests with [!]. *)
Definition truthyZ (n : option Z) : bool :=
  match n with
  | Some v => negb (v =? 0)
  | None => false
  end.

Definition truthyString (s : option string) : bool :=
  match s with
  | Some v => negb (String.eqb v "")
  | None => false
  end.

(** [s.includes(sub)] *)
Definition includes (sub s : string) : bool :=
  match index 0 sub s with
  | Some _ => true
  | None => false
  end.

(** ** The multisig verifier ([verifyMultisigSetup]) *)

(** [keys.some(key => key.address === a)] *)
Definition hasKey (a : string) (keys : list Key) : bool :=
  existsb (fun k => String.eqb (key_address k) a) keys.

(** The [status] object: the default, replaced when the account has a
    first active permission. *)
Definition multisigStatusOf (cfg : ForwardingConfig) (approvingAddress : string)
    (accountInfo : AccountInfo) : MultisigStatus :=
  match active_permission accountInfo with
  | Some (activePermission :: _) =>
      mkMultisigStatus
        ((perm_threshold activePermission >=? 2)
           && (Z.of_nat (List.length (perm_keys activePermission)) >=? 2))
        (perm_threshold activePermission)
        (Z.of_nat (List.length (perm_keys activePermission)))
        (hasKey (receivingAddress cfg) (perm_keys activePermission))
        (hasKey approvingAddress (perm_keys activePermission))
  | _ => mkMultisigStatus false 0 0 false false
  end.

(** The check or cross mark shown for a key flag. *)
Definition mark (b : bool) : Text := [Lit (if b then "yes" else "no")].

(** [verifyMultisigSetup]: [tronWebRef] is [tronWebRef.current];
    [accountInfo] is the answer of [getAccount], [None] when it resolves to
    no object (reading a property of it then throws). *)
Definition verifyMultisigSetup (tronWebRef : option ForwardingConfig)
    (approvingAddress : string) (accountInfo : Rpc (option AccountInfo))
    : list Effect :=
  match tronWebRef with
  | None => []
  | Some cfg =>
      if String.eqb approvingAddress "" then []
      else
        Call (GetAccount (receivingAddress cfg)) ::
        match accountInfo with
        | Rejected msg =>
            [AddLog ERROR [Lit "Failed to verify multisig setup"]
               (Some [("error", [Lit msg])])]
        | Resolved None =>
            [AddLog ERROR [Lit "Failed to verify multisig setup"]
               (Some [("error", [Lit "TypeError"])])]
        | Resolved (Some info) =>
            let status := multisigStatusOf cfg approvingAddress info in
            [SetMultisigStatus status;
             if isConfigured status
             then AddLog SUCCESS [Lit "2-of-2 multisig verification passed"]
                    (Some [("threshold", [Num (threshold status)]);
                           ("keyCount", [Num (keyCount status)]);
                           ("receivingKey", mark (hasReceivingKey status));
                           ("approvingKey", mark (hasApprovingKey status))])
             else AddLog WARNING [Lit "Multisig not properly configured"]
                    (Some [("threshold", [Num (threshold status)]);
                           ("keyCount", [Num (keyCount status)]);
                           ("suggestion",
                            [Lit "Please setup 2-of-2 multisig permissions"])])]
        end
  end.

(** ** Computations

    [Try A] is the body of a [try] block: the effects performed so far and
    how control left it. *)

Inductive RunResult : Type :=
  | RUndefined                      (* a bare [return;] *)
  | RResult (r : BroadcastResult)   (* [return result;] *)
  | RNull.                          (* [return null;] *)

Inductive Ctl (A : Type) : Type :=
  | Next (a : A)                    (* falls through to the next statement *)
  | Returned (r : RunResult)        (* a [return] inside the block *)
  | Thrown (msg : string).          (* [throw new Error(msg)] or a rejection *)

Arguments Returned {A} r.
Arguments Thrown {A} msg.

Definition Try (A : Type) : Type := (list Effect * Ctl A)%type.

Definition ret {A : Type} (a : A) : Try A := ([], Next a).

Definition bind {A B : Type} (m : Try A) (f : A -> Try B) : Try B :=
  match m with
  | (t, Next a) => let (t', c) := f a in (t ++ t', c)
  | (t, Returned r) => (t, Returned r)
  | (t, Thrown msg) => (t, Thrown msg)
  end.

Definition emit (e : Effect) : Try unit := ([e], Next tt).

Definition throw {A : Type} (msg : string) : Try A := ([], Thrown msg).

Definition return_ {A : Type} (r : RunResult) : Try A := ([], Returned r).

(** [await] of a call to a collaborator whose promise settles as [r]. *)
Definition await {A : Type} (c : LedgerCall) (r : Rpc A) : Try A :=
  match r with
  | Resolved a => ([Call c], Next a)
  | Rejected msg => ([Call c], Thrown msg)
  end.

(** A computation that neither returns early nor throws. *)
Definition lift {A : Type} (m : list Effect * A) : Try A :=
  (fst m, Next (snd m)).

Declare Scope try_scope.
Delimit Scope try_scope with try.

Notation "x <- m ;; k" := (bind m (fun x => k))
  (at level 61, m at next level, right associativity) : try_scope.
Notation "m ;; k" := (bind m (fun _ => k))
  (at level 61, right associativity) : try_scope.

Local Open Scope try_scope.

(** ** The forwarding pipeline ([forwardWithMultisig]) *)

Definition maxRetries : nat := 3.
Definition retryDelay : Z := 5000.

(** [updateReceivingBalance]: the balance, or [None] for [null]. *)
Definition updateReceivingBalance (tronWebRef : option ForwardingConfig)
    (balanceInSun : Rpc Z) : list Effect * option Z :=
  match tronWebRef with
  | None => ([], None)
  | Some cfg =>
      match balanceInSun with
      | Resolved b =>
          ([Call (GetBalance (receivingAddress cfg)); SetReceivingBalance b], Some b)
      | Rejected msg =>
          ([Call (GetBalance (receivingAddress cfg));
            AddLog ERROR [Lit "Failed to update receiving wallet balance"]
              (Some [("error", [Lit msg])])], None)
      end
  end.

Definition createForwardingSteps : list ForwardingStep :=
  [ mkStep "detect" "Payment Detected" pending None None;
    mkStep "create" "Transaction Created" pending None None;
    mkStep "sign1" "Signed by Receiving" pending None None;
    mkStep "sign2" "Signed by Approving" pending None None;
    mkStep "validate" "Multisig Validated" pending None None;
    mkStep "broadcast" "Broadcasted" pending None None;
    mkStep "confirm" "Confirmed" pending None None ].

(** [updateStep] as a transformer of the [currentSteps] state. *)
Definition updateStep (now : Z) (stepId : string) (status : StepStatus)
    (det : option Text) (prev : list ForwardingStep) : list ForwardingStep :=
  map (fun step =>
         if String.eqb (step_id step) stepId
         then mkStep (step_id step) (step_label step) status (Some now) det
         else step) prev.

(** The updater of the [catch] block: every active step becomes an error. *)
Definition failActiveSteps (msg : string) (prev : list ForwardingStep)
    : list ForwardingStep :=
  map (fun step =>
         if StepStatus_eqb (step_status step) active
         then mkStep (step_id step) (step_label step) error (step_timestamp step)
                (Some [Lit msg])
         else step) prev.

(** What the closure of [forwardWithMultisig] holds of the signer hook. *)
Record Connection : Type := mkConnection {
  isConnected : bool;
  tronLinkWeb : bool;           (* whether the signer's client object is set *)
  approvingAddress : string
}.

(** The answers of the collaborators during one attempt, in call order. *)
Record AttemptEnv : Type := mkAttemptEnv {
  on_getBalance : Rpc Z;
  on_sendTrx : Rpc Transaction;
  on_getAccount : Rpc (option AccountInfo);
  on_multiSign : Rpc Transaction;
  on_signTransaction : Rpc (option Transaction);   (* [None]: a falsy answer *)
  on_sendRawTransaction : Rpc BroadcastResult;
  on_getBalanceAfter : Rpc Z
}.

(** [keys.indexOf(keys.find(key => key.address === a))], when found. *)
Fixpoint findKeyIndex (a : string) (keys : list Key) : option nat :=
  match keys with
  | [] => None
  | k :: rest =>
      if String.eqb (key_address k) a then Some 0%nat
      else option_map S (findKeyIndex a rest)
  end.

Definition receivingKeyIndexOf (cfg : ForwardingConfig)
    (accountInfo : option AccountInfo) : nat :=
  match accountInfo with
  | Some info =>
      match active_permission info with
      | Some (activePermission :: _) =>
          match findKeyIndex (receivingAddress cfg) (perm_keys activePermission) with
          | Some i => i
          | None => 0%nat
          end
      | _ => 0%nat
      end
  | None => 0%nat
  end.

Definition forwardAmountOf (cfg : ForwardingConfig) (receivedAmount currentBalance : Z) : Z :=
  let feeReserve := feeReserveSun cfg in
  let availableAmount := Z.max 0 (currentBalance - feeReserve) in
  Z.min receivedAmount availableAmount.

(** [signature ? signature.length / 65 : 0] *)
Definition signatureCountOf (fullySigned : Transaction) : Q :=
  match signature fullySigned with
  | Some s =>
      if String.eqb s "" then 0%Q
      else (inject_Z (Z.of_nat (String.length s)) / 65)%Q
  | None => 0%Q
  end.

Definition hasRequiredSignatures (fullySigned : Transaction) : bool :=
  Qle_bool 2 (signatureCountOf fullySigned).

(** The check that closes the sign-external step. *)
Definition signatureFormatOk (fullySigned : Transaction) : bool :=
  truthyString (signature fullySigned)
  && negb (Z.of_nat (String.length
             (match signature fullySigned with Some s => s | None => "" end)) <? 130).

(** Step 5: validate the signature count. *)
Definition validateStep (fullySigned : Transaction) : Try Q :=
  emit (UpdateStep "validate" active None) ;;
  let signatureCount := signatureCountOf fullySigned in
  if negb (hasRequiredSignatures fullySigned)
  then throw "Transaction does not meet 2-of-2 multisig requirements"
  else
    emit (UpdateStep "validate" completed
            (Some [Ratio signatureCount; Lit " signatures validated"])) ;;
    emit (AddLog SUCCESS [Lit "DUAL SIGNATURE COMPLETE - TRANSACTION READY"]
            (Some [("Transaction ID", [Lit (txID fullySigned)]);
                   ("Receiving Wallet", [Lit "Signed"]);
                   ("Approving Wallet", [Lit "Signed"]);
                   ("Multisig Validation", [Lit "Passed"]);
                   ("Status", [Lit "Ready for network broadcast"])])) ;;
    ret signatureCount.

Section Attempt.

Variable cfg : ForwardingConfig.
Variable conn : Connection.
Variable receivedAmount : Z.
Variable env : AttemptEnv.

(** The head of the [try] block: the start entry and step 1. *)
Definition detectStep (attempts : nat) : Try unit :=
  emit (AddLog INFO [Lit "STARTING MULTISIG FORWARD PROCESS..."]
          (Some [("Amount to Forward", [Sun receivedAmount; Lit " TRX"]);
                 ("Multisig Type", [Lit "2-of-2 Auto-Approval"]);
                 ("Attempt Number",
                  [Num (Z.of_nat attempts + 1); Lit " of "; Num (Z.of_nat maxRetries)]);
                 ("Process",
                  [Lit "Create, Sign 1st, Sign 2nd, Validate, Broadcast, Confirm"])])) ;;
  emit (UpdateStep "detect" completed (Some [Sun receivedAmount; Lit " TRX received"])).

(** Re-reading the balance and computing the amount; a bare [return] when
    nothing can be forwarded.  Yields [(currentBalance, forwardAmount)]. *)
Definition amountStep : Try (Z * Z) :=
  currentBalance <- lift (updateReceivingBalance (Some cfg) (on_getBalance env)) ;;
  if negb (truthyZ currentBalance)
  then throw "Failed to get current balance"
  else
    let currentBalance := match currentBalance with Some b => b | None => 0 end in
    let configFeeReserve := feeReserve cfg in
    let feeReserve := feeReserveSun cfg in
    let availableAmount := Z.max 0 (currentBalance - feeReserve) in
    let forwardAmount := Z.min receivedAmount availableAmount in
    if forwardAmount <=? 0
    then
      emit (AddLog WARNING [Lit "Insufficient balance after fee reserve"]
              (Some [("Current Balance", [Sun currentBalance; Lit " TRX"]);
                     ("Fee Reserve", [Ratio configFeeReserve; Lit " TRX"]);
                     ("Available", [Sun availableAmount; Lit " TRX"])])) ;;
      emit (UpdateStep "detect" error
              (Some [Lit "Insufficient balance for forwarding"])) ;;
      return_ RUndefined
    else ret (currentBalance, forwardAmount).

(** Step 2: create the transaction. *)
Definition createStep (forwardAmount : Z) : Try Transaction :=
  emit (UpdateStep "create" active None) ;;
  transaction <- await (SendTrx (destinationAddress cfg) forwardAmount
                          (receivingAddress cfg)) (on_sendTrx env) ;;
  emit (UpdateStep "create" completed
          (Some [Lit "Transaction "; Lit (substring 0 8 (txID transaction));
                 Lit "... created"])) ;;
  emit (AddLog INFO [Lit "Multisig transaction created"]
          (Some [("Transaction ID", [Lit (txID transaction)]);
                 ("Amount", [Sun forwardAmount; Lit " TRX"]);
                 ("From", [Lit (receivingAddress cfg)]);
                 ("To", [Lit (destinationAddress cfg)])])) ;;
  ret transaction.

(** Step 3: the first signature, with the held key. *)
Definition signLocalStep (transaction : Transaction) : Try Transaction :=
  emit (UpdateStep "sign1" active None) ;;
  accountInfo <- await (GetAccount (receivingAddress cfg)) (on_getAccount env) ;;
  let receivingKeyIndex := receivingKeyIndexOf cfg accountInfo in
  firstSigned <- await (MultiSign transaction (receivingPrivateKey cfg)
                          receivingKeyIndex) (on_multiSign env) ;;
  emit (UpdateStep "sign1" completed (Some [Lit "Auto-signed with receiving wallet"])) ;;
  emit (AddLog SIGNATURE [Lit "First signature completed (receiving wallet)"]
          (Some [("Signer", [Lit (receivingAddress cfg)]);
                 ("Key Index", [Num (Z.of_nat receivingKeyIndex)]);
                 ("Status", [Lit "Partially signed (1/2)"])])) ;;
  ret firstSigned.

(** Step 4: the second signature, from the external signer. *)
Definition signExternalStep (firstSigned : Transaction) : Try Transaction :=
  emit (UpdateStep "sign2" active None) ;;
  emit (AddLog SIGNATURE [Lit "Requesting second signature from TronLink..."]
          (Some [("Signer", [Lit (approvingAddress conn)]);
                 ("Action", [Lit "Please approve transaction in TronLink popup"])])) ;;
  fullySigned <- await (SignTransaction firstSigned) (on_signTransaction env) ;;
  match fullySigned with
  | None => throw "TronLink signing was cancelled or failed"
  | Some fullySigned =>
      if negb (signatureFormatOk fullySigned)
      then throw "Invalid signature format - transaction may not be properly signed"
      else
        emit (UpdateStep "sign2" completed (Some [Lit "Signed with TronLink wallet"])) ;;
        emit (AddLog SIGNATURE [Lit "Second signature completed (TronLink wallet)"]
                (Some [("Signer", [Lit (approvingAddress conn)]);
                       ("Status", [Lit "Fully signed (2/2)"])])) ;;
        ret fullySigned
  end.

(** Step 6: broadcast. *)
Definition broadcastStep (fullySigned : Transaction) (signatureCount : Q)
    : Try BroadcastResult :=
  emit (UpdateStep "broadcast" active None) ;;
  emit (AddLog BROADCAST [Lit "Broadcasting multisig transaction to TRON network..."]
          (Some [("Transaction ID", [Lit (txID fullySigned)]);
                 ("Signature Count", [Ratio signatureCount]);
                 ("Multisig Status", [Lit "2-of-2 Complete"])])) ;;
  res <- await (SendRawTransaction fullySigned) (on_sendRawTransaction env) ;;
  if negb (result res)
  then throw ("Broadcast failed: " ++
              (if truthyString (result_message res)
               then match result_message res with Some m => m | None => "" end
               else "Unknown error"))%string
  else
    emit (UpdateStep "broadcast" completed
            (Some [Lit "Transaction "; Lit (substring 0 8 (txid res));
                   Lit "... broadcasted"])) ;;
    emit (AddLog BROADCAST [Lit "Transaction broadcasted successfully"]
            (Some [("Transaction ID", [Lit (txid res)]);
                   ("Network Status", [Lit "Submitted to TRON Network"]);
                   ("Confirmation", [Lit "Pending Block Confirmation"])])) ;;
    ret res.

(** Step 7: wait, re-read the balance, report. *)
Definition confirmStep (currentBalance forwardAmount : Z) (res : BroadcastResult)
    : Try unit :=
  emit (UpdateStep "confirm" active None) ;;
  emit (Delay 5000) ;;
  balanceAfter <- lift (updateReceivingBalance (Some cfg) (on_getBalanceAfter env)) ;;
  match balanceAfter with
  | Some balanceAfter =>
      let actualCost := currentBalance - balanceAfter in
      let transactionFee := actualCost - forwardAmount in
      emit (UpdateStep "confirm" completed (Some [Lit "Transaction confirmed on network"])) ;;
      emit (AddLog SUCCESS [Lit "MULTISIG FORWARD COMPLETED SUCCESSFULLY!"]
              (Some [("Transaction ID", [Lit (txid res)]);
                     ("Amount Forwarded", [Sun forwardAmount; Lit " TRX"]);
                     ("Transaction Fee", [Sun transactionFee; Lit " TRX"]);
                     ("Balance After", [Sun balanceAfter; Lit " TRX"]);
                     ("Multisig Status", [Lit "2-of-2 Verified"]);
                     ("Network Status", [Lit "Confirmed"]);
                     ("Explorer",
                      [Lit (if includes "shasta" (tronFullHost cfg)
                            then "https://shasta.tronscan.org/#/transaction/"
                            else "https://tronscan.org/#/transaction/");
                       Lit (txid res)])])) ;;
      emit (SetLastBalance (Some balanceAfter))
  | None => ret tt
  end.

(** The body of the [try] block of one pass of the loop, when [attempts]
    passes have failed before it.  Its last statement is a [return], so it
    never falls through. *)
Definition attempt (attempts : nat) : Try Empty_set :=
  detectStep attempts ;;
  amounts <- amountStep ;;
  let (currentBalance, forwardAmount) := (amounts : Z * Z) in
  transaction <- createStep forwardAmount ;;
  firstSigned <- signLocalStep transaction ;;
  fullySigned <- signExternalStep firstSigned ;;
  signatureCount <- validateStep fullySigned ;;
  res <- broadcastStep fullySigned signatureCount ;;
  confirmStep currentBalance forwardAmount res ;;
  return_ (RResult res).

(** The [catch] block after the [attempts]-th failure ([attempts] already
    incremented). *)
Definition catchBlock (attempts : nat) (msg : string) : list Effect :=
  [ AddLog ERROR [Lit "Multisig forward attempt "; Num (Z.of_nat attempts); Lit " failed"]
      (Some [("error", [Lit msg]);
             ("attempt", [Num (Z.of_nat attempts)]);
             ("maxAttempts", [Num (Z.of_nat maxRetries)])]);
    FailActiveSteps msg ]
  ++ (if (attempts <? maxRetries)%nat
      then [ AddLog INFO [Lit "Retrying in "; Num (retryDelay / 1000); Lit " seconds..."] None;
             Delay retryDelay ]
      else []).

End Attempt.

(** The [while (attempts < maxRetries)] loop, entered with [attempts]
    failures counted; [envs k] holds the collaborators' answers during the
    pass that follows [k] failures. *)
Equations forwardLoop (cfg : ForwardingConfig) (conn : Connection)
    (receivedAmount : Z) (envs : nat -> AttemptEnv) (attempts : nat)
    : list Effect * RunResult by wf (maxRetries - attempts)%nat lt :=
  forwardLoop cfg conn receivedAmount envs attempts
    with lt_dec attempts maxRetries := {
    | left _ with attempt cfg conn receivedAmount (envs attempts) attempts := {
        | (t, Returned r) => (t, r)
        | (t, Thrown msg) =>
            let rest := forwardLoop cfg conn receivedAmount envs (S attempts) in
            (t ++ catchBlock (S attempts) msg ++ fst rest, snd rest)
        | (t, Next a) => match a with end
      }
    | right _ =>
        ([AddLog ERROR [Lit "MULTISIG FORWARD FAILED after ";
                        Num (Z.of_nat maxRetries); Lit " attempts"] None],
         RNull)
  }.
Next Obligation.
  clear forwardLoop. unfold maxRetries in *.
  destruct attempts as [|[|[|n]]]; lia.
Qed.

(** [forwardWithMultisig(receivedAmount)] in a closure that holds [conn],
    with [tronWebRef.current] as given. *)
Definition forwardWithMultisig (tronWebRef : option ForwardingConfig)
    (conn : Connection) (receivedAmount : Z) (envs : nat -> AttemptEnv)
    : list Effect * RunResult :=
  match tronWebRef with
  | Some cfg =>
      if isConnected conn && tronLinkWeb conn
         && negb (String.eqb (approvingAddress conn) "")
      then
        let run := forwardLoop cfg conn receivedAmount envs 0 in
        (SetCurrentSteps createForwardingSteps :: fst run, snd run)
      else ([AddLog ERROR [Lit "Missing required connections for multisig forwarding"]
               None], RUndefined)
  | None => ([AddLog ERROR [Lit "Missing required connections for multisig forwarding"]
                None], RUndefined)
  end.

(** ** The balance monitor ([monitorBalance]) *)

(** The heartbeat at the head of [monitorBalance], from the counter's
    value before the increment. *)
Definition heartbeat (count : nat) (currentBalance : Z) : list Effect :=
  SetHeartbeat (S count) ::
  (if (20 <=? S count)%nat
   then [ AddLog INFO [Lit "Monitoring active - Balance: "; Sun currentBalance; Lit " TRX"]
            None;
          SetHeartbeat 0 ]
   else []).

(** [monitorBalance] in a closure whose [lastBalance] is the argument of
    that name; [count] is [heartbeatCountRef.current] and [balanceInSun]
    the ledger's answer.  No statement of its [try] block throws, so its
    [catch] block is not reached. *)
Definition monitorBalance (tronWebRef : option ForwardingConfig)
    (lastBalance : option Z) (count : nat) (balanceInSun : Rpc Z) : list Effect :=
  match tronWebRef with
  | None => []
  | Some _ =>
      let (t, currentBalance) := updateReceivingBalance tronWebRef balanceInSun in
      match currentBalance with
      | None => t
      | Some currentBalance =>
          t ++ heartbeat count currentBalance ++
          match lastBalance with
          | None =>
              [ SetLastBalance (Some currentBalance);
                AddLog INFO [Lit "Initial balance set: "; Sun currentBalance; Lit " TRX"]
                  None ]
          | Some lastBalance =>
              if currentBalance >? lastBalance then
                let receivedAmount := currentBalance - lastBalance in
                [ AddLog DETECTION [Lit "TRX PAYMENT DETECTED!"]
                    (Some [("Previous Balance", [Sun lastBalance; Lit " TRX"]);
                           ("Current Balance", [Sun currentBalance; Lit " TRX"]);
                           ("Received Amount", [Sun receivedAmount; Lit " TRX"]);
                           ("Action", [Lit "Preparing multisig forward process..."])]);
                  SetLastBalance (Some currentBalance);
                  SetTimeoutForward receivedAmount 2000 ]
              else if currentBalance <? lastBalance then
                [ AddLog BALANCE [Lit "Balance decreased"]
                    (Some [("Previous", [Sun lastBalance; Lit " TRX"]);
                           ("Current", [Sun currentBalance; Lit " TRX"]);
                           ("Change", [Sun (currentBalance - lastBalance); Lit " TRX"])]);
                  SetLastBalance (Some currentBalance) ]
              else []
          end
      end
  end.

(** ** The hook as a state machine

    [useState] gives each render the value of a state cell as a constant,
    and [useCallback] builds the callbacks of that render over those
    constants; a setter writes the cell, for the next render to read.  A
    callback therefore holds the values of the render that built it
    ([Closure]), whatever is written to the cells afterwards, while the
    [useRef] objects are shared and read live.  [startMonitoring] hands the
    [monitorBalance] of its own render both to its direct call and to
    [setInterval], and the timer callback set by that [monitorBalance]
    holds the [forwardWithMultisig] of the same render.

    An action of the operator calls the callbacks of the latest render,
    which has read the cells as they stand.  Each run of a callback is one
    step of the machine: the decisions of [monitorBalance] depend on what
    its closure holds and on the answer of the ledger only, so the steps of
    two callbacks do not interfere in them.  A forwarding run is active
    from the moment its timer fires until it returns; its effects are
    applied when it returns.

    So an [Event] stands for a callback that runs to its end before the
    next event: [Tick] is a poll whose balance query is answered at once,
    and [RunSettles] applies the whole trace of a run.  A poll that still
    waits for the ledger while other callbacks run is the subject of
    [Session] below; what a run writes between its first and its last
    effect is stated on its trace. *)

Record Closure : Type := mkClosure {
  seen_lastBalance : option Z;
  seen_connection : Connection;
  seen_multisigStatus : MultisigStatus
}.

(** A call [forwardWithMultisig(receivedAmount)] waiting in a timer, or
    started: the amount and what its closure holds of the signer. *)
Record Pending : Type := mkPending {
  pending_amount : Z;
  pending_connection : Connection
}.

Record Hook : Type := mkHook {
  h_tronWebRef : option ForwardingConfig;   (* [tronWebRef.current] *)
  h_connection : Connection;   (* the state of the signer hook *)
  h_multisigStatus : MultisigStatus;
  h_lastBalance : option Z;   (* the state cell read by the next render *)
  h_receivingBalance : Z;
  h_logs : list LogEntry;
  h_currentSteps : list ForwardingStep;
  h_isRunning : bool;
  h_intervalRef : option Closure;   (* the callback registered by [setInterval] *)
  h_heartbeatCountRef : nat;
  h_timers : list Pending;   (* [setTimeout] callbacks not yet run, oldest first *)
  h_running : list Pending;   (* forwarding runs started and not yet returned *)
  h_clock : Z
}.

Definition set_tronWebRef (v : option ForwardingConfig) (h : Hook) : Hook :=
  mkHook v (h_connection h) (h_multisigStatus h) (h_lastBalance h) (h_receivingBalance h) (h_logs h) (h_currentSteps h) (h_isRunning h) (h_intervalRef h) (h_heartbeatCountRef h) (h_timers h) (h_running h) (h_clock h).

Definition set_connection (v : Connection) (h : Hook) : Hook :=
  mkHook (h_tronWebRef h) v (h_multisigStatus h) (h_lastBalance h) (h_receivingBalance h) (h_logs h) (h_currentSteps h) (h_isRunning h) (h_intervalRef h) (h_heartbeatCountRef h) (h_timers h) (h_running h) (h_clock h).

Definition set_multisigStatus (v : MultisigStatus) (h : Hook) : Hook :=
  mkHook (h_tronWebRef h) (h_connection h) v (h_lastBalance h) (h_receivingBalance h) (h_logs h) (h_currentSteps h) (h_isRunning h) (h_intervalRef h) (h_heartbeatCountRef h) (h_timers h) (h_running h) (h_clock h).

Definition set_lastBalance (v : option Z) (h : Hook) : Hook :=
  mkHook (h_tronWebRef h) (h_connection h) (h_multisigStatus h) v (h_receivingBalance h) (h_logs h) (h_currentSteps h) (h_isRunning h) (h_intervalRef h) (h_heartbeatCountRef h) (h_timers h) (h_running h) (h_clock h).

Definition set_receivingBalance (v : Z) (h : Hook) : Hook :=
  mkHook (h_tronWebRef h) (h_connection h) (h_multisigStatus h) (h_lastBalance h) v (h_logs h) (h_currentSteps h) (h_isRunning h) (h_intervalRef h) (h_heartbeatCountRef h) (h_timers h) (h_running h) (h_clock h).

Definition set_logs (v : list LogEntry) (h : Hook) : Hook :=
  mkHook (h_tronWebRef h) (h_connection h) (h_multisigStatus h) (h_lastBalance h) (h_receivingBalance h) v (h_currentSteps h) (h_isRunning h) (h_intervalRef h) (h_heartbeatCountRef h) (h_timers h) (h_running h) (h_clock h).

Definition set_currentSteps (v : list ForwardingStep) (h : Hook) : Hook :=
  mkHook (h_tronWebRef h) (h_connection h) (h_multisigStatus h) (h_lastBalance h) (h_receivingBalance h) (h_logs h) v (h_isRunning h) (h_intervalRef h) (h_heartbeatCountRef h) (h_timers h) (h_running h) (h_clock h).

Definition set_isRunning (v : bool) (h : Hook) : Hook :=
  mkHook (h_tronWebRef h) (h_connection h) (h_multisigStatus h) (h_lastBalance h) (h_receivingBalance h) (h_logs h) (h_currentSteps h) v (h_intervalRef h) (h_heartbeatCountRef h) (h_timers h) (h_running h) (h_clock h).

Definition set_intervalRef (v : option Closure) (h : Hook) : Hook :=
  mkHook (h_tronWebRef h) (h_connection h) (h_multisigStatus h) (h_lastBalance h) (h_receivingBalance h) (h_logs h) (h_currentSteps h) (h_isRunning h) v (h_heartbeatCountRef h) (h_timers h) (h_running h) (h_clock h).

Definition set_heartbeatCountRef (v : nat) (h : Hook) : Hook :=
  mkHook (h_tronWebRef h) (h_connection h) (h_multisigStatus h) (h_lastBalance h) (h_receivingBalance h) (h_logs h) (h_currentSteps h) (h_isRunning h) (h_intervalRef h) v (h_timers h) (h_running h) (h_clock h).

Definition set_timers (v : list Pending) (h : Hook) : Hook :=
  mkHook (h_tronWebRef h) (h_connection h) (h_multisigStatus h) (h_lastBalance h) (h_receivingBalance h) (h_logs h) (h_currentSteps h) (h_isRunning h) (h_intervalRef h) (h_heartbeatCountRef h) v (h_running h) (h_clock h).

Definition set_running (v : list Pending) (h : Hook) : Hook :=
  mkHook (h_tronWebRef h) (h_connection h) (h_multisigStatus h) (h_lastBalance h) (h_receivingBalance h) (h_logs h) (h_currentSteps h) (h_isRunning h) (h_intervalRef h) (h_heartbeatCountRef h) (h_timers h) v (h_clock h).

Definition set_clock (v : Z) (h : Hook) : Hook :=
  mkHook (h_tronWebRef h) (h_connection h) (h_multisigStatus h) (h_lastBalance h) (h_receivingBalance h) (h_logs h) (h_currentSteps h) (h_isRunning h) (h_intervalRef h) (h_heartbeatCountRef h) (h_timers h) (h_running h) v.

(** The callbacks of the render that reads the state [h]. *)
Definition closureOf (h : Hook) : Closure :=
  mkClosure (h_lastBalance h) (h_connection h) (h_multisigStatus h).

(** One effect of a callback built in a render that saw [conn]. *)
Definition applyEffect (conn : Connection) (h : Hook) (e : Effect) : Hook :=
  match e with
  | AddLog lv msg det => set_logs (addLog (h_clock h) lv msg det (h_logs h)) h
  | SetCurrentSteps steps => set_currentSteps steps h
  | UpdateStep stepId status det =>
      set_currentSteps (updateStep (h_clock h) stepId status det (h_currentSteps h)) h
  | FailActiveSteps msg => set_currentSteps (failActiveSteps msg (h_currentSteps h)) h
  | SetReceivingBalance b => set_receivingBalance b h
  | SetLastBalance b => set_lastBalance b h
  | SetMultisigStatus s => set_multisigStatus s h
  | SetHeartbeat n => set_heartbeatCountRef n h
  | Delay ms => set_clock (h_clock h + ms) h
  | Call _ => h
  | SetTimeoutForward receivedAmount _ =>
      set_timers (h_timers h ++ [mkPending receivedAmount conn]) h
  end.

Definition applyEffects (conn : Connection) (t : list Effect) (h : Hook) : Hook :=
  fold_left (applyEffect conn) t h.

Definition logNow (lv : LogLevel) (msg : Text) (det : option Details) (h : Hook) : Hook :=
  set_logs (addLog (h_clock h) lv msg det (h_logs h)) h.

(** One run of the [monitorBalance] of closure [cl], the ledger answering
    [balanceInSun]. *)
Definition runMonitor (cl : Closure) (balanceInSun : Rpc Z) (h : Hook) : Hook :=
  applyEffects (seen_connection cl)
    (monitorBalance (h_tronWebRef h) (seen_lastBalance cl) (h_heartbeatCountRef h)
       balanceInSun) h.

(** [startMonitoring] of the render that reads [h].  Its call of
    [monitorBalance] suspends at the balance query and resumes, with the
    answer [balanceInSun], after [startMonitoring] has returned. *)
Definition startMonitoring (balanceInSun : Rpc Z) (h : Hook) : Hook :=
  let cl := closureOf h in
  match h_tronWebRef h with
  | None => logNow ERROR [Lit "Cannot start monitoring: TronWeb not initialized"] None h
  | Some cfg =>
      if negb (isConnected (seen_connection cl))
         || String.eqb (approvingAddress (seen_connection cl)) ""
      then logNow ERROR [Lit "Cannot start monitoring: TronLink not connected"] None h
      else if negb (isConfigured (seen_multisigStatus cl))
      then logNow ERROR [Lit "Cannot start monitoring: Multisig not configured"] None h
      else
        let h := set_lastBalance None h in
        let h := set_heartbeatCountRef 0%nat h in
        let h := set_intervalRef (Some cl) h in
        let h := set_isRunning true h in
        let h := logNow SUCCESS [Lit "MULTISIG MONITORING STARTED"]
                   (Some [("Network",
                           [Lit (if includes "shasta" (tronFullHost cfg)
                                 then "Shasta Testnet" else "TRON Mainnet")]);
                          ("Receiving Address", [Lit (receivingAddress cfg)]);
                          ("Approving Address",
                           [Lit (approvingAddress (seen_connection cl))]);
                          ("Destination Address", [Lit (destinationAddress cfg)]);
                          ("Poll Interval", [Ratio (pollInterval cfg # 1000); Lit "s"]);
                          ("Fee Reserve", [Ratio (feeReserve cfg); Lit " TRX"]);
                          ("Multisig Type", [Lit "2-of-2"]);
                          ("Status", [Lit "ACTIVE"])]) h in
        runMonitor cl balanceInSun h
  end.

Definition stopMonitoring (h : Hook) : Hook :=
  let h := set_intervalRef None h in
  let h := set_isRunning false h in
  let h := set_currentSteps [] h in
  logNow INFO [Lit "MULTISIG MONITORING STOPPED"]
    (Some [("Status", [Lit "All monitoring processes terminated"]);
           ("Action", [Lit "Ready to restart when needed"])]) h.

(** Removing the [i]-th element. *)
Fixpoint dropNth {A : Type} (i : nat) (l : list A) : list A :=
  match l, i with
  | [], _ => []
  | _ :: rest, O => rest
  | x :: rest, S j => x :: dropNth j rest
  end.

(** What happens to the hook. *)
Inductive Event : Type :=
  | SignerChanges (conn : Connection)         (* the signer hook's state changes *)
  | Verify (accountInfo : Rpc (option AccountInfo))  (* [verifyMultisigSetup] runs *)
  | Start (balanceInSun : Rpc Z)              (* the operator starts monitoring *)
  | Stop                                      (* the operator stops monitoring *)
  | Tick (balanceInSun : Rpc Z)               (* the interval fires *)
  | TimerFires                                (* the oldest [setTimeout] callback runs *)
  | RunSettles (i : nat) (envs : nat -> AttemptEnv)  (* a started run runs to its end *)
  | Elapse (ms : Z).

Definition step (h : Hook) (ev : Event) : Hook :=
  match ev with
  | SignerChanges conn => set_connection conn h
  | Verify accountInfo =>
      applyEffects (h_connection h)
        (verifyMultisigSetup (h_tronWebRef h) (approvingAddress (h_connection h))
           accountInfo) h
  | Start balanceInSun => startMonitoring balanceInSun h
  | Stop => stopMonitoring h
  | Tick balanceInSun =>
      match h_intervalRef h with
      | Some cl => runMonitor cl balanceInSun h
      | None => h
      end
  | TimerFires =>
      match h_timers h with
      | p :: rest => set_running (h_running h ++ [p]) (set_timers rest h)
      | [] => h
      end
  | RunSettles i envs =>
      match nth_error (h_running h) i with
      | Some p =>
          applyEffects (pending_connection p)
            (fst (forwardWithMultisig (h_tronWebRef h) (pending_connection p)
                    (pending_amount p) envs))
            (set_running (dropNth i (h_running h)) h)
      | None => h
      end
  | Elapse ms => set_clock (h_clock h + ms) h
  end.

Definition runEvents (evs : list Event) (h : Hook) : Hook := fold_left step evs h.

(** The hook after [initTronWeb] succeeded with [cfg], before anything
    else; the entries [initTronWeb] logs are not part of it. *)
Definition initialHook (cfg : ForwardingConfig) : Hook :=
  mkHook (Some cfg) (mkConnection false false "")
    (mkMultisigStatus false 0 0 false false)
    None 0 [] [] false None 0%nat [] [] 0.

(** ** Observations on traces and states *)

(** The transactions a trace asks the ledger to build: [(to, amount, from)]. *)
Definition sendTrxCalls (t : list Effect) : list (string * Z * string) :=
  flat_map (fun e => match e with
                     | Call (SendTrx to amount from) => [(to, amount, from)]
                     | _ => []
                     end) t.

(** The transactions a trace submits to the network. *)
Definition broadcastCalls (t : list Effect) : list Transaction :=
  flat_map (fun e => match e with
                     | Call (SendRawTransaction tx) => [tx]
                     | _ => []
                     end) t.

(** The log entries a trace emits, oldest first: level and message. *)
Definition logged (t : list Effect) : list (LogLevel * Text) :=
  flat_map (fun e => match e with
                     | AddLog lv msg _ => [(lv, msg)]
                     | _ => []
                     end) t.

Definition levelsLogged (t : list Effect) : list LogLevel := map fst (logged t).

Definition countLevel (lv : LogLevel) (t : list Effect) : nat :=
  List.length (filter (LogLevel_eqb lv) (levelsLogged t)).

(** Whether an effect is the entry that opens a pass of the loop. *)
Definition isStartEntry (e : Effect) : bool :=
  match e with
  | AddLog INFO [Lit s] _ => String.eqb s "STARTING MULTISIG FORWARD PROCESS..."
  | _ => false
  end.

(** The passes of the loop a trace went through: one start entry each. *)
Definition attemptsStarted (t : list Effect) : nat :=
  List.length (filter isStartEntry t).

(** The delays a trace waits for, in order. *)
Definition delays (t : list Effect) : list Z :=
  flat_map (fun e => match e with
                     | Delay ms => [ms]
                     | _ => []
                     end) t.

(** The attempt number of an entry of the [catch] block. *)
Definition failureNumber (e : Effect) : list Z :=
  match e with
  | AddLog ERROR [Lit a; Num k; Lit b] _ =>
      if String.eqb a "Multisig forward attempt " && String.eqb b " failed"
      then [k] else []
  | _ => []
  end.

(** The entries of the [catch] block in a trace: their attempt numbers. *)
Definition failuresLogged (t : list Effect) : list Z := flat_map failureNumber t.

(** The amounts for which a trace sets a forwarding timer. *)
Definition timeoutsOf (t : list Effect) : list Z :=
  flat_map (fun e => match e with
                     | SetTimeoutForward receivedAmount _ => [receivedAmount]
                     | _ => []
                     end) t.

(** The step list after the effects of a trace, clock at [now]. *)
Definition stepsAfter (now : Z) (t : list Effect) (steps : list ForwardingStep)
    : list ForwardingStep :=
  fold_left (fun s e =>
               match e with
               | SetCurrentSteps s' => s'
               | UpdateStep stepId status det => updateStep now stepId status det s
               | FailActiveSteps msg => failActiveSteps msg s
               | _ => s
               end) t steps.

Definition anyStepInError (steps : list ForwardingStep) : bool :=
  existsb (fun s => StepStatus_eqb (step_status s) error) steps.

(** The connections [forwardWithMultisig] requires. *)
Definition connected (conn : Connection) : bool :=
  isConnected conn && tronLinkWeb conn && negb (String.eqb (approvingAddress conn) "").

(** The balance answers on which [!currentBalance] holds. *)
Definition noBalance (r : Rpc Z) : bool :=
  match r with
  | Resolved b => b =? 0
  | Rejected _ => true
  end.

(** The entry that closes a run whose passes all failed. *)
Definition exhaustedEntry : Effect :=
  AddLog ERROR [Lit "MULTISIG FORWARD FAILED after "; Num (Z.of_nat maxRetries);
                Lit " attempts"] None.

(** The trace of the passes [from], [from + 1], ..., [from + n - 1] when
    each of them fails, the [k]-th with the message [msgs k]. *)
Fixpoint failedPasses (cfg : ForwardingConfig) (conn : Connection)
    (receivedAmount : Z) (envs : nat -> AttemptEnv) (msgs : nat -> string)
    (from n : nat) : list Effect :=
  match n with
  | O => []
  | S m =>
      fst (attempt cfg conn receivedAmount (envs from) from)
      ++ catchBlock (S from) (msgs from)
      ++ failedPasses cfg conn receivedAmount envs msgs (S from) m
  end.

(** The message with which the pass after [k] failures throws, if it does. *)
Definition thrownMessage (cfg : ForwardingConfig) (conn : Connection)
    (receivedAmount : Z) (envs : nat -> AttemptEnv) (k : nat) : string :=
  match snd (attempt cfg conn receivedAmount (envs k) k) with
  | Thrown msg => msg
  | _ => ""
  end.

(** [signature.length], 0 when there is no signature. *)
Definition payloadLength (tx : Transaction) : Z :=
  match signature tx with
  | Some s => Z.of_nat (String.length s)
  | None => 0
  end.

(** ** Sample data *)

Definition sampleConfig : ForwardingConfig :=
  mkConfig "key" "TRecv" "TDest" (1 # 2) 500000 3000
    "https://api.shasta.trongrid.io" "".

Definition sampleConnection : Connection := mkConnection true true "TAppr".

Definition sampleAccount : AccountInfo :=
  mkAccount (Some [mkPermission 2 [mkKey "TAppr" 1; mkKey "TRecv" 1]]).

(** A permission of two keys that are neither the receiving nor the
    approving key. *)
Definition foreignAccount : AccountInfo :=
  mkAccount (Some [mkPermission 2 [mkKey "TOther1" 1; mkKey "TOther2" 1]]).

Definition payload130 : string :=
  "0000000000000000000000000000000000000000000000000000000000000000000000000000000000000000000000000000000000000000000000000000000000".

Definition sampleTx : Transaction := mkTx "abcdef0123456789" None.

Definition signedTx : Transaction := mkTx "abcdef0123456789" (Some payload130).

(** Every collaborator answers well; the balance is [balance] before and
    [balanceAfter] after. *)
Definition goodEnv (balance balanceAfter : Z) : AttemptEnv :=
  mkAttemptEnv (Resolved balance) (Resolved sampleTx) (Resolved (Some sampleAccount))
    (Resolved sampleTx) (Resolved (Some signedTx))
    (Resolved (mkBroadcast true "abcdef0123456789" None)) (Resolved balanceAfter).

(** As [goodEnv], but the network rejects the transaction. *)
Definition rejectingEnv (balance : Z) : AttemptEnv :=
  mkAttemptEnv (Resolved balance) (Resolved sampleTx) (Resolved (Some sampleAccount))
    (Resolved sampleTx) (Resolved (Some signedTx))
    (Resolved (mkBroadcast false "" (Some "SIGERROR"))) (Resolved balance).

(** As [goodEnv], but the external signer answers with the payload [sig]. *)
Definition signingEnv (sig : option string) : AttemptEnv :=
  mkAttemptEnv (Resolved 1500000) (Resolved sampleTx) (Resolved (Some sampleAccount))
    (Resolved sampleTx) (Resolved (Some (mkTx "abcdef0123456789" sig)))
    (Resolved (mkBroadcast true "abcdef0123456789" None)) (Resolved 400000).

(** The network rejects the first two passes and accepts the third. *)
Definition failTwiceEnvs (k : nat) : AttemptEnv :=
  if (k <? 2)%nat then rejectingEnv 1500000 else goodEnv 1500000 400000.

(** The account holds nothing whenever the run looks. *)
Definition emptyWalletEnvs (k : nat) : AttemptEnv := goodEnv 0 0.

(** The account holds less than the fee reserve. *)
Definition dustEnvs (k : nat) : AttemptEnv := goodEnv 300000 300000.

(** The hook once the signer is connected and the multisig verified. *)
Definition readyHook : Hook :=
  runEvents [SignerChanges sampleConnection; Verify (Resolved (Some sampleAccount))]
    (initialHook sampleConfig).

(** A first monitoring session that saw the balance 100, a stop, and a
    second start that sees 150. *)
Definition restartEvents : list Event :=
  [Start (Resolved 100); Stop; Start (Resolved 150)].

(** The hook after [restartEvents] and after the timer it set has fired:
    one forwarding run is active. *)
Definition oneRunActive : Hook := runEvents (restartEvents ++ [TimerFires]) readyHook.

(** ** The claims as the specification words them, where the code differs *)

(** At most one forwarding run is active, whatever happens to the hook. *)
Definition atMostOneActiveRun (h0 : Hook) : Prop :=
  forall evs : list Event, (List.length (h_running (runEvents evs h0)) <= 1)%nat.

(** [isConfigured] holds exactly when the threshold and the key count are
    at least 2 and both keys are in the key list. *)
Definition configuredIffKeysPresent : Prop :=
  forall (cfg : ForwardingConfig) (approving : string) (info : AccountInfo),
    let s := multisigStatusOf cfg approving info in
    isConfigured s = true <->
    (2 <= threshold s /\ 2 <= keyCount s
     /\ hasReceivingKey s = true /\ hasApprovingKey s = true).

(** A run that finds nothing to forward logs a warning, marks no step as
    an error and makes one pass only. *)
Definition nothingToForwardMarksNoError : Prop :=
  forall (cfg : ForwardingConfig) (conn : Connection) (receivedAmount b now : Z)
         (envs : nat -> AttemptEnv),
    connected conn = true ->
    on_getBalance (envs 0%nat) = Resolved b ->
    b <> 0 ->
    forwardAmountOf cfg receivedAmount b <= 0 ->
    let t := fst (forwardWithMultisig (Some cfg) conn receivedAmount envs) in
    In WARNING (levelsLogged t)
    /\ anyStepInError (stepsAfter now t []) = false
    /\ attemptsStarted t = 1%nat.

(** The first observation after every start of the monitor sets no timer
    for a forwarding run. *)
Definition firstObservationNeverForwards (h0 : Hook) : Prop :=
  forall (evs : list Event) (balanceInSun : Rpc Z),
    h_timers (step (runEvents evs h0) (Start balanceInSun))
    = h_timers (runEvents evs h0).

(** An observation equal to the one that was just detected as an increase
    sets no further timer. *)
Definition sameDeltaCountedOnce (h0 : Hook) : Prop :=
  forall (evs : list Event) (b : Z),
    let h := runEvents evs h0 in
    let h1 := step h (Tick (Resolved b)) in
    h_timers h1 <> h_timers h ->
    h_timers (step h1 (Tick (Resolved b))) = h_timers h1.

(** ** The rest of the hook and its users *)

(** *** Initialisation ([initTronWeb]) *)

Section Init.

(** The two functions of the ledger library that [initTronWeb] consults. *)
Variable isAddress : string -> bool.          (* [tronWeb.isAddress] *)
Variable fromPrivateKey : string -> string.   (* [tronWeb.address.fromPrivateKey] *)

(** [initTronWeb] for the configuration read from the environment:
    [constructed] is [Some msg] when [new TronWeb(...)] throws [msg], and
    [balanceInSun] answers the first balance query.  Yields the new
    [tronWebRef.current] and the effects. *)
Definition initTronWeb (config : ForwardingConfig) (constructed : option string)
    (balanceInSun : Rpc Z) : option ForwardingConfig * list Effect :=
  if String.eqb (receivingPrivateKey config) ""
     || String.eqb (receivingAddress config) ""
  then (None,
        [AddLog ERROR
           [Lit "Missing configuration: Please check your environment variables"]
           None])
  else
    let failed (msg : string) : option ForwardingConfig * list Effect :=
      (None, [AddLog ERROR [Lit "Failed to initialize TronWeb"]
                (Some [("error", [Lit msg])])]) in
    match constructed with
    | Some msg => failed msg
    | None =>
        if negb (isAddress (receivingAddress config))
        then failed ("Invalid receiving address: " ++ receivingAddress config)%string
        else if negb (isAddress (destinationAddress config))
        then failed ("Invalid destination address: "
                     ++ destinationAddress config)%string
        else if negb (String.eqb (fromPrivateKey (receivingPrivateKey config))
                        (receivingAddress config))
        then failed "Receiving wallet private key does not match address"
        else
          (Some config,
           AddLog SUCCESS [Lit "TronWeb initialized successfully"]
             (Some [("network",
                     [Lit (if includes "shasta" (tronFullHost config)
                           then "Shasta Testnet" else "Mainnet")]);
                    ("receivingAddress", [Lit (receivingAddress config)]);
                    ("destinationAddress", [Lit (destinationAddress config)]);
                    ("feeReserve", [Ratio (feeReserve config); Lit " TRX"])])
           :: fst (updateReceivingBalance (Some config) balanceInSun))
    end.

End Init.

(** *** The control panel ([ControlPanel]) *)

(** [canStart]: [config] is what the hook returns for
    [tronWebRef.current?.config]. *)
Definition canStart (isConnected : bool) (config : option ForwardingConfig)
    (multisigStatus : MultisigStatus) : bool :=
  isConnected
  && (match config with Some _ => true | None => false end)
  && isConfigured multisigStatus.

Definition getWarnings (isConnected : bool) (config : option ForwardingConfig)
    (multisigStatus : MultisigStatus) : list string :=
  (match config with
   | Some _ => []
   | None => ["Environment configuration missing"]
   end)
  ++ (if isConnected then [] else ["TronLink wallet not connected"])
  ++ (if isConfigured multisigStatus then []
      else ["2-of-2 multisig not configured on receiving wallet"]).

(** *** The expanded entries of the log view ([toggleLogExpansion]) *)

(** A [Set<string>], in insertion order. *)
Definition setHas (x : string) (s : list string) : bool :=
  existsb (String.eqb x) s.

Definition setDelete (x : string) (s : list string) : list string :=
  filter (fun y => negb (String.eqb x y)) s.

Definition setAdd (x : string) (s : list string) : list string :=
  if setHas x s then s else s ++ [x].

Definition toggleLogExpansion (logId : string) (expandedLogs : list string)
    : list string :=
  if setHas logId expandedLogs
  then setDelete logId expandedLogs
  else setAdd logId expandedLogs.

(** *** Further observations *)

(** The requests a trace sends to the external signer. *)
Definition signCalls (t : list Effect) : list Transaction :=
  flat_map (fun e => match e with
                     | Call (SignTransaction tx) => [tx]
                     | _ => []
                     end) t.

(** The key indices with which a trace asks for the local signature. *)
Definition multiSignIndices (t : list Effect) : list nat :=
  flat_map (fun e => match e with
                     | Call (MultiSign _ _ permissionId) => [permissionId]
                     | _ => []
                     end) t.

(** The values a trace writes to the previous balance, in order. *)
Definition lastBalanceWrites (t : list Effect) : list (option Z) :=
  flat_map (fun e => match e with
                     | SetLastBalance b => [b]
                     | _ => []
                     end) t.

(** The values a trace writes to the heartbeat counter, in order. *)
Definition heartbeatWrites (t : list Effect) : list nat :=
  flat_map (fun e => match e with
                     | SetHeartbeat n => [n]
                     | _ => []
                     end) t.

(** The statuses a trace writes to the multisig status, in order. *)
Definition multisigStatusWrites (t : list Effect) : list MultisigStatus :=
  flat_map (fun e => match e with
                     | SetMultisigStatus st => [st]
                     | _ => []
                     end) t.

(** All ledger and signer calls of a trace, in order. *)
Definition callsOf (t : list Effect) : list LedgerCall :=
  flat_map (fun e => match e with
                     | Call c => [c]
                     | _ => []
                     end) t.

(** The step lists with which a trace replaces the step list. *)
Definition stepResets (t : list Effect) : list (list ForwardingStep) :=
  flat_map (fun e => match e with
                     | SetCurrentSteps steps => [steps]
                     | _ => []
                     end) t.

Definition anyStepActive (steps : list ForwardingStep) : bool :=
  existsb (fun s => StepStatus_eqb (step_status s) active) steps.

(** The ids of the seven steps, in order. *)
Definition stepIds : list string := map step_id createForwardingSteps.

(** The guards of [startMonitoring] on the state the render has read. *)
Definition startAllowed (h : Hook) : bool :=
  (match h_tronWebRef h with Some _ => true | None => false end)
  && isConnected (h_connection h)
  && negb (String.eqb (approvingAddress (h_connection h)) "")
  && isConfigured (h_multisigStatus h).

(** The interval fires once for each answer of [answers]. *)
Definition ticks (answers : list (Rpc Z)) : list Event := map Tick answers.

(** The amount shown under [key] in the details of an entry. *)
Fixpoint detailSun (key : string) (det : Details) : option Z :=
  match det with
  | [] => None
  | (k, [Sun amount; Lit _]) :: rest =>
      if String.eqb k key then Some amount else detailSun key rest
  | _ :: rest => detailSun key rest
  end.

(** What the closing success entry of a pass reports: the amount
    forwarded, the transaction fee and the balance after. *)
Definition completionReport (e : Effect) : list (Z * Z * Z) :=
  match e with
  | AddLog SUCCESS [Lit m] (Some det) =>
      if String.eqb m "MULTISIG FORWARD COMPLETED SUCCESSFULLY!"
      then match detailSun "Amount Forwarded" det, detailSun "Transaction Fee" det,
                 detailSun "Balance After" det with
           | Some forwarded, Some fee, Some after => [(forwarded, fee, after)]
           | _, _, _ => []
           end
      else []
  | _ => []
  end.

Definition completionReports (t : list Effect) : list (Z * Z * Z) :=
  flat_map completionReport t.

(** The timers a monitoring session sets when its interval's callback
    holds the previous balance [seen] and the polls are answered by
    [answers]. *)
Definition sessionTimers (conn : Connection) (seen : option Z)
    (answers : list (Rpc Z)) : list Pending :=
  flat_map (fun a => match seen, a with
                     | Some l, Resolved b =>
                         if l <? b then [mkPending (b - l) conn] else []
                     | _, _ => []
                     end) answers.

(** The answers among [answers] that carry a balance. *)
Definition answered (answers : list (Rpc Z)) : nat :=
  List.length (filter (fun r => match r with
                                | Resolved _ => true
                                | Rejected _ => false
                                end) answers).

(** Whether a broadcast answer is an acceptance. *)
Definition accepted (r : Rpc BroadcastResult) : bool :=
  match r with
  | Resolved res => result res
  | Rejected _ => false
  end.

(** A hook that monitors, with the previous balance 100 in the interval's
    callback and the heartbeat counter at 19. *)
Definition monitoringHook : Hook :=
  set_heartbeatCountRef 19%nat (runEvents restartEvents readyHook).

(** *** The retry policy *)

(** Where the [try] block of a pass throws. *)
Inductive Failure : Type :=
  | AtBalance        (* the balance read before the create step: rejected, or 0 *)
  | AtCreate         (* building the transaction *)
  | AtSignLocal      (* the account query or the local signature *)
  | AtSignExternal   (* the external signer: rejected, no answer, short payload *)
  | AtValidate       (* fewer than 2 signatures *)
  | AtBroadcast.     (* the submission: rejected, or not accepted *)

(** The failure to which the answers [env] lead a pass, if any: the tests
    of the [try] block, in their order.  The balance query of the confirm
    step is not among them. *)
Definition failureOf (cfg : ForwardingConfig) (receivedAmount : Z) (env : AttemptEnv)
    : option Failure :=
  match on_getBalance env with
  | Rejected _ => Some AtBalance
  | Resolved currentBalance =>
      if currentBalance =? 0 then Some AtBalance
      else if forwardAmountOf cfg receivedAmount currentBalance <=? 0 then None
      else
        match on_sendTrx env with
        | Rejected _ => Some AtCreate
        | Resolved _ =>
            match on_getAccount env with
            | Rejected _ => Some AtSignLocal
            | Resolved _ =>
                match on_multiSign env with
                | Rejected _ => Some AtSignLocal
                | Resolved _ =>
                    match on_signTransaction env with
                    | Rejected _ => Some AtSignExternal
                    | Resolved None => Some AtSignExternal
                    | Resolved (Some fullySigned) =>
                        if negb (signatureFormatOk fullySigned) then Some AtSignExternal
                        else if negb (hasRequiredSignatures fullySigned)
                        then Some AtValidate
                        else
                          match on_sendRawTransaction env with
                          | Rejected _ => Some AtBroadcast
                          | Resolved res =>
                              if result res then None else Some AtBroadcast
                          end
                    end
                end
            end
        end
  end.

(** The step that is active when a pass throws; none is at the balance
    read. *)
Definition failedStepId (f : Failure) : option string :=
  match f with
  | AtBalance => None
  | AtCreate => Some "create"
  | AtSignLocal => Some "sign1"
  | AtSignExternal => Some "sign2"
  | AtValidate => Some "validate"
  | AtBroadcast => Some "broadcast"
  end.

Definition stepInError (stepId : string) (steps : list ForwardingStep) : bool :=
  existsb (fun s => String.eqb (step_id s) stepId
                    && StepStatus_eqb (step_status s) error) steps.

(** Whether the step of the failure [f], if it has one, is in error. *)
Definition failureMarked (f : Failure) (steps : list ForwardingStep) : bool :=
  match failedStepId f with
  | Some stepId => stepInError stepId steps
  | None => true
  end.

Definition allStepsCompleted (steps : list ForwardingStep) : bool :=
  forallb (fun s => StepStatus_eqb (step_status s) completed) steps.

(** Every collaborator answers well until the broadcast is accepted; the
    balance query of the confirm step fails. *)
Definition unconfirmedEnvs (k : nat) : AttemptEnv :=
  mkAttemptEnv (Resolved 1500000) (Resolved sampleTx) (Resolved (Some sampleAccount))
    (Resolved sampleTx) (Resolved (Some signedTx))
    (Resolved (mkBroadcast true "abcdef0123456789" None)) (Rejected "timeout").

(** The retry policy as the specification words it.  A run that gave up
    ends in the error state: some step is marked as an error. *)
Definition exhaustedRunEndsInErrorState : Prop :=
  forall (cfg : ForwardingConfig) (conn : Connection) (receivedAmount now : Z)
         (envs : nat -> AttemptEnv),
    connected conn = true ->
    let run := forwardWithMultisig (Some cfg) conn receivedAmount envs in
    snd run = RNull ->
    anyStepInError (stepsAfter now (fst run) []) = true.

(** Any step failure is retried: a run ends with the broadcast result only
    when every step of its last pass completed. *)
Definition everyStepFailureIsRetried : Prop :=
  forall (cfg : ForwardingConfig) (conn : Connection) (receivedAmount now : Z)
         (envs : nat -> AttemptEnv) (answer : BroadcastResult),
    connected conn = true ->
    let run := forwardWithMultisig (Some cfg) conn receivedAmount envs in
    snd run = RResult answer ->
    allStepsCompleted (stepsAfter now (fst run) []) = true.

(** *** The order of the calls *)

(** The calls of a pass that nothing stops, each with the arguments that
    the answers before it determine; the sequence ends where an answer is
    missing. *)
Definition callPlan (cfg : ForwardingConfig) (receivedAmount : Z) (env : AttemptEnv)
    : list LedgerCall :=
  GetBalance (receivingAddress cfg)
  :: match on_getBalance env with
     | Rejected _ => []
     | Resolved currentBalance =>
         SendTrx (destinationAddress cfg)
           (forwardAmountOf cfg receivedAmount currentBalance) (receivingAddress cfg)
         :: match on_sendTrx env with
            | Rejected _ => []
            | Resolved transaction =>
                GetAccount (receivingAddress cfg)
                :: match on_getAccount env with
                   | Rejected _ => []
                   | Resolved accountInfo =>
                       MultiSign transaction (receivingPrivateKey cfg)
                         (receivingKeyIndexOf cfg accountInfo)
                       :: match on_multiSign env with
                          | Rejected _ => []
                          | Resolved firstSigned =>
                              SignTransaction firstSigned
                              :: match on_signTransaction env with
                                 | Resolved (Some fullySigned) =>
                                     [SendRawTransaction fullySigned;
                                      GetBalance (receivingAddress cfg)]
                                 | _ => []
                                 end
                          end
                   end
            end
     end.

(** *** Polls in flight

    [monitorBalance] suspends at its balance query, and other callbacks
    run until the ledger answers.  A session is the hook together with the
    calls of [monitorBalance] that wait for their answer, each with the
    closure it runs in. *)
Record Session : Type := mkSession {
  s_hook : Hook;
  s_polls : list Closure   (* oldest first *)
}.

Inductive SessionEvent : Type :=
  | Happens (ev : Event)     (* an event of the hook *)
  | PollStarts               (* the interval fires: its callback asks for the balance *)
  | PollAnswers (i : nat) (balanceInSun : Rpc Z).   (* the [i]-th waiting call resumes *)

Definition sessionStep (s : Session) (ev : SessionEvent) : Session :=
  match ev with
  | Happens ev => mkSession (step (s_hook s) ev) (s_polls s)
  | PollStarts =>
      match h_intervalRef (s_hook s) with
      | Some cl => mkSession (s_hook s) (s_polls s ++ [cl])
      | None => s
      end
  | PollAnswers i balanceInSun =>
      match nth_error (s_polls s) i with
      | Some cl =>
          mkSession (runMonitor cl balanceInSun (s_hook s)) (dropNth i (s_polls s))
      | None => s
      end
  end.

Definition runSession (evs : list SessionEvent) (s : Session) : Session :=
  fold_left sessionStep evs s.

(** The session of [restartEvents] once its interval has fired: one call
    of [monitorBalance], whose closure holds the previous balance 100, waits
    for the ledger. *)
Definition pollingSession : Session :=
  runSession [PollStarts] (mkSession (runEvents restartEvents readyHook) []).

(** * Properties *)

(** ** The activity log *)

Lemma pushLog_cons (e : LogEntry) (prev : list LogEntry) :
  pushLog e prev = e :: firstn 99 prev.
Proof. reflexivity. Qed.

Lemma pushLog_length (e : LogEntry) (prev : list LogEntry) :
  (List.length (pushLog e prev) <= 100)%nat.
Proof. unfold pushLog. apply firstn_le_length. Qed.

Lemma pushLog_firstn (e : LogEntry) (l : list LogEntry) :
  pushLog e (firstn 100 l) = firstn 100 (e :: l).
Proof.
  rewrite !pushLog_cons. change (firstn 100 (e :: l)) with (e :: firstn 99 l).
  f_equal. rewrite firstn_firstn. reflexivity.
Qed.

Lemma appendAll_firstn (es start : list LogEntry) :
  appendAll es (firstn 100 start) = firstn 100 (rev es ++ start).
Proof.
  revert start. induction es as [|e es IH]; intros start.
  - reflexivity.
  - unfold appendAll in *. cbn [fold_left]. rewrite pushLog_firstn.
    rewrite IH. cbn [rev]. rewrite <- app_assoc. reflexivity.
Qed.

(** C8. After every append the log holds at most 100 entries; the new
    entry is at its head, followed by the previous entries in their order;
    the entries that leave are a suffix of the previous log, that is, the
    oldest ones; and after any sequence of appends the log is the most
    recent 100 entries, most recent first. *)
Theorem C8_log_capped_most_recent_first :
  forall (now : Z) (lv : LogLevel) (msg : Text) (det : option Details)
         (prev es : list LogEntry),
    let e := mkLogEntry now now lv msg det in
    (List.length (addLog now lv msg det prev) <= 100)%nat
    /\ addLog now lv msg det prev = e :: firstn 99 prev
    /\ e :: prev = addLog now lv msg det prev ++ skipn 99 prev
    /\ appendAll es [] = firstn 100 (rev es).
Proof.
  intros now lv msg det prev es e. unfold addLog. fold e.
  split; [|split; [|split]].
  - apply pushLog_length.
  - apply pushLog_cons.
  - rewrite pushLog_cons, <- app_comm_cons, firstn_skipn. reflexivity.
  - change (@nil LogEntry) with (firstn 100 (@nil LogEntry)) at 1.
    rewrite appendAll_firstn, app_nil_r. reflexivity.
Qed.

(** Every event keeps the log of the hook within the cap. *)
Lemma applyEffect_logs_capped (conn : Connection) (h : Hook) (e : Effect) :
  (List.length (h_logs h) <= 100)%nat ->
  (List.length (h_logs (applyEffect conn h e)) <= 100)%nat.
Proof.
  intros H. destruct e; first [exact H | exact (pushLog_length _ _)].
Qed.

Lemma applyEffects_logs_capped (conn : Connection) (t : list Effect) (h : Hook) :
  (List.length (h_logs h) <= 100)%nat ->
  (List.length (h_logs (applyEffects conn t h)) <= 100)%nat.
Proof.
  revert h. induction t as [|e t IH]; intros h H.
  - exact H.
  - apply (IH (applyEffect conn h e)). apply applyEffect_logs_capped. exact H.
Qed.

Lemma logNow_logs_capped (lv : LogLevel) (msg : Text) (det : option Details) (h : Hook) :
  (List.length (h_logs (logNow lv msg det h)) <= 100)%nat.
Proof. exact (pushLog_length _ _). Qed.

Lemma step_logs_capped (h : Hook) (ev : Event) :
  (List.length (h_logs h) <= 100)%nat ->
  (List.length (h_logs (step h ev)) <= 100)%nat.
Proof.
  intros H. destruct ev; cbn [step].
  - exact H.
  - apply applyEffects_logs_capped. exact H.
  - unfold startMonitoring.
    destruct (h_tronWebRef h) as [cfg|]; [|apply logNow_logs_capped].
    destruct (_ || _); [apply logNow_logs_capped|].
    destruct (negb _); [apply logNow_logs_capped|].
    unfold runMonitor. apply applyEffects_logs_capped. apply logNow_logs_capped.
  - apply logNow_logs_capped.
  - destruct (h_intervalRef h); [|exact H].
    unfold runMonitor. apply applyEffects_logs_capped. exact H.
  - destruct (h_timers h); exact H.
  - destruct (nth_error _ _); [|exact H].
    apply applyEffects_logs_capped. exact H.
  - exact H.
Qed.

Lemma runEvents_logs_capped (evs : list Event) (h : Hook) :
  (List.length (h_logs h) <= 100)%nat ->
  (List.length (h_logs (runEvents evs h)) <= 100)%nat.
Proof.
  revert h. induction evs as [|ev evs IH]; intros h H.
  - exact H.
  - apply (IH (step h ev)). apply step_logs_capped. exact H.
Qed.

(** ** The multisig verifier *)

Lemma hasKey_spec (a : string) (keys : list Key) :
  hasKey a keys = true <-> exists k, In k keys /\ key_address k = a.
Proof.
  unfold hasKey. rewrite existsb_exists. split; intros [k [Hin Hk]]; exists k; split; auto.
  - apply String.eqb_eq. assumption.
  - apply String.eqb_eq. assumption.
Qed.

(** C2, as amended. [isConfigured] holds exactly when the threshold and the
    key count of the first active permission are both at least 2; the two
    key flags report whether the receiving and the approving key are in the
    key list and do not enter [isConfigured]. *)
Theorem C2_isConfigured_threshold_and_count :
  forall (cfg : ForwardingConfig) (approving : string) (info : AccountInfo),
    let s := multisigStatusOf cfg approving info in
    (isConfigured s = true <-> (2 <= threshold s /\ 2 <= keyCount s))
    /\ match active_permission info with
       | Some (p :: _) =>
           threshold s = perm_threshold p
           /\ keyCount s = Z.of_nat (List.length (perm_keys p))
           /\ hasReceivingKey s = hasKey (receivingAddress cfg) (perm_keys p)
           /\ hasApprovingKey s = hasKey approving (perm_keys p)
       | _ => s = mkMultisigStatus false 0 0 false false
       end.
Proof.
  intros cfg approving info s. subst s. unfold multisigStatusOf.
  destruct (active_permission info) as [[|p rest]|]; cbn.
  - split; [split; [discriminate | lia] | reflexivity].
  - split; [rewrite andb_true_iff; lia | repeat split].
  - split; [split; [discriminate | lia] | reflexivity].
Qed.

(** C2, as worded, fails: a permission of threshold 2 with two foreign keys
    is reported as configured although neither key is present. *)
Lemma C2_counterexample_foreign_keys : ~ configuredIffKeysPresent.
Proof.
  intros H.
  destruct (H sampleConfig "TAppr" foreignAccount) as [H1 _].
  destruct (H1 eq_refl) as (_ & _ & Hrecv & _).
  vm_compute in Hrecv. discriminate.
Qed.


(** ** The forwarding pipeline *)

Lemma forwardLoop_step cfg conn amt envs n :
  forwardLoop cfg conn amt envs n =
  if (n <? maxRetries)%nat then
    match attempt cfg conn amt (envs n) n with
    | (t, Returned r) => (t, r)
    | (t, Thrown msg) =>
        (t ++ catchBlock (S n) msg ++ fst (forwardLoop cfg conn amt envs (S n)),
         snd (forwardLoop cfg conn amt envs (S n)))
    | (t, Next a) => match a with end
    end
  else ([exhaustedEntry], RNull).
Proof.
  rewrite forwardLoop_equation_1. unfold forwardLoop_unfold_clause_1.
  destruct (lt_dec n maxRetries) as [H|H].
  - apply Nat.ltb_lt in H as Hb. rewrite Hb.
    destruct (attempt cfg conn amt (envs n) n) as [t [[]|r|msg]]; reflexivity.
  - apply Nat.ltb_nlt in H as Hb. rewrite Hb. reflexivity.
Qed.

(** Case analysis along one pass: every answer of a collaborator and every
    test of the body. *)
Ltac open_attempt env :=
  unfold attempt, detectStep, amountStep, createStep, signLocalStep,
    signExternalStep, validateStep, broadcastStep, confirmStep;
  destruct env as [bal tx acc ms sg br bal2];
  cbn [on_getBalance on_sendTrx on_getAccount on_multiSign on_signTransaction
       on_sendRawTransaction on_getBalanceAfter].

Ltac walk_attempt :=
  match goal with
  | bal : Rpc Z, tx : Rpc Transaction, acc : Rpc (option AccountInfo),
    ms : Rpc Transaction, sg : Rpc (option Transaction),
    br : Rpc BroadcastResult, bal2 : Rpc Z |- _ =>
    destruct bal as [b|?]; cbn;
    [ destruct (Z.eqb_spec b 0); cbn;
      [ | match goal with
          | |- context [if ?c <=? 0 then _ else _] => destruct (Z.leb_spec c 0)
          end; cbn;
          [ | destruct tx; cbn;
              [ destruct acc; cbn;
                [ destruct ms; cbn;
                  [ destruct sg as [[fs|]|]; cbn;
                    [ destruct (signatureFormatOk fs) eqn:?; cbn;
                      [ destruct (hasRequiredSignatures fs) eqn:?; cbn;
                        [ destruct br as [res|]; cbn;
                          [ destruct (result res) eqn:?; cbn;
                            [ destruct bal2; cbn | ]
                          | ]
                        | ]
                      | ]
                    | | ]
                  | ]
                | ]
              | ] ] ]
    | ]
  end.

Lemma attempt_started cfg conn amt env k :
  attemptsStarted (fst (attempt cfg conn amt env k)) = 1%nat
  /\ failuresLogged (fst (attempt cfg conn amt env k)) = [].
Proof.
  open_attempt env. walk_attempt; split; reflexivity.
Qed.

Lemma attempt_thrown_no_delay cfg conn amt env k msg :
  snd (attempt cfg conn amt env k) = Thrown msg ->
  delays (fst (attempt cfg conn amt env k)) = [].
Proof.
  open_attempt env. walk_attempt; intros Hthrown; try reflexivity; discriminate Hthrown.
Qed.

Lemma attempt_from_create cfg conn amt env k :
  exists rest,
    fst (attempt cfg conn amt env k)
    = fst (detectStep amt k) ++ Call (GetBalance (receivingAddress cfg)) :: rest.
Proof.
  open_attempt env. walk_attempt; eexists; reflexivity.
Qed.

Lemma attempt_sendTrxCalls cfg conn amt env k :
  sendTrxCalls (fst (attempt cfg conn amt env k)) =
  match on_getBalance env with
  | Resolved b =>
      if negb (b =? 0) && (0 <? forwardAmountOf cfg amt b)
      then [(destinationAddress cfg, forwardAmountOf cfg amt b, receivingAddress cfg)]
      else []
  | Rejected _ => []
  end.
Proof.
  unfold forwardAmountOf. open_attempt env.
  walk_attempt;
    repeat match goal with
           | |- context [?x =? 0] => destruct (Z.eqb_spec x 0); [try lia|]; cbn
           | |- context [0 <? ?x] => destruct (Z.ltb_spec 0 x); [|try lia]; cbn
           end; try reflexivity; try lia.
Qed.

Section Run.

Variable cfg : ForwardingConfig.
Variable conn : Connection.
Variable receivedAmount : Z.
Variable envs : nat -> AttemptEnv.

Local Abbreviation pass := (fun k : nat => attempt cfg conn receivedAmount (envs k) k).
Local Abbreviation msgs := (thrownMessage cfg conn receivedAmount envs).
Local Abbreviation failed := (failedPasses cfg conn receivedAmount envs msgs).

(** The loop, entered after [n] failures, goes through [m] further failing
    passes and then either exhausts the attempts or ends with the pass that
    returns. *)
Lemma forwardLoop_shape (d n : nat) :
  (n + d = maxRetries)%nat ->
  exists m : nat,
    (m <= d)%nat
    /\ (forall k, (n <= k < n + m)%nat -> snd (pass k) = Thrown (msgs k))
    /\ ((m = d
         /\ forwardLoop cfg conn receivedAmount envs n
            = (failed n m ++ [exhaustedEntry], RNull))
        \/ (m < d /\ exists r,
              snd (pass (n + m)%nat) = Returned r
              /\ forwardLoop cfg conn receivedAmount envs n
                 = (failed n m ++ fst (pass (n + m)%nat), r)))%nat.
Proof.
  revert n. induction d as [|d IH]; intros n Hn.
  - exists 0%nat. split; [lia|]. split; [intros k Hk; lia|].
    left. split; [reflexivity|].
    rewrite forwardLoop_step.
    destruct (Nat.ltb_spec n maxRetries) as [H|H]; [lia|]. reflexivity.
  - rewrite forwardLoop_step.
    destruct (Nat.ltb_spec n maxRetries) as [H|H]; [|lia].
    destruct (attempt cfg conn receivedAmount (envs n) n) as [t c] eqn:Hpass.
    destruct c as [[]|r|msg].
    + exists 0%nat. split; [lia|]. split; [intros k Hk; lia|].
      right. split; [lia|]. exists r. rewrite Nat.add_0_r. cbn beta.
      rewrite Hpass. split; reflexivity.
    + destruct (IH (S n)) as (m & Hm & Hthrown & Hshape); [lia|].
      assert (Hmsg : msgs n = msg).
      { unfold thrownMessage. rewrite Hpass. reflexivity. }
      exists (S m). split; [lia|]. split.
      * intros k Hk. destruct (Nat.eq_dec k n) as [->|Hne].
        -- cbn beta. rewrite Hpass, Hmsg. reflexivity.
        -- apply Hthrown. lia.
      * destruct Hshape as [[-> Heq]|(Hlt & r & Hr & Heq)].
        -- left. split; [reflexivity|]. rewrite Heq. cbn [fst snd].
           cbn [failedPasses]. rewrite Hpass, Hmsg. cbn [fst].
           rewrite <- !app_assoc. reflexivity.
        -- right. split; [lia|]. exists r.
           replace (n + S m)%nat with (S n + m)%nat by lia.
           split; [exact Hr|]. rewrite Heq. cbn [fst snd].
           cbn [failedPasses]. rewrite Hpass, Hmsg. cbn [fst].
           rewrite <- !app_assoc. reflexivity.
Qed.

Lemma catchBlock_observed (k : nat) (msg : string) :
  sendTrxCalls (catchBlock k msg) = []
  /\ attemptsStarted (catchBlock k msg) = 0%nat
  /\ failuresLogged (catchBlock k msg) = [Z.of_nat k]
  /\ delays (catchBlock k msg) = (if (k <? maxRetries)%nat then [retryDelay] else [])
  /\ countLevel WARNING (catchBlock k msg) = 0%nat.
Proof.
  unfold catchBlock. destruct (k <? maxRetries)%nat; repeat split; reflexivity.
Qed.

Lemma attemptsStarted_app (a b : list Effect) :
  attemptsStarted (a ++ b) = (attemptsStarted a + attemptsStarted b)%nat.
Proof. unfold attemptsStarted. rewrite filter_app, length_app. reflexivity. Qed.

Lemma countLevel_app (lv : LogLevel) (a b : list Effect) :
  countLevel lv (a ++ b) = (countLevel lv a + countLevel lv b)%nat.
Proof.
  unfold countLevel, levelsLogged, logged.
  rewrite flat_map_app, map_app, filter_app, length_app. reflexivity.
Qed.

Lemma failed_attemptsStarted (n m : nat) :
  attemptsStarted (failed n m) = m.
Proof.
  revert n. induction m as [|m IH]; intros n; [reflexivity|].
  cbn [failedPasses]. rewrite !attemptsStarted_app, IH.
  destruct (attempt_started cfg conn receivedAmount (envs n) n) as [-> _].
  destruct (catchBlock_observed (S n) (msgs n)) as (_ & -> & _). reflexivity.
Qed.

Lemma failed_failuresLogged (n m : nat) :
  failuresLogged (failed n m) = map Z.of_nat (seq (S n) m).
Proof.
  revert n. induction m as [|m IH]; intros n; [reflexivity|].
  unfold failuresLogged in *. cbn [failedPasses seq map].
  rewrite !flat_map_app, IH.
  destruct (attempt_started cfg conn receivedAmount (envs n) n) as [_ H].
  unfold failuresLogged in H. rewrite H.
  destruct (catchBlock_observed (S n) (msgs n)) as (_ & _ & H' & _).
  unfold failuresLogged in H'. rewrite H'. reflexivity.
Qed.

Lemma failed_delays (n m : nat) :
  (forall k, (n <= k < n + m)%nat -> snd (pass k) = Thrown (msgs k)) ->
  delays (failed n m)
  = flat_map (fun k => if (k <? maxRetries)%nat then [retryDelay] else [])
      (seq (S n) m).
Proof.
  revert n. induction m as [|m IH]; intros n Hthrown; [reflexivity|].
  unfold delays in *. cbn [failedPasses seq flat_map].
  rewrite !flat_map_app, IH by (intros k Hk; apply Hthrown; lia).
  pose proof (@attempt_thrown_no_delay cfg conn receivedAmount (envs n) n (msgs n)) as H.
  unfold delays in H. rewrite H by (apply Hthrown; lia).
  destruct (catchBlock_observed (S n) (msgs n)) as (_ & _ & _ & H' & _).
  unfold delays in H'. rewrite H'. reflexivity.
Qed.

End Run.

(** The shape of every run that passes the connection check: [m] failing
    passes, then the returning pass or the closing entry. *)
Lemma forward_run_shape :
  forall (cfg : ForwardingConfig) (conn : Connection) (receivedAmount : Z)
         (envs : nat -> AttemptEnv),
    connected conn = true ->
    let run := forwardWithMultisig (Some cfg) conn receivedAmount envs in
    let pass := fun k => attempt cfg conn receivedAmount (envs k) k in
    let msgs := thrownMessage cfg conn receivedAmount envs in
    exists m : nat,
      (m <= maxRetries)%nat
      /\ (forall k, (k < m)%nat -> snd (pass k) = Thrown (msgs k))
      /\ fst run
         = SetCurrentSteps createForwardingSteps
           :: failedPasses cfg conn receivedAmount envs msgs 0 m
           ++ (if (m <? maxRetries)%nat then fst (pass m) else [exhaustedEntry])
      /\ snd run
         = (if (m <? maxRetries)%nat
            then match snd (pass m) with Returned r => r | _ => RNull end
            else RNull)
      /\ (if (m <? maxRetries)%nat
          then exists r, snd (pass m) = Returned r
          else True).
Proof.
  intros cfg conn receivedAmount envs Hconn run pass msgs.
  subst pass msgs. cbn beta.
  destruct (@forwardLoop_shape cfg conn receivedAmount envs maxRetries 0 eq_refl)
    as (m & Hm & Hthrown & Hshape).
  exists m. split; [exact Hm|]. split; [intros k Hk; apply Hthrown; lia|].
  assert (Hrun : run = (SetCurrentSteps createForwardingSteps
                          :: fst (forwardLoop cfg conn receivedAmount envs 0),
                        snd (forwardLoop cfg conn receivedAmount envs 0))).
  { unfold run, forwardWithMultisig. unfold connected in Hconn. rewrite Hconn.
    reflexivity. }
  destruct Hshape as [[-> Heq]|(Hlt & r & Hr & Heq)].
  - rewrite Hrun, Heq. cbn [fst snd Nat.ltb Nat.leb maxRetries].
    repeat split.
  - cbn [Nat.add] in Hr, Heq. apply Nat.ltb_lt in Hlt as Hb.
    rewrite Hrun, Heq, Hb. cbn [fst snd]. rewrite Hr.
    repeat split. exists r. reflexivity.
Qed.

Lemma run_attemptsStarted cfg conn amt envs steps (m : nat) (t : list Effect) :
  attemptsStarted
    (SetCurrentSteps steps
     :: failedPasses cfg conn amt envs (thrownMessage cfg conn amt envs) 0 m ++ t)
  = (m + attemptsStarted t)%nat.
Proof.
  change (SetCurrentSteps steps :: ?l) with ([SetCurrentSteps steps] ++ l).
  rewrite !attemptsStarted_app, failed_attemptsStarted. reflexivity.
Qed.

Lemma run_failuresLogged cfg conn amt envs steps (m : nat) (t : list Effect) :
  failuresLogged
    (SetCurrentSteps steps
     :: failedPasses cfg conn amt envs (thrownMessage cfg conn amt envs) 0 m ++ t)
  = map Z.of_nat (seq 1 m) ++ failuresLogged t.
Proof.
  change (SetCurrentSteps steps :: ?l) with ([SetCurrentSteps steps] ++ l).
  unfold failuresLogged. rewrite !flat_map_app.
  fold (failuresLogged
          (failedPasses cfg conn amt envs (thrownMessage cfg conn amt envs) 0 m)).
  rewrite failed_failuresLogged. reflexivity.
Qed.

Lemma sendTrxCalls_app (a b : list Effect) :
  sendTrxCalls (a ++ b) = sendTrxCalls a ++ sendTrxCalls b.
Proof. apply flat_map_app. Qed.

(** What every transaction built by a run satisfies. *)
Lemma forwardLoop_sendTrxCalls cfg conn amt envs (d n : nat) :
  (n + d = maxRetries)%nat ->
  Forall (fun c =>
            exists (k : nat) (b : Z),
              (k < maxRetries)%nat
              /\ on_getBalance (envs k) = Resolved b
              /\ 0 < forwardAmountOf cfg amt b
              /\ c = (destinationAddress cfg, forwardAmountOf cfg amt b,
                      receivingAddress cfg))
    (sendTrxCalls (fst (forwardLoop cfg conn amt envs n))).
Proof.
  revert n. induction d as [|d IH]; intros n Hn; rewrite forwardLoop_step.
  - destruct (Nat.ltb_spec n maxRetries) as [H|H]; [lia|]. constructor.
  - destruct (Nat.ltb_spec n maxRetries) as [H|H]; [|lia].
    pose proof (attempt_sendTrxCalls cfg conn amt (envs n) n) as Hcalls.
    assert (Hpass : Forall (fun c =>
              exists (k : nat) (b : Z),
                (k < maxRetries)%nat
                /\ on_getBalance (envs k) = Resolved b
                /\ 0 < forwardAmountOf cfg amt b
                /\ c = (destinationAddress cfg, forwardAmountOf cfg amt b,
                        receivingAddress cfg))
              (sendTrxCalls (fst (attempt cfg conn amt (envs n) n)))).
    { rewrite Hcalls. destruct (on_getBalance (envs n)) as [b|msg] eqn:Hbal;
        [|constructor].
      destruct (negb (b =? 0) && (0 <? forwardAmountOf cfg amt b)) eqn:Hc;
        [|constructor].
      apply andb_true_iff in Hc as [_ Hpos]. apply Z.ltb_lt in Hpos.
      constructor; [|constructor]. exists n, b. auto. }
    destruct (attempt cfg conn amt (envs n) n) as [t [[]|r|msg]]; cbn [fst] in *.
    + exact Hpass.
    + rewrite !sendTrxCalls_app.
      destruct (catchBlock_observed (S n) msg) as (-> & _).
      apply Forall_app. split; [exact Hpass|]. apply IH. lia.
Qed.

(** C3. In every pass, a transaction is built only when the balance read
    in that pass is non-zero and the amount
    [min(receivedAmount, max(0, currentBalance - feeReserve))] computed from
    it is positive, and then for exactly that amount; every transaction
    built during a run has such an amount, computed from the balance read
    in one of its passes.  So an amount [<= 0] builds no transaction. *)
Theorem C3_forward_amount :
  forall (cfg : ForwardingConfig) (conn : Connection) (receivedAmount : Z)
         (envs : nat -> AttemptEnv) (k : nat),
    sendTrxCalls (fst (attempt cfg conn receivedAmount (envs k) k))
    = match on_getBalance (envs k) with
      | Resolved currentBalance =>
          let forwardAmount :=
            Z.min receivedAmount (Z.max 0 (currentBalance - feeReserveSun cfg)) in
          if negb (currentBalance =? 0) && (0 <? forwardAmount)
          then [(destinationAddress cfg, forwardAmount, receivingAddress cfg)]
          else []
      | Rejected _ => []
      end
    /\ Forall (fun c =>
                 exists (j : nat) (currentBalance : Z),
                   (j < maxRetries)%nat
                   /\ on_getBalance (envs j) = Resolved currentBalance
                   /\ 0 < Z.min receivedAmount
                            (Z.max 0 (currentBalance - feeReserveSun cfg))
                   /\ c = (destinationAddress cfg,
                           Z.min receivedAmount
                             (Z.max 0 (currentBalance - feeReserveSun cfg)),
                           receivingAddress cfg))
         (sendTrxCalls (fst (forwardWithMultisig (Some cfg) conn receivedAmount envs))).
Proof.
  intros cfg conn receivedAmount envs k. split.
  - apply attempt_sendTrxCalls.
  - unfold forwardWithMultisig.
    destruct (isConnected conn && tronLinkWeb conn
              && negb (String.eqb (approvingAddress conn) "")).
    + cbn [fst].
      apply (@forwardLoop_sendTrxCalls cfg conn receivedAmount envs maxRetries 0 eq_refl).
    + constructor.
Qed.

(** C4, as amended. When the amount to forward is [<= 0] the pass logs a
    warning and no error entry, builds no transaction, marks the detect
    step as an error with the detail "Insufficient balance for forwarding"
    and returns; the loop ends there, without a [catch] block and without a
    further pass. *)
Theorem C4_nothing_to_forward :
  forall (cfg : ForwardingConfig) (conn : Connection) (receivedAmount b now : Z)
         (envs : nat -> AttemptEnv) (k : nat),
    (k < maxRetries)%nat ->
    on_getBalance (envs k) = Resolved b ->
    b <> 0 ->
    forwardAmountOf cfg receivedAmount b <= 0 ->
    let t := fst (attempt cfg conn receivedAmount (envs k) k) in
    snd (attempt cfg conn receivedAmount (envs k) k) = Returned RUndefined
    /\ levelsLogged t = [INFO; WARNING]
    /\ sendTrxCalls t = []
    /\ (exists pre, t = pre ++ [UpdateStep "detect" error
                                (Some [Lit "Insufficient balance for forwarding"])])
    /\ forwardLoop cfg conn receivedAmount envs k = (t, RUndefined)
    /\ anyStepInError (stepsAfter now t createForwardingSteps) = true.
Proof.
  intros cfg conn receivedAmount b now envs k Hk Hbal Hb Hamt t.
  assert (Hpass : snd (attempt cfg conn receivedAmount (envs k) k) = Returned RUndefined
          /\ levelsLogged t = [INFO; WARNING]
          /\ sendTrxCalls t = []
          /\ (exists pre, t = pre ++ [UpdateStep "detect" error
                                (Some [Lit "Insufficient balance for forwarding"])])
          /\ anyStepInError (stepsAfter now t createForwardingSteps) = true).
  { subst t. unfold forwardAmountOf in Hamt. revert Hbal.
    generalize (envs k) as env. intros env. open_attempt env. intros ->. cbn.
    destruct (Z.eqb_spec b 0) as [|_]; [contradiction|]. cbn.
    destruct (Z.leb_spec (Z.min receivedAmount (Z.max 0 (b - feeReserveSun cfg))) 0)
      as [_|Hpos]; [|lia].
    cbn. repeat split.
    eexists [_; _; _; _; _]. reflexivity. }
  destruct Hpass as (Hret & Hlv & Hcalls & Hlast & Hsteps).
  repeat split; try assumption.
  rewrite forwardLoop_step. apply Nat.ltb_lt in Hk. rewrite Hk.
  subst t. destruct (attempt cfg conn receivedAmount (envs k) k) as [t c].
  cbn [fst snd] in *. rewrite Hret. reflexivity.
Qed.

Lemma signatureCountOf_quotient (fullySigned : Transaction) :
  (signatureCountOf fullySigned == inject_Z (payloadLength fullySigned) / 65)%Q.
Proof.
  unfold signatureCountOf, payloadLength.
  destruct (signature fullySigned) as [s|]; [|reflexivity].
  destruct (String.eqb_spec s "") as [->|_]; reflexivity.
Qed.

Lemma hasRequiredSignatures_length (fullySigned : Transaction) :
  hasRequiredSignatures fullySigned = true <-> 130 <= payloadLength fullySigned.
Proof.
  unfold hasRequiredSignatures. rewrite Qle_bool_iff, signatureCountOf_quotient.
  unfold Qle, Qdiv, Qmult, Qinv, inject_Z. cbn. lia.
Qed.

Lemma signatureFormatOk_length (fullySigned : Transaction) :
  signatureFormatOk fullySigned = true <-> 130 <= payloadLength fullySigned.
Proof.
  unfold signatureFormatOk, truthyString, payloadLength.
  destruct (signature fullySigned) as [s|]; cbn.
  - destruct (String.eqb_spec s "") as [->|Hne]; cbn.
    + split; [discriminate | lia].
    + rewrite negb_true_iff, Z.ltb_ge. reflexivity.
  - split; [discriminate | lia].
Qed.

(** C9. The signature count is the payload length divided by 65; the
    validate step throws exactly when the count is below 2, that is, when
    the payload is shorter than 130; a pass whose count is below 2 fails
    without a broadcast, and a pass whose count is at least 2 submits the
    signed transaction. *)
Theorem C9_signature_count :
  forall (cfg : ForwardingConfig) (conn : Connection) (receivedAmount b : Z)
         (env : AttemptEnv) (k : nat)
         (transaction firstSigned fullySigned : Transaction)
         (accountInfo : option AccountInfo),
    on_getBalance env = Resolved b ->
    b <> 0 ->
    0 < forwardAmountOf cfg receivedAmount b ->
    on_sendTrx env = Resolved transaction ->
    on_getAccount env = Resolved accountInfo ->
    on_multiSign env = Resolved firstSigned ->
    on_signTransaction env = Resolved (Some fullySigned) ->
    let signatureCount := signatureCountOf fullySigned in
    let pass := attempt cfg conn receivedAmount env k in
    (signatureCount == inject_Z (payloadLength fullySigned) / 65)%Q
    /\ (hasRequiredSignatures fullySigned = true <-> (2 <= signatureCount)%Q)
    /\ ((signatureCount < 2)%Q <-> payloadLength fullySigned < 130)
    /\ (snd (validateStep fullySigned)
        = Thrown "Transaction does not meet 2-of-2 multisig requirements"
        <-> (signatureCount < 2)%Q)
    /\ ((signatureCount < 2)%Q ->
        broadcastCalls (fst pass) = [] /\ exists msg, snd pass = Thrown msg)
    /\ ((2 <= signatureCount)%Q -> broadcastCalls (fst pass) = [fullySigned]).
Proof.
  intros cfg conn receivedAmount b env k transaction firstSigned fullySigned
    accountInfo Hbal Hb Hamt Htx Hacc Hms Hsg signatureCount pass.
  assert (Hreq : hasRequiredSignatures fullySigned = true <-> (2 <= signatureCount)%Q).
  { unfold hasRequiredSignatures. apply Qle_bool_iff. }
  assert (Hlt : (signatureCount < 2)%Q <-> payloadLength fullySigned < 130).
  { rewrite <- Z.nle_gt, <- hasRequiredSignatures_length, Hreq.
    split; [apply Qlt_not_le | apply Qnot_le_lt]. }
  assert (Hfmt : signatureFormatOk fullySigned = hasRequiredSignatures fullySigned).
  { destruct (signatureFormatOk fullySigned) eqn:Hf;
      destruct (hasRequiredSignatures fullySigned) eqn:Hr; try reflexivity.
    - apply signatureFormatOk_length, hasRequiredSignatures_length in Hf. congruence.
    - apply hasRequiredSignatures_length, signatureFormatOk_length in Hr. congruence. }
  split; [apply signatureCountOf_quotient|].
  split; [exact Hreq|]. split; [exact Hlt|]. split.
  { unfold validateStep. cbn.
    destruct (hasRequiredSignatures fullySigned) eqn:Hr; cbn.
    - split; [discriminate|]. intros Hc. apply Qlt_not_le in Hc.
      exfalso. apply Hc, Hreq. reflexivity.
    - split; [|reflexivity]. intros _. apply Qnot_le_lt. intros Hc.
      apply Hreq in Hc. discriminate. }
  assert (Hpass :
    if hasRequiredSignatures fullySigned
    then broadcastCalls (fst pass) = [fullySigned]
    else broadcastCalls (fst pass) = [] /\ exists msg, snd pass = Thrown msg).
  { subst pass. unfold forwardAmountOf in Hamt.
    revert Hbal Htx Hacc Hms Hsg. open_attempt env.
    intros -> -> -> -> ->. cbn.
    destruct (Z.eqb_spec b 0) as [|_]; [contradiction|]. cbn.
    destruct (Z.leb_spec (Z.min receivedAmount (Z.max 0 (b - feeReserveSun cfg))) 0)
      as [Hle|_]; [lia|].
    cbn. rewrite Hfmt. unfold validateStep, hasRequiredSignatures.
    destruct (Qle_bool 2 (signatureCountOf fullySigned)) eqn:Hq; cbn;
      unfold validateStep, hasRequiredSignatures; rewrite ?Hq; cbn.
    - destruct br as [res|msg]; cbn; [|reflexivity].
      destruct (result res); cbn; [|reflexivity].
      destruct bal2; reflexivity.
    - split; [reflexivity|]. eexists. reflexivity. }
  split.
  - intros Hc. destruct (hasRequiredSignatures fullySigned) eqn:Hr; [|exact Hpass].
    apply Qlt_not_le in Hc. exfalso. apply Hc, Hreq. reflexivity.
  - intros Hc. apply Hreq in Hc. rewrite Hc in Hpass. exact Hpass.
Qed.

Lemma attempt_noBalance cfg conn amt env k :
  noBalance (on_getBalance env) = true ->
  snd (attempt cfg conn amt env k) = Thrown "Failed to get current balance"
  /\ countLevel WARNING (fst (attempt cfg conn amt env k)) = 0%nat
  /\ sendTrxCalls (fst (attempt cfg conn amt env k)) = []
  /\ stepsAfter 0 (fst (attempt cfg conn amt env k)) createForwardingSteps
     = updateStep 0 "detect" completed (Some [Sun amt; Lit " TRX received"])
         createForwardingSteps.
Proof.
  open_attempt env. destruct bal as [b|msg]; cbn.
  - intros Hb. apply Z.eqb_eq in Hb as ->. cbn. repeat split.
  - intros _. repeat split.
Qed.

Lemma failedPasses_countLevel cfg conn amt envs msgs lv (n m : nat) :
  countLevel lv (failedPasses cfg conn amt envs msgs n m)
  = fold_right (fun k acc =>
                  (countLevel lv (fst (attempt cfg conn amt (envs k) k))
                   + countLevel lv (catchBlock (S k) (msgs k)) + acc)%nat)
      0%nat (seq n m).
Proof.
  revert n. induction m as [|m IH]; intros n; [reflexivity|].
  cbn [failedPasses seq fold_right]. rewrite !countLevel_app, IH. lia.
Qed.

(** C10. A pass whose balance query answers 0 or fails throws "Failed to
    get current balance": it logs no warning, builds no transaction, and
    the loop counts it as a failure and goes on from the next attempt
    number.  When every pass of a run meets such an answer the run makes
    its 3 passes, logs the failures 1, 2 and 3 and the closing error entry,
    logs no warning and returns [null]. *)
Theorem C10_zero_balance_is_a_failure :
  forall (cfg : ForwardingConfig) (conn : Connection) (receivedAmount : Z)
         (envs : nat -> AttemptEnv) (k : nat),
    (k < maxRetries)%nat ->
    noBalance (on_getBalance (envs k)) = true ->
    let pass := attempt cfg conn receivedAmount (envs k) k in
    let run := forwardWithMultisig (Some cfg) conn receivedAmount envs in
    snd pass = Thrown "Failed to get current balance"
    /\ countLevel WARNING (fst pass) = 0%nat
    /\ sendTrxCalls (fst pass) = []
    /\ forwardLoop cfg conn receivedAmount envs k
       = (fst pass ++ catchBlock (S k) "Failed to get current balance"
            ++ fst (forwardLoop cfg conn receivedAmount envs (S k)),
          snd (forwardLoop cfg conn receivedAmount envs (S k)))
    /\ (connected conn = true ->
        (forall j, noBalance (on_getBalance (envs j)) = true) ->
        snd run = RNull
        /\ failuresLogged (fst run) = [1; 2; 3]
        /\ countLevel WARNING (fst run) = 0%nat
        /\ last (fst run) exhaustedEntry = exhaustedEntry
        /\ attemptsStarted (fst run) = 3%nat).
Proof.
  intros cfg conn receivedAmount envs k Hk Hbal pass run.
  destruct (attempt_noBalance cfg conn receivedAmount (envs k) k Hbal)
    as (Hthrown & Hwarn & Hcalls & _).
  repeat (split; [assumption|]). split.
  - rewrite forwardLoop_step. apply Nat.ltb_lt in Hk. rewrite Hk.
    subst pass. destruct (attempt cfg conn receivedAmount (envs k) k) as [t c].
    cbn [fst snd] in *. rewrite Hthrown. reflexivity.
  - intros Hconn Hall.
    destruct (@forward_run_shape cfg conn receivedAmount envs Hconn)
      as (m & Hm & Hfail & Htrace & Hres & Hret).
    fold run in Htrace, Hres.
    assert (Hm3 : m = maxRetries).
    { destruct (Nat.ltb_spec m maxRetries) as [Hlt|Hge]; [|lia].
      destruct Hret as [r Hr].
      destruct (attempt_noBalance cfg conn receivedAmount (envs m) m (Hall m))
        as (Hthrown' & _).
      rewrite Hthrown' in Hr. discriminate. }
    subst m. unfold maxRetries in Htrace, Hres.
    cbn [Nat.ltb Nat.leb] in Htrace, Hres.
    split; [exact Hres|]. rewrite Htrace. split; [|split; [|split]].
    + rewrite run_failuresLogged. reflexivity.
    + change (SetCurrentSteps createForwardingSteps :: ?l)
        with ([SetCurrentSteps createForwardingSteps] ++ l).
      rewrite !countLevel_app, failedPasses_countLevel. cbn [seq fold_right].
      rewrite !(proj1 (proj2 (attempt_noBalance cfg conn receivedAmount _ _ (Hall _)))).
      reflexivity.
    + change (SetCurrentSteps createForwardingSteps :: ?l ++ ?e)
        with ((SetCurrentSteps createForwardingSteps :: l) ++ e).
      apply last_last.
    + rewrite run_attemptsStarted. reflexivity.
Qed.

(** ** The balance monitor and the hook *)

Lemma applyEffects_app (conn : Connection) (a b : list Effect) (h : Hook) :
  applyEffects conn (a ++ b) h = applyEffects conn b (applyEffects conn a h).
Proof. apply fold_left_app. Qed.

(** The effects of a callback leave the started runs alone and add one
    timer for each forwarding timeout they set. *)
Lemma applyEffects_timers_running (conn : Connection) (t : list Effect) (h : Hook) :
  h_timers (applyEffects conn t h)
  = h_timers h ++ map (fun a => mkPending a conn) (timeoutsOf t)
  /\ h_running (applyEffects conn t h) = h_running h.
Proof.
  revert h. induction t as [|e t IH]; intros h.
  - cbn. rewrite app_nil_r. split; reflexivity.
  - change (applyEffects conn (e :: t) h)
      with (applyEffects conn t (applyEffect conn h e)).
    destruct (IH (applyEffect conn h e)) as [-> ->].
    destruct e; cbn [timeoutsOf flat_map app map]; split;
      try reflexivity.
    change (h_timers (applyEffect conn h (SetTimeoutForward receivedAmount ms)))
      with (h_timers h ++ [mkPending receivedAmount conn]).
    rewrite <- app_assoc. reflexivity.
Qed.

(** What [monitorBalance] sets a timer for: the difference, when the new
    balance exceeds the [lastBalance] its closure holds, and nothing
    otherwise. *)
Lemma monitorBalance_timeouts (tronWebRef : option ForwardingConfig)
    (lastBalance : option Z) (count : nat) (balanceInSun : Rpc Z) :
  timeoutsOf (monitorBalance tronWebRef lastBalance count balanceInSun)
  = match tronWebRef, lastBalance, balanceInSun with
    | Some _, Some l, Resolved b => if b >? l then [b - l] else []
    | _, _, _ => []
    end.
Proof.
  unfold monitorBalance, heartbeat.
  destruct tronWebRef as [cfg|]; [|reflexivity].
  destruct (20 <=? S count)%nat;
    (destruct balanceInSun as [b|msg]; cbn; [|destruct lastBalance; reflexivity]);
    (destruct lastBalance as [l|]; cbn; [|reflexivity]);
    (destruct (b >? l); [reflexivity|]); destruct (b <? l); reflexivity.
Qed.

(** In [monitorBalance] the setter of the previous balance is called
    before the forwarding timer is set. *)
Lemma monitorBalance_sets_balance_before_timer (cfg : ForwardingConfig)
    (l b : Z) (count : nat) :
  l < b ->
  exists pre det,
    monitorBalance (Some cfg) (Some l) count (Resolved b)
    = pre ++ [ AddLog DETECTION [Lit "TRX PAYMENT DETECTED!"] det;
               SetLastBalance (Some b);
               SetTimeoutForward (b - l) 2000 ]
    /\ timeoutsOf pre = [].
Proof.
  intros Hlt. unfold monitorBalance, heartbeat.
  destruct (20 <=? S count)%nat; cbn;
    (destruct (Z.gtb_spec b l) as [_|Hle]; [|lia]).
  - eexists [_; _; _; _; _], _. split; reflexivity.
  - eexists [_; _; _], _. split; reflexivity.
Qed.

(** From a hook whose previous balance was never set, starting the monitor
    sets no timer, whatever the first balance. *)
Lemma first_start_sets_no_timer (h : Hook) (balanceInSun : Rpc Z) :
  h_lastBalance h = None ->
  h_timers (step h (Start balanceInSun)) = h_timers h.
Proof.
  intros Hnone. cbn [step]. unfold startMonitoring.
  destruct (h_tronWebRef h) as [cfg|] eqn:Href; [|reflexivity].
  destruct (_ || _); [reflexivity|].
  destruct (negb _); [reflexivity|].
  unfold runMonitor.
  match goal with
  | |- h_timers (applyEffects ?c ?t ?h0) = _ =>
      destruct (applyEffects_timers_running c t h0) as [-> _]
  end.
  rewrite monitorBalance_timeouts. cbn [closureOf seen_lastBalance].
  rewrite Hnone.
  match goal with
  | |- context [match ?r with Some _ => _ | None => _ end] => destruct r
  end; cbn; apply app_nil_r.
Qed.

(** After a restart the first observation is measured against the balance
    the previous session left in the state cell. *)
Lemma restart_measures_against_seen_balance (h : Hook) (cfg : ForwardingConfig)
    (l b : Z) :
  h_tronWebRef h = Some cfg ->
  connected (h_connection h) = true ->
  isConfigured (h_multisigStatus h) = true ->
  h_lastBalance h = Some l ->
  l < b ->
  h_timers (step h (Start (Resolved b)))
  = h_timers h ++ [mkPending (b - l) (h_connection h)].
Proof.
  intros Href Hconn Hcfg Hlast Hlt. cbn [step]. unfold startMonitoring.
  rewrite Href. cbn [closureOf seen_connection seen_multisigStatus].
  unfold connected in Hconn.
  apply andb_true_iff in Hconn as [Hconn Haddr].
  apply andb_true_iff in Hconn as [Hconn _].
  rewrite Hconn, Hcfg. apply negb_true_iff in Haddr. rewrite Haddr. cbn [negb orb].
  unfold runMonitor.
  match goal with
  | |- h_timers (applyEffects ?c ?t ?h0) = _ =>
      destruct (applyEffects_timers_running c t h0) as [-> _]
  end.
  rewrite monitorBalance_timeouts.
  change (h_tronWebRef _) with (h_tronWebRef h).
  change (seen_lastBalance (closureOf h)) with (h_lastBalance h).
  rewrite Href, Hlast.
  destruct (Z.gtb_spec b l) as [_|Hle]; [reflexivity|lia].
Qed.

(** In a session started on a hook that never monitored, the interval's
    callback holds no previous balance: no tick of that session sets a
    timer. *)
Lemma tick_without_seen_balance_sets_no_timer (h : Hook) (cl : Closure)
    (balanceInSun : Rpc Z) :
  h_intervalRef h = Some cl ->
  seen_lastBalance cl = None ->
  h_timers (step h (Tick balanceInSun)) = h_timers h.
Proof.
  intros Hint Hnone. cbn [step]. rewrite Hint. unfold runMonitor.
  match goal with
  | |- h_timers (applyEffects ?c ?t ?h0) = _ =>
      destruct (applyEffects_timers_running c t h0) as [-> _]
  end.
  rewrite monitorBalance_timeouts, Hnone.
  destruct (h_tronWebRef h); cbn; apply app_nil_r.
Qed.

(** C1, as amended. The monitor has no gate on a run in progress: whenever
    the interval's callback sees a balance above the previous balance it
    holds, it sets a timer for a run of the difference, whatever runs are
    active, and leaves the active runs alone; and whenever a timer fires,
    its run is started next to the runs already active. *)
Theorem C1_every_increase_schedules_a_run :
  forall (h : Hook) (cl : Closure) (cfg : ForwardingConfig) (l b : Z),
    h_intervalRef h = Some cl ->
    seen_lastBalance cl = Some l ->
    h_tronWebRef h = Some cfg ->
    l < b ->
    let h1 := step h (Tick (Resolved b)) in
    h_timers h1 = h_timers h ++ [mkPending (b - l) (seen_connection cl)]
    /\ h_running h1 = h_running h
    /\ forall (h2 : Hook) (p : Pending) (rest : list Pending),
         h_timers h2 = p :: rest ->
         h_running (step h2 TimerFires) = h_running h2 ++ [p]
         /\ h_timers (step h2 TimerFires) = rest.
Proof.
  intros h cl cfg l b Hint Hlast Href Hlt h1. subst h1.
  cbn [step]. rewrite Hint. unfold runMonitor.
  match goal with
  | |- h_timers (applyEffects ?c ?t ?h0) = _ /\ _ =>
      destruct (applyEffects_timers_running c t h0) as [-> ->]
  end.
  rewrite monitorBalance_timeouts, Href, Hlast.
  destruct (Z.gtb_spec b l) as [_|Hle]; [|lia].
  split; [reflexivity|]. split; [reflexivity|].
  intros h2 p rest Htimers. cbn [step]. rewrite Htimers. split; reflexivity.
Qed.

Lemma C1_witness_second_run_scheduled :
  h_running oneRunActive = [mkPending 50 sampleConnection]
  /\ let h1 := step oneRunActive (Tick (Resolved 200)) in
     h_timers h1
     = h_timers oneRunActive ++ [mkPending (200 - 100) sampleConnection]
     /\ h_running h1 = h_running oneRunActive
     /\ forall (h2 : Hook) (p : Pending) (rest : list Pending),
          h_timers h2 = p :: rest ->
          h_running (step h2 TimerFires) = h_running h2 ++ [p]
          /\ h_timers (step h2 TimerFires) = rest.
Proof.
  split; [reflexivity|].
  apply (@C1_every_increase_schedules_a_run oneRunActive
           (mkClosure (Some 100) sampleConnection
              (mkMultisigStatus true 2 2 true true))
           sampleConfig 100 200).
  - reflexivity.
  - reflexivity.
  - reflexivity.
  - reflexivity.
Defined.

(** C1, as worded, fails: deposits seen on ticks in a row each start a run
    two seconds later, while the runs started before them are still
    active. *)
Lemma C1_counterexample_two_active_runs : ~ atMostOneActiveRun readyHook.
Proof.
  intros H.
  specialize (H (restartEvents
                 ++ [TimerFires; Tick (Resolved 200); TimerFires;
                     Tick (Resolved 250); TimerFires])).
  vm_compute in H. lia.
Qed.

(** C6. On a hook that never monitored, the first observation sets no
    timer and only seeds the previous balance.  After a stop, the second
    start writes [null] to the state cell, but the [monitorBalance] it
    calls is the one of its own render, which holds the balance 100 left
    by the first session: the first observation, 150, is classified as an
    increase of 50 and a forwarding timer is set. *)
Theorem C6_restart_measures_against_old_balance :
  h_timers (runEvents [Start (Resolved 100)] readyHook) = []
  /\ h_lastBalance (runEvents [Start (Resolved 100)] readyHook) = Some 100
  /\ h_intervalRef (runEvents restartEvents readyHook)
     = Some (mkClosure (Some 100) sampleConnection
               (mkMultisigStatus true 2 2 true true))
  /\ h_timers (runEvents restartEvents readyHook) = [mkPending 50 sampleConnection].
Proof. repeat split; vm_compute; reflexivity. Qed.

Lemma restart_first_observation_forwards :
  ~ firstObservationNeverForwards readyHook.
Proof.
  intros H.
  specialize (H [Start (Resolved 100); Stop] (Resolved 150)).
  vm_compute in H. discriminate H.
Qed.

(** C7. After the restart the state cell holds the new balance 150 before
    the timer of the detected increase fires, as the order of the calls in
    [monitorBalance] intends; but the callback registered with
    [setInterval] still holds the balance 100 of its render, so the next
    tick, with the balance unchanged at 150, detects the same 50 again and
    sets a second timer for it. *)
Theorem C7_same_delta_detected_again :
  let h := runEvents restartEvents readyHook in
  h_lastBalance h = Some 150
  /\ h_timers h = [mkPending 50 sampleConnection]
  /\ h_running h = []
  /\ h_timers (step h (Tick (Resolved 150)))
     = [mkPending 50 sampleConnection; mkPending 50 sampleConnection]
  /\ h_lastBalance (step h (Tick (Resolved 150))) = Some 150.
Proof. repeat split; vm_compute; reflexivity. Qed.

Lemma same_delta_counted_twice : ~ sameDeltaCountedOnce readyHook.
Proof.
  intros H.
  specialize (H (restartEvents ++ [TimerFires]) 150).
  vm_compute in H.
  assert (Hne : [mkPending 50 sampleConnection] <> []) by discriminate.
  specialize (H Hne). discriminate H.
Qed.

(** ** The theorems at sample inputs *)

(** C4, as worded, fails: with 300000 in the account and a reserve of
    500000 the run ends with the detect step marked as an error. *)
Lemma C4_counterexample_detect_marked_error : ~ nothingToForwardMarksNoError.
Proof.
  intros H.
  assert (Hb : 300000 <> 0) by discriminate.
  assert (Hamt : forwardAmountOf sampleConfig 1000 300000 <= 0)
    by (vm_compute; discriminate).
  destruct (H sampleConfig sampleConnection 1000 300000 0 dustEnvs
              eq_refl eq_refl Hb Hamt) as (_ & Hsteps & _).
  vm_compute in Hsteps. discriminate Hsteps.
Qed.

Lemma C4_witness_dust_balance :
  let t := fst (attempt sampleConfig sampleConnection 1000 (dustEnvs 0%nat) 0%nat) in
  snd (attempt sampleConfig sampleConnection 1000 (dustEnvs 0%nat) 0%nat)
  = Returned RUndefined
  /\ levelsLogged t = [INFO; WARNING]
  /\ sendTrxCalls t = []
  /\ (exists pre, t = pre ++ [UpdateStep "detect" error
                              (Some [Lit "Insufficient balance for forwarding"])])
  /\ forwardLoop sampleConfig sampleConnection 1000 dustEnvs 0 = (t, RUndefined)
  /\ anyStepInError (stepsAfter 0 t createForwardingSteps) = true.
Proof.
  apply (@C4_nothing_to_forward sampleConfig sampleConnection 1000 300000 0
           dustEnvs 0%nat).
  - unfold maxRetries. lia.
  - reflexivity.
  - discriminate.
  - vm_compute. discriminate.
Defined.

(** The run of the example: two failures at broadcast, then success. *)
Lemma two_failures_then_success_observed :
  let run := forwardWithMultisig (Some sampleConfig) sampleConnection 1000000
               failTwiceEnvs in
  snd run = RResult (mkBroadcast true "abcdef0123456789" None)
  /\ failuresLogged (fst run) = [1; 2]
  /\ attemptsStarted (fst run) = 3%nat
  /\ List.length (sendTrxCalls (fst run)) = 3%nat
  /\ List.length (broadcastCalls (fst run)) = 3%nat.
Proof. repeat split; vm_compute; reflexivity. Qed.

Lemma C9_witness_two_signatures :
  let signatureCount := signatureCountOf signedTx in
  let pass := attempt sampleConfig sampleConnection 1000000
                (signingEnv (Some payload130)) 0%nat in
  (signatureCount == inject_Z (payloadLength signedTx) / 65)%Q
  /\ (hasRequiredSignatures signedTx = true <-> (2 <= signatureCount)%Q)
  /\ ((signatureCount < 2)%Q <-> payloadLength signedTx < 130)
  /\ (snd (validateStep signedTx)
      = Thrown "Transaction does not meet 2-of-2 multisig requirements"
      <-> (signatureCount < 2)%Q)
  /\ ((signatureCount < 2)%Q ->
      broadcastCalls (fst pass) = [] /\ exists msg, snd pass = Thrown msg)
  /\ ((2 <= signatureCount)%Q -> broadcastCalls (fst pass) = [signedTx]).
Proof.
  apply (@C9_signature_count sampleConfig sampleConnection 1000000 1500000
           (signingEnv (Some payload130)) 0%nat sampleTx sampleTx signedTx
           (Some sampleAccount)).
  - reflexivity.
  - discriminate.
  - vm_compute. reflexivity.
  - reflexivity.
  - reflexivity.
  - reflexivity.
  - reflexivity.
Defined.

(** A payload of 129 characters fails the pass before any broadcast. *)
Lemma short_payload_fails_the_pass :
  let pass := attempt sampleConfig sampleConnection 1000000
                (signingEnv (Some (substring 0 129 payload130))) 0%nat in
  snd pass = Thrown "Invalid signature format - transaction may not be properly signed"
  /\ broadcastCalls (fst pass) = [].
Proof. split; vm_compute; reflexivity. Qed.

Lemma C10_witness_empty_wallet :
  let pass := attempt sampleConfig sampleConnection 1000000 (emptyWalletEnvs 0%nat)
                0%nat in
  let run := forwardWithMultisig (Some sampleConfig) sampleConnection 1000000
               emptyWalletEnvs in
  snd pass = Thrown "Failed to get current balance"
  /\ countLevel WARNING (fst pass) = 0%nat
  /\ sendTrxCalls (fst pass) = []
  /\ forwardLoop sampleConfig sampleConnection 1000000 emptyWalletEnvs 0
     = (fst pass ++ catchBlock 1 "Failed to get current balance"
          ++ fst (forwardLoop sampleConfig sampleConnection 1000000 emptyWalletEnvs 1),
        snd (forwardLoop sampleConfig sampleConnection 1000000 emptyWalletEnvs 1))
  /\ (connected sampleConnection = true ->
      (forall j, noBalance (on_getBalance (emptyWalletEnvs j)) = true) ->
      snd run = RNull
      /\ failuresLogged (fst run) = [1; 2; 3]
      /\ countLevel WARNING (fst run) = 0%nat
      /\ last (fst run) exhaustedEntry = exhaustedEntry
      /\ attemptsStarted (fst run) = 3%nat).
Proof.
  apply (@C10_zero_balance_is_a_failure sampleConfig sampleConnection 1000000
           emptyWalletEnvs 0%nat).
  - unfold maxRetries. lia.
  - reflexivity.
Defined.

(** The run on an empty wallet: no step is in error, the detect step is
    completed, the result is [null]. *)
Lemma empty_wallet_run_observed :
  let run := forwardWithMultisig (Some sampleConfig) sampleConnection 1000000
               emptyWalletEnvs in
  snd run = RNull
  /\ levelsLogged (fst run) = [INFO; ERROR; INFO; INFO; ERROR; INFO; INFO; ERROR; ERROR]
  /\ anyStepInError (stepsAfter 0 (fst run) []) = false.
Proof. repeat split; vm_compute; reflexivity. Qed.

(** The example of the specification: previous balance 100, new balance
    150, reserve 5, balance re-read 150: the amount is 50. *)
Lemma forward_amount_example :
  forwardAmountOf (mkConfig "key" "TRecv" "TDest" (5 # 1000000) 5 3000 "" "") 50 150
  = 50.
Proof. reflexivity. Qed.

(** The example of the specification: threshold 1 and one key is not
    configured. *)
Lemma single_key_not_configured :
  isConfigured (multisigStatusOf sampleConfig "TAppr"
                  (mkAccount (Some [mkPermission 1 [mkKey "TRecv" 1]]))) = false.
Proof. reflexivity. Qed.

(** * Further properties *)

(** ** The step list *)

Lemma updateStep_ids (now : Z) (stepId : string) (status : StepStatus)
    (det : option Text) (prev : list ForwardingStep) :
  map step_id (updateStep now stepId status det prev) = map step_id prev
  /\ map step_label (updateStep now stepId status det prev) = map step_label prev.
Proof.
  unfold updateStep. induction prev as [|s prev [IHid IHlab]]; [split; reflexivity|].
  cbn [map]. rewrite IHid, IHlab.
  destruct (String.eqb (step_id s) stepId); split; reflexivity.
Qed.

Lemma failActiveSteps_ids (msg : string) (prev : list ForwardingStep) :
  map step_id (failActiveSteps msg prev) = map step_id prev
  /\ map step_label (failActiveSteps msg prev) = map step_label prev.
Proof.
  unfold failActiveSteps. induction prev as [|s prev [IHid IHlab]]; [split; reflexivity|].
  cbn [map]. rewrite IHid, IHlab.
  destruct (StepStatus_eqb (step_status s) active); split; reflexivity.
Qed.

(** X1. [updateStep] keeps the length, the ids and the labels of the step
    list; it gives the step of the given id the new status, the clock
    reading and the new detail (which is erased when none is passed) and
    leaves every other step as it is; for an id that no step carries the
    list is unchanged. *)
Theorem X1_updateStep_touches_one_id :
  forall (now : Z) (stepId : string) (status : StepStatus) (det : option Text)
         (prev : list ForwardingStep),
    List.length (updateStep now stepId status det prev) = List.length prev
    /\ map step_id (updateStep now stepId status det prev) = map step_id prev
    /\ map step_label (updateStep now stepId status det prev) = map step_label prev
    /\ Forall2 (fun old new =>
                  if String.eqb (step_id old) stepId
                  then step_status new = status
                       /\ step_timestamp new = Some now
                       /\ step_details new = det
                  else new = old)
         prev (updateStep now stepId status det prev)
    /\ (existsb (fun s => String.eqb (step_id s) stepId) prev = false ->
        updateStep now stepId status det prev = prev).
Proof.
  intros now stepId status det prev. unfold updateStep.
  induction prev as [|s prev (Hlen & Hid & Hlab & Hall & Hnone)]; cbn [map].
  - repeat split; constructor.
  - split; [cbn; congruence|]. split; [|split; [|split]].
    + destruct (String.eqb (step_id s) stepId); cbn; congruence.
    + destruct (String.eqb (step_id s) stepId); cbn; congruence.
    + constructor; [|exact Hall].
      destruct (String.eqb (step_id s) stepId); cbn; auto.
    + cbn [existsb]. intros H. apply orb_false_iff in H as [Hs Hrest].
      rewrite Hs, (Hnone Hrest). reflexivity.
Qed.

Lemma X1_witness_unknown_step :
  updateStep 7 "settle" completed None createForwardingSteps = createForwardingSteps.
Proof.
  apply (X1_updateStep_touches_one_id 7 "settle" completed None createForwardingSteps).
  reflexivity.
Defined.

Lemma failActiveSteps_no_active (msg : string) (prev : list ForwardingStep) :
  anyStepActive (failActiveSteps msg prev) = false.
Proof.
  unfold anyStepActive, failActiveSteps.
  induction prev as [|s prev IH]; [reflexivity|]. cbn [map existsb].
  rewrite IH, orb_false_r.
  destruct (step_status s) eqn:Hs; cbn; rewrite ?Hs; reflexivity.
Qed.

Lemma failActiveSteps_fixpoint (msg : string) (prev : list ForwardingStep) :
  anyStepActive prev = false -> failActiveSteps msg prev = prev.
Proof.
  unfold anyStepActive, failActiveSteps.
  induction prev as [|s prev IH]; [reflexivity|]. cbn [map existsb].
  intros H. apply orb_false_iff in H as [Hs Hrest].
  rewrite Hs, (IH Hrest). reflexivity.
Qed.

(** X2. The updater of the [catch] block leaves no step active: it turns
    exactly the active steps into errors carrying the message, keeps the
    ids and every other step (a completed step stays completed), and
    applying it again, with any message, changes nothing. *)
Theorem X2_failActiveSteps_clears_active :
  forall (msg msg' : string) (prev : list ForwardingStep),
    anyStepActive (failActiveSteps msg prev) = false
    /\ map step_id (failActiveSteps msg prev) = map step_id prev
    /\ Forall2 (fun old new =>
                  match step_status old with
                  | active => step_status new = error
                              /\ step_details new = Some [Lit msg]
                              /\ step_timestamp new = step_timestamp old
                  | _ => new = old
                  end)
         prev (failActiveSteps msg prev)
    /\ failActiveSteps msg' (failActiveSteps msg prev) = failActiveSteps msg prev.
Proof.
  intros msg msg' prev. split; [apply failActiveSteps_no_active|].
  split; [|split].
  - unfold failActiveSteps. induction prev as [|s prev IH]; [reflexivity|].
    cbn [map]. rewrite IH. destruct (StepStatus_eqb (step_status s) active); reflexivity.
  - unfold failActiveSteps. induction prev as [|s prev IH]; [constructor|].
    cbn [map]. constructor; [|exact IH].
    destruct (step_status s); cbn; auto.
  - apply failActiveSteps_fixpoint, failActiveSteps_no_active.
Qed.

(** ** The step list along a run *)

Lemma stepsAfter_app (now : Z) (a b : list Effect) (s : list ForwardingStep) :
  stepsAfter now (a ++ b) s = stepsAfter now b (stepsAfter now a s).
Proof. apply fold_left_app. Qed.

Lemma stepsAfter_ids (now : Z) (t : list Effect) (s : list ForwardingStep) :
  stepResets t = [] ->
  map step_id (stepsAfter now t s) = map step_id s
  /\ map step_label (stepsAfter now t s) = map step_label s.
Proof.
  revert s. induction t as [|e t IH]; intros s Hres; [split; reflexivity|].
  change (stepsAfter now (e :: t) s)
    with (stepsAfter now t (stepsAfter now [e] s)).
  assert (Hres' : stepResets t = []) by (destruct e; try discriminate Hres; exact Hres).
  destruct (IH (stepsAfter now [e] s) Hres') as [-> ->].
  destruct e; try discriminate Hres; try (split; reflexivity).
  - apply updateStep_ids.
  - apply failActiveSteps_ids.
Qed.

Lemma stepResets_app (a b : list Effect) :
  stepResets (a ++ b) = stepResets a ++ stepResets b.
Proof. apply flat_map_app. Qed.

Lemma attempt_stepResets cfg conn amt env k :
  stepResets (fst (attempt cfg conn amt env k)) = [].
Proof. open_attempt env. walk_attempt; reflexivity. Qed.

Lemma catchBlock_stepResets (k : nat) (msg : string) :
  stepResets (catchBlock k msg) = [].
Proof. unfold catchBlock. destruct (k <? maxRetries)%nat; reflexivity. Qed.

Lemma failedPasses_stepResets cfg conn amt envs msgs (n m : nat) :
  stepResets (failedPasses cfg conn amt envs msgs n m) = [].
Proof.
  revert n. induction m as [|m IH]; intros n; [reflexivity|].
  cbn [failedPasses].
  rewrite !stepResets_app, attempt_stepResets, catchBlock_stepResets, IH.
  reflexivity.
Qed.

(** X3. Whatever the step list was, after a run that passed the connection
    check it consists of the seven steps, in their order and under their
    labels: a run replaces the list once, at its start, and afterwards only
    changes the status, time and detail of its steps. *)
Theorem X3_run_keeps_the_seven_steps :
  forall (cfg : ForwardingConfig) (conn : Connection) (receivedAmount now : Z)
         (envs : nat -> AttemptEnv) (steps : list ForwardingStep),
    connected conn = true ->
    let t := fst (forwardWithMultisig (Some cfg) conn receivedAmount envs) in
    stepResets t = [createForwardingSteps]
    /\ map step_id (stepsAfter now t steps) = stepIds
    /\ map step_label (stepsAfter now t steps) = map step_label createForwardingSteps.
Proof.
  intros cfg conn receivedAmount now envs steps Hconn t.
  destruct (@forward_run_shape cfg conn receivedAmount envs Hconn)
    as (m & _ & _ & Htrace & _).
  subst t. rewrite Htrace.
  assert (Hrest : stepResets
            (failedPasses cfg conn receivedAmount envs
               (thrownMessage cfg conn receivedAmount envs) 0 m
             ++ (if (m <? maxRetries)%nat
                 then fst (attempt cfg conn receivedAmount (envs m) m)
                 else [exhaustedEntry])) = []).
  { rewrite stepResets_app, failedPasses_stepResets.
    destruct (m <? maxRetries)%nat; [apply attempt_stepResets | reflexivity]. }
  split.
  - change (SetCurrentSteps createForwardingSteps :: ?l)
      with ([SetCurrentSteps createForwardingSteps] ++ l).
    rewrite stepResets_app, Hrest. reflexivity.
  - change (SetCurrentSteps createForwardingSteps :: ?l)
      with ([SetCurrentSteps createForwardingSteps] ++ l).
    rewrite stepsAfter_app.
    exact (stepsAfter_ids now _ _ Hrest).
Qed.

Lemma X3_witness_two_failures :
  let t := fst (forwardWithMultisig (Some sampleConfig) sampleConnection 1000000
                  failTwiceEnvs) in
  stepResets t = [createForwardingSteps]
  /\ map step_id (stepsAfter 0 t []) = stepIds
  /\ map step_label (stepsAfter 0 t []) = map step_label createForwardingSteps.
Proof.
  apply (@X3_run_keeps_the_seven_steps sampleConfig sampleConnection 1000000 0
           failTwiceEnvs []).
  reflexivity.
Defined.

Lemma attempt_never_null cfg conn amt env k :
  snd (attempt cfg conn amt env k) <> Returned RNull.
Proof. open_attempt env. walk_attempt; discriminate. Qed.

Lemma stepsAfter_catchBlock (now : Z) (k : nat) (msg : string)
    (s : list ForwardingStep) :
  stepsAfter now (catchBlock k msg) s = failActiveSteps msg s.
Proof. unfold catchBlock. destruct (k <? maxRetries)%nat; reflexivity. Qed.

(** X4. A run that returns [null] leaves no step active: its last pass
    ended in the [catch] block, which turned the step that was active into
    an error. *)
Theorem X4_exhausted_run_leaves_no_active_step :
  forall (cfg : ForwardingConfig) (conn : Connection) (receivedAmount now : Z)
         (envs : nat -> AttemptEnv) (steps : list ForwardingStep),
    snd (forwardWithMultisig (Some cfg) conn receivedAmount envs) = RNull ->
    anyStepActive
      (stepsAfter now (fst (forwardWithMultisig (Some cfg) conn receivedAmount envs))
         steps) = false.
Proof.
  intros cfg conn receivedAmount now envs steps Hnull.
  assert (Hconn : connected conn = true).
  { unfold forwardWithMultisig in Hnull. unfold connected.
    destruct (isConnected conn && tronLinkWeb conn
              && negb (String.eqb (approvingAddress conn) ""));
      [reflexivity | discriminate Hnull]. }
  destruct (@forward_run_shape cfg conn receivedAmount envs Hconn)
    as (m & Hm & _ & Htrace & Hres & Hret).
  destruct (Nat.ltb_spec m maxRetries) as [Hlt|Hge].
  - destruct Hret as [r Hr]. rewrite Hr in Hres. rewrite Hres in Hnull. subst r.
    exfalso. exact (attempt_never_null _ _ _ _ _ Hr).
  - assert (m = 3%nat) as -> by (unfold maxRetries in *; lia).
    rewrite Htrace. cbn [failedPasses].
    change (SetCurrentSteps createForwardingSteps :: ?l)
      with ([SetCurrentSteps createForwardingSteps] ++ l).
    rewrite !stepsAfter_app. cbn [app].
    rewrite (stepsAfter_catchBlock now 3). apply failActiveSteps_no_active.
Qed.

Lemma X4_witness_empty_wallet :
  anyStepActive
    (stepsAfter 0 (fst (forwardWithMultisig (Some sampleConfig) sampleConnection
                          1000000 emptyWalletEnvs)) []) = false.
Proof.
  apply (@X4_exhausted_run_leaves_no_active_step sampleConfig sampleConnection
           1000000 0 emptyWalletEnvs []).
  reflexivity.
Defined.

(** X5. A pass that returns the broadcast result leaves the first six
    steps completed, whatever their statuses were before, and the confirm
    step completed when the balance query after the broadcast answered;
    when that query failed the confirm step stays active. *)
Theorem X5_returning_pass_completes_the_steps :
  forall (cfg : ForwardingConfig) (conn : Connection) (receivedAmount now : Z)
         (env : AttemptEnv) (k : nat) (answer : BroadcastResult)
         (steps : list ForwardingStep),
    snd (attempt cfg conn receivedAmount env k) = Returned (RResult answer) ->
    map step_id steps = stepIds ->
    map step_status (stepsAfter now (fst (attempt cfg conn receivedAmount env k)) steps)
    = [completed; completed; completed; completed; completed; completed;
       match on_getBalanceAfter env with
       | Resolved _ => completed
       | Rejected _ => active
       end].
Proof.
  intros cfg conn receivedAmount now env k answer steps Hret Hids.
  destruct steps as [|[i1 l1 s1 t1 d1] [|[i2 l2 s2 t2 d2] [|[i3 l3 s3 t3 d3]
    [|[i4 l4 s4 t4 d4] [|[i5 l5 s5 t5 d5] [|[i6 l6 s6 t6 d6]
    [|[i7 l7 s7 t7 d7] [|? ?]]]]]]]]; try discriminate Hids.
  cbn in Hids. injection Hids as -> -> -> -> -> -> ->.
  revert Hret. open_attempt env.
  walk_attempt; intros Hret; try discriminate Hret; reflexivity.
Qed.

Lemma X5_witness_good_pass :
  map step_status
    (stepsAfter 0 (fst (attempt sampleConfig sampleConnection 1000000
                          (goodEnv 1500000 400000) 0%nat)) createForwardingSteps)
  = [completed; completed; completed; completed; completed; completed; completed].
Proof.
  apply (@X5_returning_pass_completes_the_steps sampleConfig sampleConnection 1000000 0
           (goodEnv 1500000 400000) 0%nat (mkBroadcast true "abcdef0123456789" None)
           createForwardingSteps).
  - reflexivity.
  - reflexivity.
Defined.

(** ** The calls of a pass and of a run *)

(** How far a pass gets, by the calls it makes. *)
Lemma attempt_calls cfg conn amt env k :
  let t := fst (attempt cfg conn amt env k) in
  (List.length (broadcastCalls t) <= List.length (signCalls t))%nat
  /\ (List.length (signCalls t) <= List.length (multiSignIndices t))%nat
  /\ (List.length (multiSignIndices t) <= List.length (sendTrxCalls t))%nat
  /\ (List.length (sendTrxCalls t) <= 1)%nat.
Proof.
  open_attempt env. walk_attempt; cbn; repeat split; lia.
Qed.

Lemma attempt_broadcast cfg conn amt env k :
  match broadcastCalls (fst (attempt cfg conn amt env k)) with
  | [] => True
  | [tx] => on_signTransaction env = Resolved (Some tx)
            /\ 130 <= payloadLength tx
  | _ => False
  end.
Proof.
  open_attempt env. walk_attempt; try exact I;
    (split; [reflexivity | apply signatureFormatOk_length; assumption]).
Qed.

Lemma attempt_result cfg conn amt env k :
  match snd (attempt cfg conn amt env k) with
  | Returned (RResult res) =>
      on_sendRawTransaction env = Resolved res /\ result res = true
      /\ broadcastCalls (fst (attempt cfg conn amt env k)) <> []
  | Returned RUndefined =>
      callsOf (fst (attempt cfg conn amt env k))
      = [GetBalance (receivingAddress cfg)]
  | Returned RNull => False
  | Thrown _ =>
      broadcastCalls (fst (attempt cfg conn amt env k)) = []
      \/ accepted (on_sendRawTransaction env) = false
  | Next a => match a with end
  end.
Proof.
  open_attempt env. walk_attempt;
    try reflexivity; try (left; reflexivity); try (right; reflexivity);
    try (right; cbn; assumption);
    try (repeat split; try assumption; discriminate).
Qed.

Section RunCalls.

Variable cfg : ForwardingConfig.
Variable conn : Connection.
Variable receivedAmount : Z.
Variable envs : nat -> AttemptEnv.
Variable A : Type.
Variable f : Effect -> list A.

(** [f] observes calls only. *)
Hypothesis f_log : forall lv msg det, f (AddLog lv msg det) = [].
Hypothesis f_reset : forall steps, f (SetCurrentSteps steps) = [].
Hypothesis f_fail : forall msg, f (FailActiveSteps msg) = [].
Hypothesis f_delay : forall ms, f (Delay ms) = [].

Lemma catchBlock_unobserved (k : nat) (msg : string) :
  flat_map f (catchBlock k msg) = [].
Proof.
  unfold catchBlock. destruct (k <? maxRetries)%nat; cbn;
    rewrite ?f_log, ?f_fail, ?f_delay; reflexivity.
Qed.

Lemma forwardLoop_observed (P : A -> Prop) (d n : nat) :
  (forall k, (k < maxRetries)%nat ->
     Forall P (flat_map f (fst (attempt cfg conn receivedAmount (envs k) k)))) ->
  (n + d = maxRetries)%nat ->
  Forall P (flat_map f (fst (forwardLoop cfg conn receivedAmount envs n))).
Proof.
  intros Hpass. revert n. induction d as [|d IH]; intros n Hn;
    rewrite forwardLoop_step.
  - destruct (Nat.ltb_spec n maxRetries) as [H|H]; [lia|].
    cbn. unfold exhaustedEntry. rewrite f_log. constructor.
  - destruct (Nat.ltb_spec n maxRetries) as [H|H]; [|lia].
    specialize (Hpass n H).
    destruct (attempt cfg conn receivedAmount (envs n) n) as [t [[]|r|msg]];
      cbn [fst] in *.
    + exact Hpass.
    + rewrite !flat_map_app, catchBlock_unobserved.
      apply Forall_app. split; [exact Hpass|]. apply IH. lia.
Qed.

Lemma run_observed (P : A -> Prop) :
  (forall k, (k < maxRetries)%nat ->
     Forall P (flat_map f (fst (attempt cfg conn receivedAmount (envs k) k)))) ->
  Forall P (flat_map f (fst (forwardWithMultisig (Some cfg) conn receivedAmount envs))).
Proof.
  intros Hpass. unfold forwardWithMultisig.
  destruct (isConnected conn && tronLinkWeb conn
            && negb (String.eqb (approvingAddress conn) "")).
  - cbn [fst flat_map]. rewrite f_reset. cbn [app].
    apply (@forwardLoop_observed P maxRetries 0); [exact Hpass | reflexivity].
  - cbn. rewrite f_log. constructor.
Qed.

Lemma forwardLoop_count (d n : nat) :
  (forall k, (List.length (flat_map f (fst (attempt cfg conn receivedAmount (envs k) k)))
              <= 1)%nat) ->
  (n + d = maxRetries)%nat ->
  (List.length (flat_map f (fst (forwardLoop cfg conn receivedAmount envs n))) <= d)%nat.
Proof.
  intros Hpass. revert n. induction d as [|d IH]; intros n Hn;
    rewrite forwardLoop_step.
  - destruct (Nat.ltb_spec n maxRetries) as [H|H]; [lia|].
    cbn. unfold exhaustedEntry. rewrite f_log. cbn. lia.
  - destruct (Nat.ltb_spec n maxRetries) as [H|H]; [|lia].
    specialize (Hpass n).
    destruct (attempt cfg conn receivedAmount (envs n) n) as [t [[]|r|msg]];
      cbn [fst] in *.
    + lia.
    + rewrite !flat_map_app, catchBlock_unobserved, !length_app. cbn [List.length].
      specialize (IH (S n)). lia.
Qed.

Lemma run_count :
  (forall k, (List.length (flat_map f (fst (attempt cfg conn receivedAmount (envs k) k)))
              <= 1)%nat) ->
  (List.length
     (flat_map f (fst (forwardWithMultisig (Some cfg) conn receivedAmount envs)))
   <= maxRetries)%nat.
Proof.
  intros Hpass. unfold forwardWithMultisig.
  destruct (isConnected conn && tronLinkWeb conn
            && negb (String.eqb (approvingAddress conn) "")).
  - cbn [fst flat_map]. rewrite f_reset. cbn [app].
    apply (@forwardLoop_count maxRetries 0); [exact Hpass | reflexivity].
  - cbn. rewrite f_log. cbn. lia.
Qed.

(** What [f] observes of the loop is what it observes of its passes, in
    their order. *)
Lemma forwardLoop_passes (d n : nat) :
  (n + d = maxRetries)%nat ->
  let t := fst (forwardLoop cfg conn receivedAmount envs n) in
  flat_map f t
  = flat_map (fun j => flat_map f (fst (attempt cfg conn receivedAmount (envs j) j)))
      (seq n (attemptsStarted t))
  /\ (attemptsStarted t <= d)%nat.
Proof.
  revert n. induction d as [|d IH]; intros n Hn; cbv zeta; rewrite forwardLoop_step.
  - destruct (Nat.ltb_spec n maxRetries) as [H|H]; [lia|].
    cbn. unfold exhaustedEntry. rewrite f_log. split; [reflexivity | lia].
  - destruct (Nat.ltb_spec n maxRetries) as [H|H]; [|lia].
    destruct (attempt_started cfg conn receivedAmount (envs n) n) as [Hone _].
    destruct (attempt cfg conn receivedAmount (envs n) n) as [t [[]|r|msg]] eqn:Hpass;
      cbn [fst] in *.
    + rewrite Hone. cbn [seq flat_map]. rewrite Hpass, app_nil_r.
      split; [reflexivity | lia].
    + destruct (IH (S n)) as [IHf IHn]; [lia|].
      destruct (catchBlock_observed (S n) msg) as (_ & Hnone & _).
      rewrite !attemptsStarted_app, Hone, Hnone. cbn [Nat.add seq flat_map].
      rewrite !flat_map_app, catchBlock_unobserved, IHf, Hpass.
      split; [reflexivity | lia].
Qed.

Lemma run_passes :
  let t := fst (forwardWithMultisig (Some cfg) conn receivedAmount envs) in
  flat_map f t
  = flat_map (fun j => flat_map f (fst (attempt cfg conn receivedAmount (envs j) j)))
      (seq 0 (attemptsStarted t))
  /\ (attemptsStarted t <= maxRetries)%nat.
Proof.
  cbv zeta. unfold forwardWithMultisig.
  destruct (isConnected conn && tronLinkWeb conn
            && negb (String.eqb (approvingAddress conn) "")).
  - cbn [fst flat_map]. rewrite f_reset. cbn [app].
    change (attemptsStarted (SetCurrentSteps createForwardingSteps :: ?l))
      with (attemptsStarted l).
    apply (@forwardLoop_passes maxRetries 0). reflexivity.
  - cbn. rewrite f_log. split; [reflexivity | unfold maxRetries; lia].
Qed.

End RunCalls.

(** X6. Every transaction a run submits to the network is the answer of
    the external signer in one of its passes and carries a signature
    payload of at least 130 characters; a pass submits at most one. *)
Theorem X6_only_signed_transactions_are_broadcast :
  forall (cfg : ForwardingConfig) (conn : Connection) (receivedAmount : Z)
         (envs : nat -> AttemptEnv) (k : nat),
    match broadcastCalls (fst (attempt cfg conn receivedAmount (envs k) k)) with
    | [] => True
    | [tx] => on_signTransaction (envs k) = Resolved (Some tx)
              /\ 130 <= payloadLength tx
    | _ => False
    end
    /\ Forall (fun tx =>
                 exists j : nat,
                   (j < maxRetries)%nat
                   /\ on_signTransaction (envs j) = Resolved (Some tx)
                   /\ 130 <= payloadLength tx)
         (broadcastCalls (fst (forwardWithMultisig (Some cfg) conn receivedAmount envs))).
Proof.
  intros cfg conn receivedAmount envs k. split; [apply attempt_broadcast|].
  apply run_observed; try reflexivity.
  intros j Hj.
  pose proof (attempt_broadcast cfg conn receivedAmount (envs j) j) as H.
  fold (broadcastCalls (fst (attempt cfg conn receivedAmount (envs j) j))).
  destruct (broadcastCalls (fst (attempt cfg conn receivedAmount (envs j) j)))
    as [|tx [|tx' rest]]; [constructor| |contradiction].
  constructor; [|constructor]. exists j. tauto.
Qed.

(** X7. A run stops at the first broadcast the network accepts.  A pass
    returns the broadcast result exactly when it submitted a transaction
    and the network accepted it, whatever the confirmation query answers
    afterwards; a pass that throws had no transaction accepted.  So a run
    that returns a result returns an accepted one, and in every pass before
    the last nothing was submitted or the submission was not accepted. *)
Theorem X7_run_stops_at_first_accepted_broadcast :
  forall (cfg : ForwardingConfig) (conn : Connection) (receivedAmount : Z)
         (envs : nat -> AttemptEnv) (res : BroadcastResult),
    snd (forwardWithMultisig (Some cfg) conn receivedAmount envs) = RResult res ->
    result res = true
    /\ exists m : nat,
         (m < maxRetries)%nat
         /\ on_sendRawTransaction (envs m) = Resolved res
         /\ broadcastCalls (fst (attempt cfg conn receivedAmount (envs m) m)) <> []
         /\ forall j, (j < m)%nat ->
              broadcastCalls (fst (attempt cfg conn receivedAmount (envs j) j)) = []
              \/ accepted (on_sendRawTransaction (envs j)) = false.
Proof.
  intros cfg conn receivedAmount envs res Hres.
  assert (Hconn : connected conn = true).
  { unfold forwardWithMultisig in Hres. unfold connected.
    destruct (isConnected conn && tronLinkWeb conn
              && negb (String.eqb (approvingAddress conn) ""));
      [reflexivity | discriminate Hres]. }
  destruct (@forward_run_shape cfg conn receivedAmount envs Hconn)
    as (m & Hm & Hthrown & _ & Hsnd & Hret).
  rewrite Hres in Hsnd.
  destruct (Nat.ltb_spec m maxRetries) as [Hlt|Hge]; [|discriminate Hsnd].
  destruct Hret as [r Hr]. rewrite Hr in Hsnd. subst r.
  pose proof (attempt_result cfg conn receivedAmount (envs m) m) as Hlast.
  rewrite Hr in Hlast. destruct Hlast as (Hans & Hacc & Hsent).
  split; [exact Hacc|]. exists m. repeat (split; [assumption|]).
  intros j Hj.
  pose proof (attempt_result cfg conn receivedAmount (envs j) j) as Hj'.
  rewrite (Hthrown j Hj) in Hj'. exact Hj'.
Qed.

Lemma X7_witness_third_pass_accepted :
  result (mkBroadcast true "abcdef0123456789" None) = true
  /\ exists m : nat,
       (m < maxRetries)%nat
       /\ on_sendRawTransaction (failTwiceEnvs m)
          = Resolved (mkBroadcast true "abcdef0123456789" None)
       /\ broadcastCalls (fst (attempt sampleConfig sampleConnection 1000000
                                 (failTwiceEnvs m) m)) <> []
       /\ forall j, (j < m)%nat ->
            broadcastCalls (fst (attempt sampleConfig sampleConnection 1000000
                                   (failTwiceEnvs j) j)) = []
            \/ accepted (on_sendRawTransaction (failTwiceEnvs j)) = false.
Proof.
  apply (@X7_run_stops_at_first_accepted_broadcast sampleConfig sampleConnection
           1000000 failTwiceEnvs).
  vm_compute. reflexivity.
Defined.

Lemma attempt_call_order cfg conn amt env k :
  exists n : nat,
    (1 <= n <= List.length (callPlan cfg amt env))%nat
    /\ callsOf (fst (attempt cfg conn amt env k)) = firstn n (callPlan cfg amt env).
Proof.
  unfold callPlan, forwardAmountOf. open_attempt env.
  walk_attempt;
    first [ exists 7%nat; split; [cbn; lia | reflexivity]
          | exists 6%nat; split; [cbn; lia | reflexivity]
          | exists 5%nat; split; [cbn; lia | reflexivity]
          | exists 4%nat; split; [cbn; lia | reflexivity]
          | exists 3%nat; split; [cbn; lia | reflexivity]
          | exists 2%nat; split; [cbn; lia | reflexivity]
          | exists 1%nat; split; [cbn; lia | reflexivity] ].
Qed.

(** X8. The ledger and signer calls of a pass are an initial segment of
    one fixed sequence: balance query, build, account query, local
    signature, external signature, submission, balance query.  Each call
    has the arguments that the answers before it determine: the local
    signature signs the transaction that was built, the external signer is
    handed the locally signed one, and what is submitted is the signer's
    answer.  A pass makes all seven calls exactly when it returns the
    broadcast result.  The calls of a run are those of its passes, in their
    order, and a run makes at most 3 passes. *)
Theorem X8_calls_are_bounded_and_ordered :
  forall (cfg : ForwardingConfig) (conn : Connection) (receivedAmount : Z)
         (envs : nat -> AttemptEnv) (k : nat),
    let pass := fun j => fst (attempt cfg conn receivedAmount (envs j) j) in
    let run := fst (forwardWithMultisig (Some cfg) conn receivedAmount envs) in
    (exists n : nat,
       (1 <= n <= List.length (callPlan cfg receivedAmount (envs k)))%nat
       /\ callsOf (pass k) = firstn n (callPlan cfg receivedAmount (envs k)))
    /\ (List.length (callPlan cfg receivedAmount (envs k)) <= 7)%nat
    /\ (List.length (callsOf (pass k)) = 7%nat <->
        exists answer, snd (attempt cfg conn receivedAmount (envs k) k)
                       = Returned (RResult answer))
    /\ callsOf run = flat_map (fun j => callsOf (pass j)) (seq 0 (attemptsStarted run))
    /\ (attemptsStarted run <= maxRetries)%nat.
Proof.
  intros cfg conn receivedAmount envs k pass run.
  split; [apply attempt_call_order|]. split; [|split].
  - unfold callPlan.
    destruct (on_getBalance (envs k)); [|cbn; lia].
    destruct (on_sendTrx (envs k)); [|cbn; lia].
    destruct (on_getAccount (envs k)); [|cbn; lia].
    destruct (on_multiSign (envs k)); [|cbn; lia].
    destruct (on_signTransaction (envs k)) as [[?|]|]; cbn; lia.
  - subst pass. cbv beta. generalize (envs k) as env. intros env.
    open_attempt env.
    walk_attempt; split;
      first [ intros Hlen; discriminate Hlen
            | intros [answer Hret]; discriminate Hret
            | intros _; eexists; reflexivity
            | intros _; reflexivity ].
  - apply (@run_passes cfg conn receivedAmount envs); reflexivity.
Qed.

(** X9. The transfers a run asks the ledger to build are those of its
    passes, in their order, at most 3 passes.  The amount asked for in a
    pass is [min(receivedAmount, currentBalance - feeReserve)] for the
    balance read in that same pass: it is positive, at most the detected
    amount, and leaves at least the fee reserve of that balance; the
    transfer goes from the receiving to the destination address. *)
Theorem X9_forwarded_amount_is_bounded :
  forall (cfg : ForwardingConfig) (conn : Connection) (receivedAmount : Z)
         (envs : nat -> AttemptEnv) (k : nat),
    let pass := fun j => fst (attempt cfg conn receivedAmount (envs j) j) in
    let run := fst (forwardWithMultisig (Some cfg) conn receivedAmount envs) in
    sendTrxCalls run
    = flat_map (fun j => sendTrxCalls (pass j)) (seq 0 (attemptsStarted run))
    /\ (attemptsStarted run <= maxRetries)%nat
    /\ Forall (fun c =>
                 let '(to, amount, from) := c in
                 to = destinationAddress cfg /\ from = receivingAddress cfg
                 /\ 0 < amount <= receivedAmount
                 /\ exists currentBalance : Z,
                      on_getBalance (envs k) = Resolved currentBalance
                      /\ amount = Z.min receivedAmount
                                    (currentBalance - feeReserveSun cfg)
                      /\ feeReserveSun cfg <= currentBalance - amount)
         (sendTrxCalls (pass k)).
Proof.
  intros cfg conn receivedAmount envs k pass run.
  destruct (@run_passes cfg conn receivedAmount envs _
              (fun e => match e with
                        | Call (SendTrx to amount from) => [(to, amount, from)]
                        | _ => []
                        end)) as [Hpasses Hle]; try reflexivity.
  split; [exact Hpasses|]. split; [exact Hle|].
  subst pass. cbv beta. rewrite attempt_sendTrxCalls.
  destruct (on_getBalance (envs k)) as [b|msg] eqn:Hbal; [|constructor].
  destruct (negb (b =? 0) && (0 <? forwardAmountOf cfg receivedAmount b)) eqn:Hc;
    [|constructor].
  apply andb_true_iff in Hc as [_ Hpos]. apply Z.ltb_lt in Hpos.
  constructor; [|constructor].
  unfold forwardAmountOf in *. repeat split; try lia.
  exists b. repeat split; lia.
Qed.

(** ** The retry policy *)

(** A pass throws exactly when the answers lead it to a failure. *)
Lemma attempt_failure cfg conn amt env k :
  match snd (attempt cfg conn amt env k) with
  | Thrown _ => failureOf cfg amt env <> None
  | Returned _ => failureOf cfg amt env = None
  | Next a => match a with end
  end.
Proof.
  unfold failureOf, forwardAmountOf. open_attempt env.
  walk_attempt;
    repeat match goal with
           | |- context [?x <=? 0] => destruct (Z.leb_spec x 0); [try lia|try lia]; cbn
           end; try reflexivity; try discriminate; try lia.
Qed.

(** The [catch] block after a failing pass marks the step of the failure. *)
Lemma attempt_failed_step cfg conn amt env k (f : Failure) (msg : string) (now : Z)
    (prev : list ForwardingStep) :
  map step_id prev = stepIds ->
  failureOf cfg amt env = Some f ->
  let after :=
    failActiveSteps msg (stepsAfter now (fst (attempt cfg conn amt env k)) prev) in
  failureMarked f after = true
  /\ (f = AtBalance ->
      after = failActiveSteps msg
                (updateStep now "detect" completed
                   (Some [Sun amt; Lit " TRX received"]) prev)).
Proof.
  intros Hids.
  destruct prev as [|[i1 l1 s1 t1 d1] [|[i2 l2 s2 t2 d2] [|[i3 l3 s3 t3 d3]
    [|[i4 l4 s4 t4 d4] [|[i5 l5 s5 t5 d5] [|[i6 l6 s6 t6 d6]
    [|[i7 l7 s7 t7 d7] [|? ?]]]]]]]]; try discriminate Hids.
  cbn in Hids. injection Hids as -> -> -> -> -> -> ->.
  unfold failureOf, forwardAmountOf. open_attempt env.
  walk_attempt;
    repeat match goal with
           | |- context [?x <=? 0] => destruct (Z.leb_spec x 0); [try lia|try lia]; cbn
           end;
    intros Hf; try discriminate Hf; try lia;
    injection Hf as <-;
    (split; [reflexivity | intros Hb; first [discriminate Hb | reflexivity]]).
Qed.

(** C5. A run that passes the connection check makes at most 3 passes.
    A pass fails exactly when its [try] block throws: at the balance read
    before the create step (rejected, or 0), at the build, the local
    signature, the external signature, the validation or the submission
    (rejected, or not accepted).  The balance query of the confirm step is
    no such failure: a pass without one of these failures returns, with the
    accepted broadcast result or with nothing to forward.  Each of the
    first [m] passes fails and is followed by the [catch] block, which logs
    the failure under its attempt number [1..m], turns the step that was
    active into an error (none is active at the balance read) and leaves no
    step active, and which after the first and the second failure only
    waits the fixed delay; every pass starts over from the start entry and
    the balance read.  When [m < 3] the next pass returns and ends the run
    with its result; when [m = 3] the run logs the closing error entry as
    its last entry, returns [null] with no step active and the step of the
    third failure, if it has one, in error, and makes no further pass. *)
Theorem C5_bounded_retry :
  forall (cfg : ForwardingConfig) (conn : Connection) (receivedAmount now : Z)
         (envs : nat -> AttemptEnv) (steps : list ForwardingStep),
    connected conn = true ->
    let run := forwardWithMultisig (Some cfg) conn receivedAmount envs in
    let pass := fun k => attempt cfg conn receivedAmount (envs k) k in
    let msgs := thrownMessage cfg conn receivedAmount envs in
    exists m : nat,
      (m <= maxRetries)%nat
      /\ (forall k, (k < m)%nat -> snd (pass k) = Thrown (msgs k))
      /\ fst run
         = SetCurrentSteps createForwardingSteps
           :: failedPasses cfg conn receivedAmount envs msgs 0 m
           ++ (if (m <? maxRetries)%nat then fst (pass m) else [exhaustedEntry])
      /\ snd run
         = (if (m <? maxRetries)%nat
            then match snd (pass m) with Returned r => r | _ => RNull end
            else RNull)
      /\ (if (m <? maxRetries)%nat
          then exists r, snd (pass m) = Returned r
          else True)
      /\ attemptsStarted (fst run) = Nat.min (S m) maxRetries
      /\ failuresLogged (fst run) = map Z.of_nat (seq 1 m)
      /\ delays (failedPasses cfg conn receivedAmount envs msgs 0 m)
         = repeat retryDelay (Nat.min m 2)
      /\ (forall k, exists rest,
            fst (pass k)
            = fst (detectStep receivedAmount k)
              ++ Call (GetBalance (receivingAddress cfg)) :: rest)
      /\ (forall k,
            match snd (pass k) with
            | Thrown _ => failureOf cfg receivedAmount (envs k) <> None
            | Returned _ => failureOf cfg receivedAmount (envs k) = None
            | Next a => match a with end
            end)
      /\ (forall k,
            failureOf cfg receivedAmount (envs k) = None ->
            snd (pass k) = Returned RUndefined
            \/ exists answer : BroadcastResult,
                 snd (pass k) = Returned (RResult answer)
                 /\ on_sendRawTransaction (envs k) = Resolved answer
                 /\ result answer = true)
      /\ (forall (k : nat) (f : Failure) (prev : list ForwardingStep),
            map step_id prev = stepIds ->
            failureOf cfg receivedAmount (envs k) = Some f ->
            let after :=
              stepsAfter now (fst (pass k) ++ catchBlock (S k) (msgs k)) prev in
            anyStepActive after = false
            /\ failureMarked f after = true
            /\ (f = AtBalance ->
                after = failActiveSteps (msgs k)
                          (updateStep now "detect" completed
                             (Some [Sun receivedAmount; Lit " TRX received"]) prev)))
      /\ (if (m <? maxRetries)%nat then True
          else last (fst run) exhaustedEntry = exhaustedEntry
               /\ anyStepActive (stepsAfter now (fst run) steps) = false
               /\ exists f : Failure,
                    failureOf cfg receivedAmount (envs (pred maxRetries)) = Some f
                    /\ failureMarked f (stepsAfter now (fst run) steps) = true).
Proof.
  intros cfg conn receivedAmount now envs steps Hconn run pass msgs.
  destruct (@forward_run_shape cfg conn receivedAmount envs Hconn)
    as (m & Hm & Hthrown & Htrace & Hres & Hret).
  fold run in Htrace, Hres. exists m.
  repeat (split; [assumption|]).
  assert (Hstep : forall (k : nat) (f : Failure) (prev : list ForwardingStep),
            map step_id prev = stepIds ->
            failureOf cfg receivedAmount (envs k) = Some f ->
            let after :=
              stepsAfter now (fst (pass k) ++ catchBlock (S k) (msgs k)) prev in
            anyStepActive after = false
            /\ failureMarked f after = true
            /\ (f = AtBalance ->
                after = failActiveSteps (msgs k)
                          (updateStep now "detect" completed
                             (Some [Sun receivedAmount; Lit " TRX received"]) prev))).
  { intros k f prev Hids Hf after. subst after.
    rewrite stepsAfter_app, stepsAfter_catchBlock.
    split; [apply failActiveSteps_no_active|].
    exact (@attempt_failed_step cfg conn receivedAmount (envs k) k f (msgs k) now prev
             Hids Hf). }
  split; [|split; [|split; [|split; [|split; [|split; [|split]]]]]].
  - rewrite Htrace, run_attemptsStarted.
    destruct (Nat.ltb_spec m maxRetries) as [Hlt|Hge].
    + destruct (attempt_started cfg conn receivedAmount (envs m) m) as [-> _].
      unfold maxRetries in *. lia.
    + unfold maxRetries in *. cbn. lia.
  - rewrite Htrace, run_failuresLogged.
    destruct (Nat.ltb_spec m maxRetries) as [Hlt|Hge].
    + destruct (attempt_started cfg conn receivedAmount (envs m) m) as [_ ->].
      apply app_nil_r.
    + apply app_nil_r.
  - rewrite failed_delays by (intros k Hk; apply Hthrown; lia).
    unfold maxRetries in Hm.
    destruct m as [|[|[|[|m]]]]; try reflexivity; lia.
  - intros k. apply attempt_from_create.
  - intros k. apply attempt_failure.
  - intros k Hnone.
    pose proof (attempt_failure cfg conn receivedAmount (envs k) k) as Hfail.
    pose proof (attempt_result cfg conn receivedAmount (envs k) k) as Hans.
    unfold pass.
    destruct (snd (attempt cfg conn receivedAmount (envs k) k)) as [[]|r|msg].
    + destruct r as [|answer|]; [left; reflexivity | | contradiction Hans].
      right. exists answer. destruct Hans as (Hbr & Hacc & _). auto.
    + contradiction Hfail.
  - exact Hstep.
  - destruct (Nat.ltb_spec m maxRetries) as [Hlt|Hge]; [exact I|].
    assert (m = 3%nat) as -> by (unfold maxRetries in *; lia).
    split.
    { rewrite Htrace.
      change (SetCurrentSteps createForwardingSteps :: ?l ++ [exhaustedEntry])
        with ((SetCurrentSteps createForwardingSteps :: l) ++ [exhaustedEntry]).
      apply last_last. }
    pose proof (attempt_failure cfg conn receivedAmount (envs 2%nat) 2) as Hfail.
    assert (H2 : snd (pass 2%nat) = Thrown (msgs 2%nat)) by (apply Hthrown; lia).
    unfold pass in H2. rewrite H2 in Hfail.
    destruct (failureOf cfg receivedAmount (envs 2%nat)) as [f|] eqn:Hf;
      [clear Hfail | contradiction Hfail; reflexivity].
    assert (Hfinal : stepsAfter now (fst run) steps
              = stepsAfter now (fst (pass 2%nat) ++ catchBlock 3 (msgs 2%nat))
                  (stepsAfter now
                     (failedPasses cfg conn receivedAmount envs msgs 0 2)
                     createForwardingSteps)).
    { rewrite Htrace. cbn [failedPasses].
      change (SetCurrentSteps createForwardingSteps :: ?l)
        with ([SetCurrentSteps createForwardingSteps] ++ l).
      rewrite !app_nil_r, !stepsAfter_app. reflexivity. }
    rewrite Hfinal.
    destruct (Hstep 2%nat f
                (stepsAfter now (failedPasses cfg conn receivedAmount envs msgs 0 2)
                   createForwardingSteps)) as (Hact & Hmark & _).
    { apply stepsAfter_ids, failedPasses_stepResets. }
    { exact Hf. }
    split; [exact Hact|]. exists f. split; [exact Hf | exact Hmark].
Qed.

(** C5, as worded, fails twice.  On an empty wallet the run gives up
    after three passes with no step marked as an error; and when the
    balance query of the confirm step fails the run ends after one pass
    with the broadcast result, the confirm step still active. *)
Lemma C5_counterexample_retry_as_worded :
  ~ exhaustedRunEndsInErrorState /\ ~ everyStepFailureIsRetried.
Proof.
  split; intros H.
  - assert (Hnull : snd (forwardWithMultisig (Some sampleConfig) sampleConnection
                           1000000 emptyWalletEnvs) = RNull)
      by (vm_compute; reflexivity).
    pose proof (H sampleConfig sampleConnection 1000000 0 emptyWalletEnvs
                  eq_refl Hnull) as Herr.
    vm_compute in Herr. discriminate Herr.
  - assert (Hres : snd (forwardWithMultisig (Some sampleConfig) sampleConnection
                          1000000 unconfirmedEnvs)
                   = RResult (mkBroadcast true "abcdef0123456789" None))
      by (vm_compute; reflexivity).
    pose proof (H sampleConfig sampleConnection 1000000 0 unconfirmedEnvs
                  (mkBroadcast true "abcdef0123456789" None) eq_refl Hres) as Hall.
    vm_compute in Hall. discriminate Hall.
Qed.

Lemma C5_witness_two_failures_then_success :
  let cfg := sampleConfig in
  let conn := sampleConnection in
  let receivedAmount := 1000000 in
  let now := 0 in
  let envs := failTwiceEnvs in
  let steps : list ForwardingStep := [] in
  let run := forwardWithMultisig (Some cfg) conn receivedAmount envs in
  let pass := fun k => attempt cfg conn receivedAmount (envs k) k in
  let msgs := thrownMessage cfg conn receivedAmount envs in
  exists m : nat,
    (m <= maxRetries)%nat
    /\ (forall k, (k < m)%nat -> snd (pass k) = Thrown (msgs k))
    /\ fst run
       = SetCurrentSteps createForwardingSteps
         :: failedPasses cfg conn receivedAmount envs msgs 0 m
         ++ (if (m <? maxRetries)%nat then fst (pass m) else [exhaustedEntry])
    /\ snd run
       = (if (m <? maxRetries)%nat
          then match snd (pass m) with Returned r => r | _ => RNull end
          else RNull)
    /\ (if (m <? maxRetries)%nat
        then exists r, snd (pass m) = Returned r
        else True)
    /\ attemptsStarted (fst run) = Nat.min (S m) maxRetries
    /\ failuresLogged (fst run) = map Z.of_nat (seq 1 m)
    /\ delays (failedPasses cfg conn receivedAmount envs msgs 0 m)
       = repeat retryDelay (Nat.min m 2)
    /\ (forall k, exists rest,
          fst (pass k)
          = fst (detectStep receivedAmount k)
            ++ Call (GetBalance (receivingAddress cfg)) :: rest)
    /\ (forall k,
          match snd (pass k) with
          | Thrown _ => failureOf cfg receivedAmount (envs k) <> None
          | Returned _ => failureOf cfg receivedAmount (envs k) = None
          | Next a => match a with end
          end)
    /\ (forall k,
          failureOf cfg receivedAmount (envs k) = None ->
          snd (pass k) = Returned RUndefined
          \/ exists answer : BroadcastResult,
               snd (pass k) = Returned (RResult answer)
               /\ on_sendRawTransaction (envs k) = Resolved answer
               /\ result answer = true)
    /\ (forall (k : nat) (f : Failure) (prev : list ForwardingStep),
          map step_id prev = stepIds ->
          failureOf cfg receivedAmount (envs k) = Some f ->
          let after :=
            stepsAfter now (fst (pass k) ++ catchBlock (S k) (msgs k)) prev in
          anyStepActive after = false
          /\ failureMarked f after = true
          /\ (f = AtBalance ->
              after = failActiveSteps (msgs k)
                        (updateStep now "detect" completed
                           (Some [Sun receivedAmount; Lit " TRX received"]) prev)))
    /\ (if (m <? maxRetries)%nat then True
        else last (fst run) exhaustedEntry = exhaustedEntry
             /\ anyStepActive (stepsAfter now (fst run) steps) = false
             /\ exists f : Failure,
                  failureOf cfg receivedAmount (envs (pred maxRetries)) = Some f
                  /\ failureMarked f (stepsAfter now (fst run) steps) = true).
Proof.
  apply (@C5_bounded_retry sampleConfig sampleConnection 1000000 0 failTwiceEnvs []).
  reflexivity.
Defined.

(** ** The key index of the local signature *)

Lemma findKeyIndex_spec (a : string) (keys : list Key) :
  match findKeyIndex a keys with
  | Some i => (exists k, nth_error keys i = Some k /\ key_address k = a)
              /\ hasKey a (firstn i keys) = false
  | None => hasKey a keys = false
  end.
Proof.
  induction keys as [|k keys IH]; [reflexivity|]. cbn [findKeyIndex].
  destruct (String.eqb_spec (key_address k) a) as [Heq|Hne].
  - split; [exists k; split; [reflexivity | exact Heq] | reflexivity].
  - destruct (findKeyIndex a keys) as [i|]; cbn [option_map].
    + destruct IH as [[k' [Hnth Hk']] Hbefore]. split.
      * exists k'. split; assumption.
      * cbn [firstn hasKey existsb]. apply orb_false_iff. split.
        -- apply String.eqb_neq. exact Hne.
        -- exact Hbefore.
    + cbn [hasKey existsb]. apply orb_false_iff. split.
      * apply String.eqb_neq. exact Hne.
      * exact IH.
Qed.

(** X10. The key index handed to the local signature is the position of
    the first key of the first active permission whose address is the
    receiving address, and 0 when the account has no active permission or
    no such key; a pass asks for the local signature with that index
    only. *)
Theorem X10_local_signature_uses_own_key_index :
  forall (cfg : ForwardingConfig) (conn : Connection) (receivedAmount : Z)
         (env : AttemptEnv) (k : nat) (threshold0 : Z) (keys : list Key)
         (others : list Permission),
    match findKeyIndex (receivingAddress cfg) keys with
    | Some i =>
        (exists key, nth_error keys i = Some key
                     /\ key_address key = receivingAddress cfg)
        /\ hasKey (receivingAddress cfg) (firstn i keys) = false
        /\ receivingKeyIndexOf cfg
             (Some (mkAccount (Some (mkPermission threshold0 keys :: others)))) = i
    | None =>
        hasKey (receivingAddress cfg) keys = false
        /\ receivingKeyIndexOf cfg
             (Some (mkAccount (Some (mkPermission threshold0 keys :: others)))) = 0%nat
    end
    /\ receivingKeyIndexOf cfg None = 0%nat
    /\ receivingKeyIndexOf cfg (Some (mkAccount None)) = 0%nat
    /\ receivingKeyIndexOf cfg (Some (mkAccount (Some []))) = 0%nat
    /\ match on_getAccount env with
       | Resolved accountInfo =>
           Forall (eq (receivingKeyIndexOf cfg accountInfo))
             (multiSignIndices (fst (attempt cfg conn receivedAmount env k)))
       | Rejected _ => multiSignIndices (fst (attempt cfg conn receivedAmount env k)) = []
       end.
Proof.
  intros cfg conn receivedAmount env k threshold0 keys others.
  split; [|split; [|split; [|split]]]; try reflexivity.
  - pose proof (findKeyIndex_spec (receivingAddress cfg) keys) as H.
    unfold receivingKeyIndexOf. cbn.
    destruct (findKeyIndex (receivingAddress cfg) keys); tauto.
  - open_attempt env.
    walk_attempt;
      try match goal with
          | |- match ?a with Resolved _ => _ | Rejected _ => _ end => destruct a
          end;
      first [reflexivity | solve [constructor]
            | constructor; [reflexivity | constructor]].
Qed.

(** ** What a run writes to the previous balance *)

Lemma attempt_lastBalanceWrites cfg conn amt env k :
  lastBalanceWrites (fst (attempt cfg conn amt env k))
  = match snd (attempt cfg conn amt env k), on_getBalanceAfter env with
    | Returned (RResult _), Resolved balanceAfter => [Some balanceAfter]
    | _, _ => []
    end.
Proof. open_attempt env. walk_attempt; reflexivity. Qed.

(** X13. A run writes the previous balance at most once, and only at the
    end of a pass whose broadcast was accepted and whose balance query
    after the settlement delay answered: it then writes that balance.  A
    pass that fails, or that finds nothing to forward, writes nothing. *)
Theorem X13_run_writes_previous_balance_after_confirmation_only :
  forall (cfg : ForwardingConfig) (conn : Connection) (receivedAmount : Z)
         (envs : nat -> AttemptEnv) (k : nat),
    lastBalanceWrites (fst (attempt cfg conn receivedAmount (envs k) k))
    = match snd (attempt cfg conn receivedAmount (envs k) k),
            on_getBalanceAfter (envs k) with
      | Returned (RResult _), Resolved balanceAfter => [Some balanceAfter]
      | _, _ => []
      end
    /\ (List.length
          (lastBalanceWrites
             (fst (forwardWithMultisig (Some cfg) conn receivedAmount envs))) <= 1)%nat
    /\ Forall (fun w =>
                 exists (j : nat) (res : BroadcastResult) (balanceAfter : Z),
                   (j < maxRetries)%nat
                   /\ snd (attempt cfg conn receivedAmount (envs j) j)
                      = Returned (RResult res)
                   /\ on_getBalanceAfter (envs j) = Resolved balanceAfter
                   /\ w = Some balanceAfter)
         (lastBalanceWrites
            (fst (forwardWithMultisig (Some cfg) conn receivedAmount envs))).
Proof.
  intros cfg conn receivedAmount envs k.
  split; [apply attempt_lastBalanceWrites|]. split.
  - unfold forwardWithMultisig.
    destruct (isConnected conn && tronLinkWeb conn
              && negb (String.eqb (approvingAddress conn) "")) eqn:Hconn;
      [|cbn; lia].
    destruct (@forward_run_shape cfg conn receivedAmount envs Hconn)
      as (m & Hm & Hthrown & Htrace & _).
    unfold forwardWithMultisig in Htrace. rewrite Hconn in Htrace. rewrite Htrace.
    change (SetCurrentSteps createForwardingSteps :: ?l)
      with ([SetCurrentSteps createForwardingSteps] ++ l).
    unfold lastBalanceWrites. rewrite !flat_map_app, !length_app.
    assert (Hfailed : flat_map
              (fun e => match e with SetLastBalance b => [b] | _ => [] end)
              (failedPasses cfg conn receivedAmount envs
                 (thrownMessage cfg conn receivedAmount envs) 0 m) = []).
    { assert (Hgen : forall n, (forall j, (n <= j < n + m)%nat ->
                snd (attempt cfg conn receivedAmount (envs j) j)
                = Thrown (thrownMessage cfg conn receivedAmount envs j)) ->
              flat_map (fun e => match e with SetLastBalance b => [b] | _ => [] end)
                (failedPasses cfg conn receivedAmount envs
                   (thrownMessage cfg conn receivedAmount envs) n m) = []).
      { clear Htrace Hthrown Hm. induction m as [|m IH]; intros n Hall; [reflexivity|].
        cbn [failedPasses]. rewrite !flat_map_app.
        rewrite IH by (intros j Hj; apply Hall; lia).
        pose proof (attempt_lastBalanceWrites cfg conn receivedAmount (envs n) n) as Hw.
        unfold lastBalanceWrites in Hw. rewrite Hw, (Hall n) by lia.
        unfold catchBlock. destruct (S n <? maxRetries)%nat; reflexivity. }
      apply Hgen. intros j Hj. apply Hthrown. lia. }
    rewrite Hfailed. cbn [flat_map List.length app Nat.add].
    destruct (m <? maxRetries)%nat; [|cbn; lia].
    pose proof (attempt_lastBalanceWrites cfg conn receivedAmount (envs m) m) as Hw.
    unfold lastBalanceWrites in Hw. rewrite Hw.
    destruct (snd (attempt cfg conn receivedAmount (envs m) m)) as [[]|[| |]|];
      destruct (on_getBalanceAfter (envs m)); cbn; lia.
  - apply run_observed; try reflexivity.
    intros j Hj.
    fold (lastBalanceWrites (fst (attempt cfg conn receivedAmount (envs j) j))).
    rewrite attempt_lastBalanceWrites.
    destruct (snd (attempt cfg conn receivedAmount (envs j) j)) as [[]|[|res|]|] eqn:Hs;
      try constructor.
    destruct (on_getBalanceAfter (envs j)) as [after|] eqn:Ha; constructor;
      [|constructor].
    exists j, res, after. repeat split; assumption.
Qed.

(** ** The balance monitor *)

(** X14. [monitorBalance] classifies the answer of the ledger against the
    previous balance its closure holds.  A balance above it sets one
    forwarding timer, for the difference, and is written as the new
    previous balance; a balance below it is written and sets no timer; an
    equal balance writes nothing; without a previous balance the answer is
    written and sets no timer.  Every answered poll advances the heartbeat
    counter, which returns to 0 at the 20th.  A failed query logs one error
    and writes nothing, and without the ledger client nothing happens. *)
Theorem X14_monitorBalance_classifies_the_balance :
  forall (tronWebRef : option ForwardingConfig) (lastBalance : option Z)
         (count : nat) (balanceInSun : Rpc Z),
    let t := monitorBalance tronWebRef lastBalance count balanceInSun in
    match tronWebRef, balanceInSun with
    | Some cfg, Resolved b =>
        timeoutsOf t
        = match lastBalance with
          | Some l => if l <? b then [b - l] else []
          | None => []
          end
        /\ lastBalanceWrites t
           = match lastBalance with
             | Some l => if b =? l then [] else [Some b]
             | None => [Some b]
             end
        /\ last (heartbeatWrites t) count
           = (if (20 <=? S count)%nat then 0%nat else S count)
        /\ countLevel DETECTION t
           = match lastBalance with
             | Some l => if l <? b then 1%nat else 0%nat
             | None => 0%nat
             end
        /\ callsOf t = [GetBalance (receivingAddress cfg)]
    | Some cfg, Rejected _ =>
        timeoutsOf t = [] /\ lastBalanceWrites t = [] /\ heartbeatWrites t = []
        /\ levelsLogged t = [ERROR]
        /\ callsOf t = [GetBalance (receivingAddress cfg)]
    | None, _ => t = []
    end.
Proof.
  intros tronWebRef lastBalance count balanceInSun t. subst t.
  unfold monitorBalance, heartbeat.
  destruct tronWebRef as [cfg|]; [|reflexivity].
  destruct balanceInSun as [b|msg]; [|repeat split].
  destruct (20 <=? S count)%nat; cbn;
    (destruct lastBalance as [l|]; cbn; [|repeat split]);
    destruct (Z.gtb_spec b l), (Z.ltb_spec b l), (Z.ltb_spec l b), (Z.eqb_spec b l);
    try lia; repeat split.
Qed.

(** ** The hook *)

(** What the effects of a callback leave of the hook's monitor state. *)
Lemma applyEffects_fields (conn : Connection) (t : list Effect) (h : Hook) :
  h_intervalRef (applyEffects conn t h) = h_intervalRef h
  /\ h_tronWebRef (applyEffects conn t h) = h_tronWebRef h
  /\ h_isRunning (applyEffects conn t h) = h_isRunning h
  /\ h_connection (applyEffects conn t h) = h_connection h
  /\ h_heartbeatCountRef (applyEffects conn t h)
     = last (heartbeatWrites t) (h_heartbeatCountRef h)
  /\ h_lastBalance (applyEffects conn t h)
     = last (lastBalanceWrites t) (h_lastBalance h)
  /\ h_multisigStatus (applyEffects conn t h)
     = last (multisigStatusWrites t) (h_multisigStatus h).
Proof.
  revert h. induction t as [|e t IH]; intros h; [repeat split|].
  change (applyEffects conn (e :: t) h)
    with (applyEffects conn t (applyEffect conn h e)).
  destruct (IH (applyEffect conn h e)) as (-> & -> & -> & -> & -> & -> & ->).
  assert (Hlast : forall (A : Type) (x d : A) (l : list A),
            last (x :: l) d = last l x).
  { intros A x d l. revert x d. induction l as [|y l IHl]; intros x d;
      [reflexivity|]. cbn [last] in *. destruct l; [reflexivity|]. apply IHl. }
  destruct e; cbn [heartbeatWrites lastBalanceWrites multisigStatusWrites flat_map app];
    rewrite ?Hlast; repeat split.
Qed.

Lemma monitorBalance_writes (tronWebRef : option ForwardingConfig)
    (lastBalance : option Z) (count : nat) (balanceInSun : Rpc Z) :
  last (heartbeatWrites (monitorBalance tronWebRef lastBalance count balanceInSun)) count
  = match tronWebRef, balanceInSun with
    | Some _, Resolved _ => if (20 <=? S count)%nat then 0%nat else S count
    | _, _ => count
    end
  /\ lastBalanceWrites (monitorBalance tronWebRef lastBalance count balanceInSun)
     = match tronWebRef, balanceInSun, lastBalance with
       | Some _, Resolved b, Some l => if b =? l then [] else [Some b]
       | Some _, Resolved b, None => [Some b]
       | _, _, _ => []
       end.
Proof.
  unfold monitorBalance, heartbeat.
  destruct tronWebRef as [cfg|]; [|destruct balanceInSun, lastBalance; split; reflexivity].
  destruct balanceInSun as [b|msg]; [|destruct lastBalance; split; reflexivity].
  destruct (20 <=? S count)%nat; cbn;
    (destruct lastBalance as [l|]; cbn; [|split; reflexivity]);
    destruct (Z.gtb_spec b l), (Z.ltb_spec b l), (Z.eqb_spec b l);
    try lia; split; reflexivity.
Qed.

Lemma runMonitor_fields (cl : Closure) (answer : Rpc Z) (h : Hook) :
  h_intervalRef (runMonitor cl answer h) = h_intervalRef h
  /\ h_tronWebRef (runMonitor cl answer h) = h_tronWebRef h
  /\ h_isRunning (runMonitor cl answer h) = h_isRunning h
  /\ h_connection (runMonitor cl answer h) = h_connection h
  /\ h_running (runMonitor cl answer h) = h_running h.
Proof.
  unfold runMonitor.
  match goal with
  | |- context [applyEffects ?c ?t ?h0] =>
      destruct (applyEffects_fields c t h0) as (-> & -> & -> & -> & _);
      destruct (applyEffects_timers_running c t h0) as [_ ->]
  end.
  repeat split.
Qed.

Lemma runMonitor_heartbeat (cl : Closure) (answer : Rpc Z) (h : Hook) :
  h_heartbeatCountRef (runMonitor cl answer h)
  = match h_tronWebRef h, answer with
    | Some _, Resolved _ =>
        if (20 <=? S (h_heartbeatCountRef h))%nat then 0%nat
        else S (h_heartbeatCountRef h)
    | _, _ => h_heartbeatCountRef h
    end.
Proof.
  unfold runMonitor.
  match goal with
  | |- context [applyEffects ?c ?t ?h0] =>
      destruct (applyEffects_fields c t h0) as (_ & _ & _ & _ & -> & _)
  end.
  destruct (monitorBalance_writes (h_tronWebRef h) (seen_lastBalance cl)
              (h_heartbeatCountRef h) answer) as [-> _].
  reflexivity.
Qed.

Lemma runMonitor_lastBalance (cl : Closure) (answer : Rpc Z) (h : Hook) :
  h_lastBalance (runMonitor cl answer h)
  = match h_tronWebRef h, answer, seen_lastBalance cl with
    | Some _, Resolved b, Some l => if b =? l then h_lastBalance h else Some b
    | Some _, Resolved b, None => Some b
    | _, _, _ => h_lastBalance h
    end.
Proof.
  unfold runMonitor.
  match goal with
  | |- context [applyEffects ?c ?t ?h0] =>
      destruct (applyEffects_fields c t h0) as (_ & _ & _ & _ & _ & -> & _)
  end.
  destruct (monitorBalance_writes (h_tronWebRef h) (seen_lastBalance cl)
              (h_heartbeatCountRef h) answer) as [_ ->].
  destruct (h_tronWebRef h); [|reflexivity].
  destruct answer as [b|]; [|reflexivity].
  destruct (seen_lastBalance cl) as [l|]; [|reflexivity].
  destruct (b =? l); reflexivity.
Qed.

(** X15. On a hook that monitors, each poll that the ledger answers
    advances the heartbeat counter by one, modulo 20, and a poll that fails
    leaves it: after any sequence of polls the counter is the old one plus
    the number of answered polls, modulo 20. *)
Theorem X15_heartbeat_counts_answered_polls_mod_20 :
  forall (h : Hook) (cl : Closure) (cfg : ForwardingConfig)
         (answers : list (Rpc Z)),
    h_intervalRef h = Some cl ->
    h_tronWebRef h = Some cfg ->
    (h_heartbeatCountRef h < 20)%nat ->
    h_heartbeatCountRef (runEvents (ticks answers) h)
    = ((h_heartbeatCountRef h + answered answers) mod 20)%nat.
Proof.
  intros h cl cfg answers. revert h.
  induction answers as [|a answers IH]; intros h Hint Href Hlt.
  - change (answered []) with 0%nat.
    rewrite Nat.add_0_r, Nat.mod_small by assumption. reflexivity.
  - change (runEvents (ticks (a :: answers)) h)
      with (runEvents (ticks answers) (step h (Tick a))).
    assert (Hstep : step h (Tick a) = runMonitor cl a h).
    { cbn [step]. rewrite Hint. reflexivity. }
    destruct (runMonitor_fields cl a h) as (Hint' & Href' & _).
    pose proof (runMonitor_heartbeat cl a h) as Hhb. rewrite Href in Hhb.
    rewrite Hstep, IH.
    + rewrite Hhb. unfold answered. cbn [filter].
      destruct a as [b|msg]; cbn [List.length].
      * destruct (Nat.leb_spec 20 (S (h_heartbeatCountRef h))) as [Hge|Hsmall].
        -- assert (h_heartbeatCountRef h = 19)%nat as -> by lia.
           match goal with
           | |- _ = ((19 + S ?n) mod 20)%nat =>
               replace (19 + S n)%nat with (n + 1 * 20)%nat by lia;
               rewrite Nat.Div0.mod_add
           end.
           reflexivity.
        -- f_equal. lia.
      * reflexivity.
    + rewrite Hint'. exact Hint.
    + rewrite Href'. exact Href.
    + rewrite Hhb. destruct a; [|exact Hlt].
      destruct (Nat.leb_spec 20 (S (h_heartbeatCountRef h))); lia.
Qed.

Lemma X15_witness_wraps_at_twenty :
  h_heartbeatCountRef
    (runEvents (ticks [Resolved 100; Rejected "timeout"; Resolved 100]) monitoringHook)
  = ((h_heartbeatCountRef monitoringHook
      + answered [Resolved 100%Z; Rejected "timeout"; Resolved 100%Z]) mod 20)%nat.
Proof.
  apply (@X15_heartbeat_counts_answered_polls_mod_20 monitoringHook
           (mkClosure (Some 100) sampleConnection (mkMultisigStatus true 2 2 true true))
           sampleConfig).
  - reflexivity.
  - reflexivity.
  - vm_compute. lia.
Defined.

Lemma dropNth_last {A : Type} (l : list A) (x : A) :
  dropNth (List.length l) (l ++ [x]) = l.
Proof. induction l as [|y l IH]; [reflexivity|]. cbn. rewrite IH. reflexivity. Qed.

(** [Tick] is a poll that is answered before anything else happens. *)
Lemma tick_is_an_answered_poll (s : Session) (balanceInSun : Rpc Z) :
  let s' := runSession [PollStarts; PollAnswers (List.length (s_polls s)) balanceInSun]
              s in
  s_hook s' = step (s_hook s) (Tick balanceInSun)
  /\ s_polls s' = s_polls s.
Proof.
  unfold runSession. cbn [fold_left sessionStep step].
  destruct (h_intervalRef (s_hook s)) as [cl|] eqn:Hint.
  - cbn [s_polls s_hook].
    rewrite nth_error_app2, Nat.sub_diag by lia. cbn [nth_error s_hook s_polls].
    rewrite dropNth_last. split; reflexivity.
  - cbn [sessionStep].
    destruct (nth_error (s_polls s) (List.length (s_polls s))) as [cl|] eqn:Hnth;
      [|split; reflexivity].
    assert (Hlt : (List.length (s_polls s) < List.length (s_polls s))%nat)
      by (apply nth_error_Some; rewrite Hnth; discriminate).
    lia.
Qed.

Lemma runMonitor_timers (cl : Closure) (answer : Rpc Z) (h : Hook)
    (cfg : ForwardingConfig) :
  h_tronWebRef h = Some cfg ->
  h_timers (runMonitor cl answer h)
  = h_timers h ++ sessionTimers (seen_connection cl) (seen_lastBalance cl) [answer].
Proof.
  intros Href. unfold runMonitor.
  match goal with
  | |- context [applyEffects ?c ?t ?h0] =>
      destruct (applyEffects_timers_running c t h0) as [-> _]
  end.
  rewrite monitorBalance_timeouts, Href. unfold sessionTimers. cbn [flat_map].
  destruct (seen_lastBalance cl) as [l|]; [|destruct answer; reflexivity].
  destruct answer as [b|]; [|reflexivity].
  rewrite Z.gtb_ltb. destruct (l <? b); reflexivity.
Qed.

(** X16. Stopping the monitor unregisters the interval's callback, so no
    further poll starts, and clears the step list; it does not cancel a
    poll that waits for the ledger.  When that answer comes the poll is
    handled as if the monitor ran, against the previous balance that its
    closure holds: it writes the previous balance and, for a balance above
    the one it holds, sets a forwarding timer for the difference, while the
    hook stays marked as stopped. *)
Theorem X16_stop_does_not_cancel_a_poll_in_flight :
  forall (s : Session) (i : nat) (cl : Closure) (cfg : ForwardingConfig)
         (answer : Rpc Z),
    nth_error (s_polls s) i = Some cl ->
    h_tronWebRef (s_hook s) = Some cfg ->
    let stopped := sessionStep s (Happens Stop) in
    let resumed := sessionStep stopped (PollAnswers i answer) in
    h_intervalRef (s_hook stopped) = None
    /\ h_isRunning (s_hook stopped) = false
    /\ h_currentSteps (s_hook stopped) = []
    /\ s_polls stopped = s_polls s
    /\ sessionStep stopped PollStarts = stopped
    /\ h_isRunning (s_hook resumed) = false
    /\ h_intervalRef (s_hook resumed) = None
    /\ s_polls resumed = dropNth i (s_polls s)
    /\ h_lastBalance (s_hook resumed)
       = match answer, seen_lastBalance cl with
         | Resolved b, Some l => if b =? l then h_lastBalance (s_hook s) else Some b
         | Resolved b, None => Some b
         | Rejected _, _ => h_lastBalance (s_hook s)
         end
    /\ h_timers (s_hook resumed)
       = h_timers (s_hook s)
         ++ sessionTimers (seen_connection cl) (seen_lastBalance cl) [answer]
    /\ h_running (s_hook resumed) = h_running (s_hook s).
Proof.
  intros s i cl cfg answer Hpoll Href stopped resumed.
  assert (Hres : s_hook resumed = runMonitor cl answer (stopMonitoring (s_hook s))).
  { subst resumed stopped. cbn [sessionStep s_polls s_hook step].
    rewrite Hpoll. reflexivity. }
  assert (Hpolls : s_polls resumed = dropNth i (s_polls s)).
  { subst resumed stopped. cbn [sessionStep s_polls s_hook step].
    rewrite Hpoll. reflexivity. }
  repeat (split; [reflexivity|]).
  rewrite Hres.
  destruct (runMonitor_fields cl answer (stopMonitoring (s_hook s)))
    as (-> & _ & -> & _ & ->).
  rewrite (runMonitor_lastBalance cl answer (stopMonitoring (s_hook s))).
  rewrite (@runMonitor_timers cl answer (stopMonitoring (s_hook s)) cfg) by exact Href.
  change (h_tronWebRef (stopMonitoring (s_hook s))) with (h_tronWebRef (s_hook s)).
  rewrite Href.
  repeat (split; [reflexivity|]).
  split; [exact Hpolls|]. split; [|split; reflexivity].
  destruct answer as [b|]; [|reflexivity].
  destruct (seen_lastBalance cl); reflexivity.
Qed.

Lemma X16_witness_poll_answered_after_stop :
  let stopped := sessionStep pollingSession (Happens Stop) in
  let resumed := sessionStep stopped (PollAnswers 0 (Resolved 250)) in
  h_intervalRef (s_hook stopped) = None
  /\ h_isRunning (s_hook stopped) = false
  /\ h_currentSteps (s_hook stopped) = []
  /\ s_polls stopped = s_polls pollingSession
  /\ sessionStep stopped PollStarts = stopped
  /\ h_isRunning (s_hook resumed) = false
  /\ h_intervalRef (s_hook resumed) = None
  /\ s_polls resumed = []
  /\ h_lastBalance (s_hook resumed) = Some 250
  /\ h_timers (s_hook resumed)
     = [mkPending 50 sampleConnection; mkPending 150 sampleConnection]
  /\ h_running (s_hook resumed) = [].
Proof.
  apply (@X16_stop_does_not_cancel_a_poll_in_flight pollingSession 0%nat
           (mkClosure (Some 100) sampleConnection (mkMultisigStatus true 2 2 true true))
           sampleConfig (Resolved 250)).
  - reflexivity.
  - reflexivity.
Defined.

Lemma startAllowed_true (h : Hook) :
  startAllowed h = true ->
  exists cfg, h_tronWebRef h = Some cfg
              /\ isConnected (h_connection h) = true
              /\ String.eqb (approvingAddress (h_connection h)) "" = false
              /\ isConfigured (h_multisigStatus h) = true.
Proof.
  unfold startAllowed. intros H.
  apply andb_true_iff in H as [H Hcfg]. apply andb_true_iff in H as [H Haddr].
  apply andb_true_iff in H as [Href Hconn].
  destruct (h_tronWebRef h) as [cfg|]; [|discriminate Href].
  exists cfg. apply negb_true_iff in Haddr. auto.
Qed.

(** X17. [startMonitoring] starts the monitor exactly when the ledger
    client is set, the signer is connected with an address, and the
    multisig status is configured.  Then it registers the callbacks of its
    render, marks the hook running, and its first poll counts as the first
    heartbeat; the previous balance ends as the polled balance, except that
    it stays unset when the poll fails or answers the balance the render
    already held.  Otherwise it logs one error and changes nothing else. *)
Theorem X17_start_is_guarded :
  forall (h : Hook) (answer : Rpc Z),
    let h' := step h (Start answer) in
    if startAllowed h
    then h_isRunning h' = true
         /\ h_intervalRef h' = Some (closureOf h)
         /\ h_heartbeatCountRef h'
            = match answer with Resolved _ => 1%nat | Rejected _ => 0%nat end
         /\ h_lastBalance h'
            = match answer, h_lastBalance h with
              | Resolved b, Some l => if b =? l then None else Some b
              | Resolved b, None => Some b
              | Rejected _, _ => None
              end
    else h_isRunning h' = h_isRunning h
         /\ h_intervalRef h' = h_intervalRef h
         /\ h_lastBalance h' = h_lastBalance h
         /\ h_heartbeatCountRef h' = h_heartbeatCountRef h
         /\ h_timers h' = h_timers h
         /\ h_running h' = h_running h
         /\ option_map level (hd_error (h_logs h')) = Some ERROR.
Proof.
  intros h answer h'. subst h'. cbn [step]. unfold startMonitoring.
  destruct (startAllowed h) eqn:Hallowed.
  - destruct (startAllowed_true h Hallowed) as (cfg & Href & Hconn & Haddr & Hcfg).
    rewrite Href. cbn [closureOf seen_connection seen_multisigStatus].
    rewrite Hconn, Haddr, Hcfg. cbn [negb orb].
    match goal with
    | |- context [runMonitor ?cl ?a ?h0] =>
        destruct (runMonitor_fields cl a h0) as (-> & _ & -> & _);
        rewrite (runMonitor_heartbeat cl a h0), (runMonitor_lastBalance cl a h0);
        change (h_tronWebRef h0) with (h_tronWebRef h);
        change (h_heartbeatCountRef h0) with 0%nat;
        change (h_lastBalance h0) with (@None Z)
    end.
    rewrite Href. cbn [seen_lastBalance].
    repeat split.
  - unfold startAllowed in Hallowed.
    destruct (h_tronWebRef h) as [cfg|]; [|repeat split].
    cbn [closureOf seen_connection seen_multisigStatus].
    destruct (isConnected (h_connection h)); cbn [negb orb andb] in *;
      [|repeat split].
    destruct (String.eqb (approvingAddress (h_connection h)) "");
      cbn [negb orb andb] in *; [repeat split|].
    rewrite Hallowed. cbn [negb]. repeat split.
Qed.

(** ** Invariants of the hook *)

Lemma attempt_timeouts cfg conn amt env k :
  timeoutsOf (fst (attempt cfg conn amt env k)) = []
  /\ heartbeatWrites (fst (attempt cfg conn amt env k)) = [].
Proof. open_attempt env. walk_attempt; split; reflexivity. Qed.

Lemma Forall_False_nil (A : Type) (l : list A) :
  Forall (fun _ => False) l -> l = [].
Proof. destruct l; [reflexivity|]. intros H. inversion H. contradiction. Qed.

Lemma run_timeouts (tronWebRef : option ForwardingConfig) (conn : Connection)
    (amt : Z) (envs : nat -> AttemptEnv) :
  timeoutsOf (fst (forwardWithMultisig tronWebRef conn amt envs)) = [].
Proof.
  destruct tronWebRef as [cfg|]; [|reflexivity].
  apply Forall_False_nil. apply run_observed; try reflexivity.
  intros j _. fold (timeoutsOf (fst (attempt cfg conn amt (envs j) j))).
  rewrite (proj1 (attempt_timeouts cfg conn amt (envs j) j)). constructor.
Qed.

Lemma verifyMultisigSetup_timeouts (tronWebRef : option ForwardingConfig)
    (approving : string) (answer : Rpc (option AccountInfo)) :
  timeoutsOf (verifyMultisigSetup tronWebRef approving answer) = [].
Proof.
  unfold verifyMultisigSetup. destruct tronWebRef; [|reflexivity].
  destruct (String.eqb approving ""); [reflexivity|].
  destruct answer as [[info|]|]; try reflexivity.
  cbn. destruct (isConfigured _); reflexivity.
Qed.

Lemma dropNth_Forall (A : Type) (P : A -> Prop) (i : nat) (l : list A) :
  Forall P l -> Forall P (dropNth i l).
Proof.
  revert i. induction l as [|x l IH]; intros i H; [destruct i; exact H|].
  inversion H as [|? ? Hx Hl]; subst.
  destruct i; cbn; [exact Hl | constructor; [exact Hx | apply IH, Hl]].
Qed.

Lemma monitor_timeouts_positive (tronWebRef : option ForwardingConfig)
    (lastBalance : option Z) (count : nat) (answer : Rpc Z) :
  Forall (fun a => 0 < a) (timeoutsOf (monitorBalance tronWebRef lastBalance count answer)).
Proof.
  rewrite monitorBalance_timeouts.
  destruct tronWebRef; [|constructor]. destruct lastBalance as [l|]; [|constructor].
  destruct answer as [b|]; [|constructor].
  destruct (Z.gtb_spec b l); constructor; [lia | constructor].
Qed.

Lemma step_pending_positive (h : Hook) (ev : Event) :
  Forall (fun p => 0 < pending_amount p) (h_timers h ++ h_running h) ->
  Forall (fun p => 0 < pending_amount p) (h_timers (step h ev) ++ h_running (step h ev)).
Proof.
  intros H.
  assert (Hmon : forall cl answer h0,
            h_timers h0 = h_timers h -> h_running h0 = h_running h ->
            Forall (fun p => 0 < pending_amount p)
              (h_timers (runMonitor cl answer h0) ++ h_running (runMonitor cl answer h0))).
  { intros cl answer h0 Ht Hr. unfold runMonitor.
    match goal with
    | |- context [applyEffects ?c ?t ?h1] =>
        destruct (applyEffects_timers_running c t h1) as [-> ->]
    end.
    rewrite Ht, Hr. apply Forall_app in H as [Htim Hrun].
    rewrite !Forall_app. repeat split; try assumption.
    apply Forall_map. cbn [pending_amount]. apply monitor_timeouts_positive. }
  destruct ev; cbn [step].
  - exact H.
  - match goal with
    | |- context [applyEffects ?c ?t ?h1] =>
        destruct (applyEffects_timers_running c t h1) as [-> ->]
    end.
    rewrite verifyMultisigSetup_timeouts. cbn [map]. rewrite app_nil_r. exact H.
  - unfold startMonitoring.
    destruct (h_tronWebRef h) as [cfg|]; [|exact H].
    destruct (_ || _); [exact H|]. destruct (negb _); [exact H|].
    apply Hmon; reflexivity.
  - exact H.
  - destruct (h_intervalRef h) as [cl|]; [|exact H]. apply Hmon; reflexivity.
  - destruct (h_timers h) as [|p rest] eqn:Htim; [rewrite Htim; exact H|].
    cbn [h_timers h_running set_running set_timers].
    apply Forall_app in H as [Ht Hr]. inversion Ht as [|? ? Hp Hrest]; subst.
    rewrite !Forall_app. repeat split; try assumption. constructor; [exact Hp|constructor].
  - destruct (nth_error (h_running h) i) as [p|]; [|exact H].
    match goal with
    | |- context [applyEffects ?c ?t ?h1] =>
        destruct (applyEffects_timers_running c t h1) as [-> ->]
    end.
    rewrite run_timeouts. cbn [map]. rewrite app_nil_r.
    cbn [h_timers h_running set_running].
    apply Forall_app in H as [Ht Hr]. apply Forall_app. split; [exact Ht|].
    apply dropNth_Forall. exact Hr.
  - exact H.
Qed.

(** X18. Whatever happens to the hook after its initialisation, every
    forwarding timer it holds and every run it has started is for a
    positive amount: the monitor sets a timer only for the excess of a
    balance over a smaller previous balance, and nothing else creates or
    changes one. *)
Theorem X18_pending_amounts_are_positive :
  forall (cfg : ForwardingConfig) (evs : list Event),
    Forall (fun p => 0 < pending_amount p)
      (h_timers (runEvents evs (initialHook cfg))
       ++ h_running (runEvents evs (initialHook cfg))).
Proof.
  intros cfg evs.
  assert (Hgen : forall h,
            Forall (fun p => 0 < pending_amount p) (h_timers h ++ h_running h) ->
            Forall (fun p => 0 < pending_amount p)
              (h_timers (runEvents evs h) ++ h_running (runEvents evs h))).
  { induction evs as [|ev evs IH]; intros h H; [exact H|].
    apply (IH (step h ev)). apply step_pending_positive. exact H. }
  apply Hgen. constructor.
Qed.

(** X19. Whatever happens to the hook after its initialisation, its log
    holds at most 100 entries and its heartbeat counter stays below 20. *)
Theorem X19_log_and_heartbeat_stay_bounded :
  forall (cfg : ForwardingConfig) (evs : list Event),
    (List.length (h_logs (runEvents evs (initialHook cfg))) <= 100)%nat
    /\ (h_heartbeatCountRef (runEvents evs (initialHook cfg)) < 20)%nat.
Proof.
  intros cfg evs. split.
  - apply runEvents_logs_capped. cbn. lia.
  - assert (Hgen : forall h, (h_heartbeatCountRef h < 20)%nat ->
              (h_heartbeatCountRef (runEvents evs h) < 20)%nat).
    { induction evs as [|ev evs IH]; intros h H; [exact H|].
      apply (IH (step h ev)).
      assert (Hmon : forall cl answer h0,
                (h_heartbeatCountRef h0 < 20)%nat ->
                (h_heartbeatCountRef (runMonitor cl answer h0) < 20)%nat).
      { intros cl answer h0 H0. rewrite runMonitor_heartbeat.
        destruct (h_tronWebRef h0); [|exact H0]. destruct answer; [|exact H0].
        destruct (Nat.leb_spec 20 (S (h_heartbeatCountRef h0))); lia. }
      destruct ev; cbn [step]; try exact H.
      - match goal with
        | |- context [applyEffects ?c ?t ?h1] =>
            destruct (applyEffects_fields c t h1) as (_ & _ & _ & _ & -> & _)
        end.
        unfold verifyMultisigSetup. destruct (h_tronWebRef h); [|exact H].
        destruct (String.eqb _ ""); [exact H|].
        destruct accountInfo as [[info|]|]; try exact H.
        cbn. destruct (isConfigured _); exact H.
      - unfold startMonitoring.
        destruct (h_tronWebRef h) as [c|]; [|exact H].
        destruct (_ || _); [exact H|]. destruct (negb _); [exact H|].
        apply Hmon. cbn. lia.
      - destruct (h_intervalRef h) as [cl|]; [|exact H]. apply Hmon. exact H.
      - destruct (h_timers h); exact H.
      - destruct (nth_error (h_running h) i) as [p|]; [|exact H].
        match goal with
        | |- context [applyEffects ?c ?t ?h1] =>
            destruct (applyEffects_fields c t h1) as (_ & _ & _ & _ & -> & _)
        end.
        assert (Hnone : heartbeatWrites
                  (fst (forwardWithMultisig (h_tronWebRef h) (pending_connection p)
                          (pending_amount p) envs)) = []).
        { destruct (h_tronWebRef h) as [c|]; [|reflexivity].
          apply Forall_False_nil. apply run_observed; try reflexivity.
          intros j _.
          fold (heartbeatWrites
                  (fst (attempt c (pending_connection p) (pending_amount p) (envs j) j))).
          rewrite (proj2 (attempt_timeouts c (pending_connection p) (pending_amount p)
                            (envs j) j)).
          constructor. }
        rewrite Hnone. exact H. }
    apply Hgen. cbn. lia.
Qed.

(** ** Verification, initialisation and the views *)

(** X20. [verifyMultisigSetup] asks the ledger only when the ledger client
    is set and an approving address is known, and logs exactly one entry
    per query.  It writes the multisig status only when the query answers
    with an account; a query that fails, or answers without an account,
    logs an error and leaves the status as it was.  The entry is a success
    when the new status is configured and a warning when it is not. *)
Theorem X20_verification_keeps_status_on_failure :
  forall (h : Hook) (answer : Rpc (option AccountInfo)),
    let approving := approvingAddress (h_connection h) in
    let t := verifyMultisigSetup (h_tronWebRef h) approving answer in
    let h' := step h (Verify answer) in
    match h_tronWebRef h with
    | Some cfg =>
        if String.eqb approving ""
        then t = [] /\ h_multisigStatus h' = h_multisigStatus h
        else callsOf t = [GetAccount (receivingAddress cfg)]
             /\ match answer with
                | Resolved (Some info) =>
                    h_multisigStatus h' = multisigStatusOf cfg approving info
                    /\ levelsLogged t
                       = [if isConfigured (multisigStatusOf cfg approving info)
                          then SUCCESS else WARNING]
                | _ =>
                    h_multisigStatus h' = h_multisigStatus h
                    /\ levelsLogged t = [ERROR]
                end
    | None => t = [] /\ h_multisigStatus h' = h_multisigStatus h
    end
    /\ h_lastBalance h' = h_lastBalance h
    /\ h_intervalRef h' = h_intervalRef h
    /\ h_isRunning h' = h_isRunning h
    /\ h_timers h' = h_timers h
    /\ h_running h' = h_running h.
Proof.
  intros h answer approving t h'. subst h' t approving. cbn [step].
  match goal with
  | |- context [applyEffects ?c ?t ?h1] =>
      destruct (applyEffects_fields c t h1) as (-> & _ & -> & _ & _ & -> & ->);
      destruct (applyEffects_timers_running c t h1) as [-> ->]
  end.
  rewrite verifyMultisigSetup_timeouts.
  unfold verifyMultisigSetup.
  destruct (h_tronWebRef h) as [cfg|]; [|cbn; rewrite app_nil_r; repeat split].
  destruct (String.eqb (approvingAddress (h_connection h)) "");
    [cbn; rewrite app_nil_r; repeat split|].
  destruct answer as [[info|]|msg]; cbv zeta.
  - destruct (isConfigured (multisigStatusOf cfg (approvingAddress (h_connection h)) info));
      cbn [map app]; rewrite app_nil_r; repeat split.
  - cbn [map app]. rewrite app_nil_r. repeat split.
  - cbn [map app]. rewrite app_nil_r. repeat split.
Qed.

(** X21. [initTronWeb] sets the ledger client exactly when the private key
    and the receiving address are given, the client can be constructed,
    both addresses are valid, and the address derived from the private key
    is the receiving address; it then logs a success and queries the
    balance once.  In every other case it leaves the client unset, logs
    exactly one error and makes no ledger call. *)
Theorem X21_initialisation_validates_the_configuration :
  forall (isAddress : string -> bool) (fromPrivateKey : string -> string)
         (config : ForwardingConfig) (constructed : option string)
         (balanceInSun : Rpc Z),
    let out := initTronWeb isAddress fromPrivateKey config constructed balanceInSun in
    let valid :=
      negb (String.eqb (receivingPrivateKey config) "")
      && negb (String.eqb (receivingAddress config) "")
      && (match constructed with None => true | Some _ => false end)
      && isAddress (receivingAddress config)
      && isAddress (destinationAddress config)
      && String.eqb (fromPrivateKey (receivingPrivateKey config))
           (receivingAddress config) in
    if valid
    then fst out = Some config
         /\ hd_error (levelsLogged (snd out)) = Some SUCCESS
         /\ callsOf (snd out) = [GetBalance (receivingAddress config)]
    else fst out = None
         /\ levelsLogged (snd out) = [ERROR]
         /\ callsOf (snd out) = [].
Proof.
  intros isAddress fromPrivateKey config constructed balanceInSun out valid.
  subst out valid. unfold initTronWeb.
  destruct (String.eqb (receivingPrivateKey config) ""); cbn [negb andb orb];
    [repeat split|].
  destruct (String.eqb (receivingAddress config) ""); cbn [negb andb orb];
    [repeat split|].
  destruct constructed as [msg|]; cbn [negb andb]; [repeat split|].
  destruct (isAddress (receivingAddress config)); cbn [negb andb]; [|repeat split].
  destruct (isAddress (destinationAddress config)); cbn [negb andb]; [|repeat split].
  destruct (String.eqb (fromPrivateKey (receivingPrivateKey config))
              (receivingAddress config)); cbn [negb]; [|repeat split].
  destruct balanceInSun; repeat split.
Qed.

(** X22. The control panel shows no warning exactly when it enables the
    start button: [canStart] holds if and only if [getWarnings] is empty,
    and the number of warnings is the number of its three conditions that
    fail. *)
Theorem X22_start_button_enabled_iff_no_warning :
  forall (isConnected : bool) (config : option ForwardingConfig)
         (multisigStatus : MultisigStatus),
    (canStart isConnected config multisigStatus = true
     <-> getWarnings isConnected config multisigStatus = [])
    /\ List.length (getWarnings isConnected config multisigStatus)
       = ((if isConnected then 0 else 1)
          + (match config with Some _ => 0 | None => 1 end)
          + (if isConfigured multisigStatus then 0 else 1))%nat.
Proof.
  intros isConnected config multisigStatus. unfold canStart, getWarnings.
  destruct isConnected, config as [c|], (isConfigured multisigStatus); cbn;
    (split; [split; [reflexivity || discriminate | reflexivity || discriminate]
            | reflexivity]).
Qed.

Lemma setHas_delete (x y : string) (s : list string) :
  setHas x (setDelete y s) = negb (String.eqb y x) && setHas x s.
Proof.
  unfold setHas, setDelete. induction s as [|z s IH]; [apply eq_sym, andb_false_r|].
  cbn [filter existsb].
  destruct (String.eqb_spec y z) as [->|Hyz]; cbn [negb existsb].
  - rewrite IH. destruct (String.eqb_spec x z) as [->|Hxz].
    + rewrite String.eqb_refl. reflexivity.
    + reflexivity.
  - rewrite IH. destruct (String.eqb_spec x z) as [->|Hxz]; cbn [orb].
    + destruct (String.eqb_spec y z); [contradiction | reflexivity].
    + reflexivity.
Qed.

Lemma setHas_add (x y : string) (s : list string) :
  setHas x (setAdd y s) = String.eqb x y || setHas x s.
Proof.
  unfold setAdd. destruct (setHas y s) eqn:Hy.
  - destruct (String.eqb_spec x y) as [->|_]; [rewrite Hy; reflexivity | reflexivity].
  - unfold setHas. rewrite existsb_app. cbn. rewrite orb_false_r. apply orb_comm.
Qed.

(** X23. Toggling an entry of the log view flips whether that entry is
    expanded and leaves every other entry as it was; toggling it twice
    restores the expanded entries. *)
Theorem X23_toggle_flips_one_entry :
  forall (logId x : string) (expandedLogs : list string),
    setHas logId (toggleLogExpansion logId expandedLogs)
    = negb (setHas logId expandedLogs)
    /\ (if String.eqb x logId then True
        else setHas x (toggleLogExpansion logId expandedLogs) = setHas x expandedLogs)
    /\ setHas x (toggleLogExpansion logId (toggleLogExpansion logId expandedLogs))
       = setHas x expandedLogs.
Proof.
  intros logId x expandedLogs.
  assert (Hflip : forall s, setHas logId (toggleLogExpansion logId s)
                            = negb (setHas logId s)).
  { intros s. unfold toggleLogExpansion. destruct (setHas logId s) eqn:Hs.
    - rewrite setHas_delete, String.eqb_refl. reflexivity.
    - rewrite setHas_add, String.eqb_refl. reflexivity. }
  assert (Hother : forall s, String.eqb x logId = false ->
                     setHas x (toggleLogExpansion logId s) = setHas x s).
  { intros s Hx. unfold toggleLogExpansion. destruct (setHas logId s).
    - rewrite setHas_delete, String.eqb_sym, Hx. reflexivity.
    - rewrite setHas_add, Hx. reflexivity. }
  split; [apply Hflip|]. split.
  - destruct (String.eqb x logId) eqn:Hx; [exact I | apply Hother; reflexivity].
  - destruct (String.eqb_spec x logId) as [->|Hne].
    + rewrite !Hflip. apply negb_involutive.
    + rewrite !Hother by reflexivity. reflexivity.
Qed.

(** ** The report of a completed forward *)

(** X24. The closing success entry of a pass accounts for the balance:
    the amount it reports as forwarded is the amount of the transaction the
    pass built, the balance it reports is the one read after the
    settlement delay, and the fee it reports is what is missing from the
    balance read at the start of the pass beyond the forwarded amount.  A
    pass logs this entry exactly when it returns the broadcast result and
    the balance query after the delay answered. *)
Theorem X24_reported_fee_accounts_for_the_balance :
  forall (cfg : ForwardingConfig) (conn : Connection) (receivedAmount : Z)
         (env : AttemptEnv) (k : nat),
    let pass := attempt cfg conn receivedAmount env k in
    match completionReports (fst pass) with
    | [] =>
        match snd pass, on_getBalanceAfter env with
        | Returned (RResult _), Resolved _ => False
        | _, _ => True
        end
    | [(forwarded, fee, after)] =>
        (exists res, snd pass = Returned (RResult res))
        /\ on_getBalanceAfter env = Resolved after
        /\ sendTrxCalls (fst pass)
           = [(destinationAddress cfg, forwarded, receivingAddress cfg)]
        /\ exists currentBalance,
             on_getBalance env = Resolved currentBalance
             /\ currentBalance = after + forwarded + fee
    | _ => False
    end.
Proof.
  intros cfg conn receivedAmount env k pass. subst pass.
  open_attempt env. walk_attempt; try exact I.
  split; [eexists; reflexivity|]. split; [reflexivity|]. split; [reflexivity|].
  eexists. split; [reflexivity|]. lia.
Qed.

(** ** A monitoring session *)

(** X25. While the monitor runs, polls do not change the callback that
    the interval holds: every poll of a session is measured against the
    previous balance that this callback holds, and sets a forwarding timer,
    for the difference, exactly when the ledger answers with a larger
    balance.  A callback without a previous balance sets no timer at all. *)
Theorem X25_session_measures_against_one_balance :
  forall (h : Hook) (cl : Closure) (answers : list (Rpc Z)),
    h_intervalRef h = Some cl ->
    h_tronWebRef h <> None ->
    h_intervalRef (runEvents (ticks answers) h) = Some cl
    /\ h_timers (runEvents (ticks answers) h)
       = h_timers h ++ sessionTimers (seen_connection cl) (seen_lastBalance cl) answers
    /\ h_running (runEvents (ticks answers) h) = h_running h.
Proof.
  intros h cl answers. revert h.
  induction answers as [|a answers IH]; intros h Hint Href.
  - cbn. rewrite app_nil_r. repeat split. exact Hint.
  - change (runEvents (ticks (a :: answers)) h)
      with (runEvents (ticks answers) (step h (Tick a))).
    assert (Hstep : step h (Tick a) = runMonitor cl a h).
    { cbn [step]. rewrite Hint. reflexivity. }
    destruct (runMonitor_fields cl a h) as (Hint' & Href' & _ & _ & Hrun').
    destruct (IH (step h (Tick a))) as (-> & -> & ->).
    + rewrite Hstep, Hint'. exact Hint.
    + rewrite Hstep, Href'. exact Href.
    + rewrite Hstep, Hrun'. split; [reflexivity|]. split; [|reflexivity].
      unfold runMonitor.
      match goal with
      | |- context [applyEffects ?c ?t ?h1] =>
          destruct (applyEffects_timers_running c t h1) as [-> _]
      end.
      rewrite monitorBalance_timeouts, <- app_assoc. f_equal.
      destruct (h_tronWebRef h) as [cfg|]; [|contradiction].
      cbn [sessionTimers flat_map]. f_equal.
      destruct (seen_lastBalance cl) as [l|]; [|reflexivity].
      destruct a as [b|msg]; [|reflexivity].
      destruct (Z.gtb_spec b l), (Z.ltb_spec l b); try lia; reflexivity.
Qed.

Lemma X25_witness_same_deposit_three_times :
  h_intervalRef
    (runEvents (ticks [Resolved 150; Rejected "timeout"; Resolved 150; Resolved 90])
       monitoringHook)
  = Some (mkClosure (Some 100) sampleConnection (mkMultisigStatus true 2 2 true true))
  /\ h_timers
       (runEvents (ticks [Resolved 150; Rejected "timeout"; Resolved 150; Resolved 90])
          monitoringHook)
     = h_timers monitoringHook
       ++ sessionTimers sampleConnection (Some 100)
            [Resolved 150; Rejected "timeout"; Resolved 150; Resolved 90]
  /\ h_running
       (runEvents (ticks [Resolved 150; Rejected "timeout"; Resolved 150; Resolved 90])
          monitoringHook)
     = h_running monitoringHook.
Proof.
  apply (@X25_session_measures_against_one_balance monitoringHook
           (mkClosure (Some 100) sampleConnection (mkMultisigStatus true 2 2 true true))).
  - reflexivity.
  - discriminate.
Defined.
